(** * Options backtester: pricing models, volatility surface, backtest loop

    A shallow embedding of [backtester/data.py], [backtester/instruments.py],
    [backtester/models.py] and [backtester/backtest.py].

    Conventions.
    - A [pd.Timestamp] is a day number in [Z]; [(a - b).days] is [a - b] and
      [date + Timedelta(days=1)] is [date + 1].
    - A Python float is an exact real ([R]).  Where the source names a NaN
      explicitly (the vol surface interpolant), the value type is [pyfloat].
    - A computation that can raise returns [option]; [None] also covers a
      float result that is not a real number (NaN or an infinity).  *)

From Stdlib Require Import Reals Lra Lia ZArith List Bool String Sorted.
Import ListNotations.
Open Scope R_scope.

(** ** The standard normal distribution ([scipy.stats.norm]) *)

Module NormalDist.

(** The unnormalised density [exp(-t^2/2)]. *)
Definition gauss_kernel (t : R) : R := exp (- (t * t / 2)).

Lemma derivable_pt_lim_ext (f g : R -> R) (x l : R) :
  (forall t, f t = g t) -> derivable_pt_lim f x l -> derivable_pt_lim g x l.
Proof.
  intros E H eps Heps. destruct (H eps Heps) as [d Hd].
  exists d. intros h Hh Hd'. rewrite <- !E. apply Hd; assumption.
Qed.

Lemma gauss_kernel_deriv (x : R) :
  derivable_pt_lim gauss_kernel x (- x * gauss_kernel x).
Proof.
  unfold gauss_kernel.
  replace (- x * exp (- (x * x / 2))) with (exp (- (x * x / 2)) * (- x)) by ring.
  apply (derivable_pt_lim_comp (fun t => - (t * t / 2)) exp).
  - apply (derivable_pt_lim_ext (fun t => (- / 2) * (t * t))).
    + intros t. field.
    + replace (- x) with ((- / 2) * (1 * x + x * 1)) by field.
      apply (derivable_pt_lim_scal (fun t => t * t) (- / 2)).
      apply (derivable_pt_lim_mult id id); apply derivable_pt_lim_id.
  - apply derivable_pt_lim_exp.
Qed.

Lemma gauss_kernel_continuity : continuity gauss_kernel.
Proof.
  intro x. apply derivable_continuous_pt.
  exists (- x * gauss_kernel x). apply gauss_kernel_deriv.
Qed.

Lemma gauss_kernel_integrable (a b : R) : Riemann_integrable gauss_kernel a b.
Proof.
  destruct (Rle_dec a b) as [Hab | Hab].
  - apply continuity_implies_RiemannInt; [exact Hab | intros; apply gauss_kernel_continuity].
  - apply RiemannInt_P1.
    apply continuity_implies_RiemannInt; [lra | intros; apply gauss_kernel_continuity].
Defined.

(** [gauss_int x] is the integral of the kernel from [0] to [x]. *)
Definition gauss_int (x : R) : R := RiemannInt (gauss_kernel_integrable 0 x).

Lemma gauss_int_chasles (a y : R) (pr : Riemann_integrable gauss_kernel a y) :
  gauss_int y = gauss_int a + RiemannInt pr.
Proof.
  unfold gauss_int. symmetry. apply RiemannInt_P26.
Qed.

Lemma gauss_int_deriv (x : R) : derivable_pt_lim gauss_int x (gauss_kernel x).
Proof.
  assert (h : x - 1 <= x + 1) by lra.
  assert (C0 : forall t, x - 1 <= t <= x + 1 -> continuity_pt gauss_kernel t)
    by (intros; apply gauss_kernel_continuity).
  assert (HP := RiemannInt_P27 (f:=gauss_kernel) (x:=x) h C0 ltac:(lra)).
  intros eps Heps. destruct (HP eps Heps) as [d Hd].
  assert (Hm : 0 < Rmin d 1) by (apply Rmin_pos; [apply cond_pos | lra]).
  exists (mkposreal _ Hm). intros k Hk0 Hk. simpl in Hk.
  assert (Hk1 : Rabs k < d) by (eapply Rlt_le_trans; [exact Hk | apply Rmin_l]).
  assert (Hk2 : Rabs k < 1) by (eapply Rlt_le_trans; [exact Hk | apply Rmin_r]).
  specialize (Hd k Hk0 Hk1).
  assert (Hloc : forall y, x - 1 <= y <= x + 1 ->
            gauss_int y = gauss_int (x - 1) + primitive h (FTC_P1 h C0) y).
  { intros y [Hy1 Hy2]. unfold primitive.
    destruct (Rle_dec (x - 1) y) as [? | ?]; [| lra].
    destruct (Rle_dec y (x + 1)) as [? | ?]; [| lra].
    apply gauss_int_chasles. }
  rewrite (Hloc (x + k)), (Hloc x).
  - replace (gauss_int (x - 1) + primitive h (FTC_P1 h C0) (x + k) -
             (gauss_int (x - 1) + primitive h (FTC_P1 h C0) x))
      with (primitive h (FTC_P1 h C0) (x + k) - primitive h (FTC_P1 h C0) x) by ring.
    exact Hd.
  - lra.
  - apply Rabs_def2 in Hk2. lra.
Qed.

Lemma deriv_nonneg_increasing (f f' : R -> R) :
  (forall x, derivable_pt_lim f x (f' x)) -> (forall x, 0 <= f' x) -> increasing f.
Proof.
  intros Hd Hpos.
  apply (nonneg_derivative_1 f (fun x => exist _ (f' x) (Hd x))).
  intros x. rewrite (derive_pt_eq_0 _ _ _ _ (Hd x)). apply Hpos.
Qed.

Lemma deriv_nonpos_decreasing (f f' : R -> R) :
  (forall x, derivable_pt_lim f x (f' x)) -> (forall x, f' x <= 0) -> decreasing f.
Proof.
  intros Hd Hneg.
  apply (nonpos_derivative_1 f (fun x => exist _ (f' x) (Hd x))).
  intros x. rewrite (derive_pt_eq_0 _ _ _ _ (Hd x)). apply Hneg.
Qed.

Lemma deriv_null_constant (f : R -> R) :
  (forall x, derivable_pt_lim f x 0) -> constant f.
Proof.
  intros Hd.
  apply (null_derivative_1 f (fun x => exist _ 0 (Hd x))).
  intros x. apply (derive_pt_eq_0 _ _ _ _ (Hd x)).
Qed.

Lemma gauss_kernel_pos (t : R) : 0 < gauss_kernel t.
Proof. apply exp_pos. Qed.

Lemma gauss_int_0 : gauss_int 0 = 0.
Proof. unfold gauss_int. apply RiemannInt_P9. Qed.

Lemma gauss_int_increasing : increasing gauss_int.
Proof.
  apply (deriv_nonneg_increasing gauss_int gauss_kernel).
  - apply gauss_int_deriv.
  - intros x. left. apply gauss_kernel_pos.
Qed.

Lemma gauss_int_odd (x : R) : gauss_int (- x) = - gauss_int x.
Proof.
  assert (Hc : constant (fun t => gauss_int t + gauss_int (- t))).
  { apply deriv_null_constant. intros t.
    replace 0 with (gauss_kernel t + gauss_kernel (- t) * (- 1)).
    - apply (derivable_pt_lim_plus gauss_int (fun t => gauss_int (- t))).
      + apply gauss_int_deriv.
      + apply (derivable_pt_lim_comp (fun t => - t) gauss_int).
        * apply (derivable_pt_lim_opp id). apply derivable_pt_lim_id.
        * apply gauss_int_deriv.
    - unfold gauss_kernel. replace (- t * - t) with (t * t) by ring. ring. }
  specialize (Hc x 0). simpl in Hc.
  rewrite Ropp_0, gauss_int_0 in Hc. lra.
Qed.

(** The kernel is dominated by an exponential with finite mass. *)
Lemma gauss_kernel_le_exp (t : R) : gauss_kernel t <= exp (/ 2 - t).
Proof.
  unfold gauss_kernel.
  assert (H : - (t * t / 2) <= / 2 - t).
  { pose proof (Rle_0_sqr (t - 1)) as Hs. unfold Rsqr in Hs. lra. }
  destruct H as [H | H].
  - left. apply exp_increasing. exact H.
  - rewrite H. lra.
Qed.

Lemma gauss_int_bounded (x : R) : gauss_int x <= exp (/ 2).
Proof.
  destruct (Rle_dec x 0) as [Hx | Hx].
  - apply Rle_trans with 0.
    + rewrite <- gauss_int_0. apply gauss_int_increasing. exact Hx.
    + left. apply exp_pos.
  - assert (Hdec : decreasing (fun t => gauss_int t + exp (/ 2 - t))).
    { apply (deriv_nonpos_decreasing _ (fun t => gauss_kernel t + exp (/ 2 - t) * (0 - 1))).
      - intros t.
        apply (derivable_pt_lim_plus gauss_int (fun t => exp (/ 2 - t))).
        + apply gauss_int_deriv.
        + apply (derivable_pt_lim_comp (fun t => / 2 - t) exp).
          * apply (derivable_pt_lim_minus (fun _ => / 2) id).
            -- apply derivable_pt_lim_const.
            -- apply derivable_pt_lim_id.
          * apply derivable_pt_lim_exp.
      - intros t. pose proof (gauss_kernel_le_exp t). lra. }
    specialize (Hdec 0 x ltac:(lra)). simpl in Hdec.
    rewrite gauss_int_0, Rminus_0_r in Hdec.
    pose proof (exp_pos (/ 2 - x)). lra.
Qed.

Definition gauss_range (y : R) : Prop := exists x, y = gauss_int x.

Lemma gauss_range_bound : bound gauss_range.
Proof.
  exists (exp (/ 2)). intros y [x ->]. apply gauss_int_bounded.
Qed.

Lemma gauss_range_inhabited : exists y, gauss_range y.
Proof. exists (gauss_int 0), 0. reflexivity. Qed.

(** Half of the total mass: the limit of [gauss_int] at plus infinity. *)
Definition gauss_half_mass : R :=
  proj1_sig (completeness gauss_range gauss_range_bound gauss_range_inhabited).

Lemma gauss_half_mass_lub : is_lub gauss_range gauss_half_mass.
Proof.
  unfold gauss_half_mass.
  destruct (completeness gauss_range gauss_range_bound gauss_range_inhabited); assumption.
Qed.

Lemma gauss_int_le_half_mass (x : R) : gauss_int x <= gauss_half_mass.
Proof. apply (proj1 gauss_half_mass_lub). exists x. reflexivity. Qed.

Lemma gauss_int_pos (x : R) : 0 < x -> 0 < gauss_int x.
Proof.
  intros Hx.
  destruct (MVT_cor2 gauss_int gauss_kernel 0 x Hx) as [c [Hc _]].
  - intros; apply gauss_int_deriv.
  - rewrite gauss_int_0 in Hc. pose proof (gauss_kernel_pos c). nra.
Qed.

Lemma gauss_half_mass_pos : 0 < gauss_half_mass.
Proof.
  apply Rlt_le_trans with (gauss_int 1).
  - apply gauss_int_pos. lra.
  - apply gauss_int_le_half_mass.
Qed.

(** [norm.cdf]: the mass of the kernel below [x] over the total mass. *)
Definition norm_cdf (x : R) : R :=
  (gauss_half_mass + gauss_int x) / (2 * gauss_half_mass).

Lemma norm_cdf_symmetry (x : R) : norm_cdf (- x) = 1 - norm_cdf x.
Proof.
  unfold norm_cdf. rewrite gauss_int_odd.
  pose proof gauss_half_mass_pos. field. lra.
Qed.

(** Tail bound of the Gaussian integral (Mills ratio). *)
Lemma gauss_tail_bound (y : R) :
  0 < y -> gauss_half_mass - gauss_int y <= gauss_kernel y / y.
Proof.
  intros Hy.
  assert (Hub : is_upper_bound gauss_range (gauss_int y + gauss_kernel y / y)).
  { intros z [b ->].
    assert (Hq : 0 < gauss_kernel y / y)
      by (apply Rdiv_lt_0_compat; [apply gauss_kernel_pos | exact Hy]).
    destruct (Rle_dec b y) as [Hb | Hb].
    - pose proof (gauss_int_increasing b y Hb). lra.
    - assert (Hyb : y < b) by lra.
      destruct (MVT_cor2 (fun t => gauss_int t + gauss_kernel t / t)
                  (fun t => gauss_kernel t +
                     (- t * gauss_kernel t * t - 1 * gauss_kernel t) / Rsqr t)
                  y b Hyb) as [c [Hc [Hc1 Hc2]]].
      + intros t [Ht _].
        apply (derivable_pt_lim_plus gauss_int (fun t => gauss_kernel t / t)).
        * apply gauss_int_deriv.
        * apply (derivable_pt_lim_div gauss_kernel id).
          -- apply gauss_kernel_deriv.
          -- apply derivable_pt_lim_id.
          -- unfold id. lra.
      + simpl in Hc.
        assert (Hneg : gauss_kernel c +
                  (- c * gauss_kernel c * c - 1 * gauss_kernel c) / Rsqr c <= 0).
        { unfold Rsqr.
          replace (gauss_kernel c + (- c * gauss_kernel c * c - 1 * gauss_kernel c) / (c * c))
            with (- (gauss_kernel c / (c * c))) by (field; lra).
          assert (0 < gauss_kernel c / (c * c)).
          { apply Rdiv_lt_0_compat; [apply gauss_kernel_pos | nra]. }
          lra. }
        assert (0 < gauss_kernel b / b)
          by (apply Rdiv_lt_0_compat; [apply gauss_kernel_pos | lra]).
        nra. }
  pose proof (proj2 gauss_half_mass_lub _ Hub). lra.
Qed.

(** Unnormalised ratio cdf / pdf. *)
Definition mills (x : R) : R := (gauss_half_mass + gauss_int x) * exp (x * x / 2).

Lemma mills_increasing : increasing mills.
Proof.
  apply (deriv_nonneg_increasing mills
           (fun x => gauss_kernel x * exp (x * x / 2) +
                     (gauss_half_mass + gauss_int x) * (exp (x * x / 2) * x))).
  - intros x. unfold mills.
    apply (derivable_pt_lim_mult (fun t => gauss_half_mass + gauss_int t)
                                 (fun t => exp (t * t / 2))).
    + replace (gauss_kernel x) with (0 + gauss_kernel x) by ring.
      apply (derivable_pt_lim_plus (fun _ => gauss_half_mass) gauss_int).
      * apply derivable_pt_lim_const.
      * apply gauss_int_deriv.
    + apply (derivable_pt_lim_comp (fun t => t * t / 2) exp).
      * apply (derivable_pt_lim_ext (fun t => (/ 2) * (t * t))).
        -- intros t. field.
        -- replace x with ((/ 2) * (1 * x + x * 1)) at 2 by field.
           apply (derivable_pt_lim_scal (fun t => t * t) (/ 2)).
           apply (derivable_pt_lim_mult id id); apply derivable_pt_lim_id.
      * apply derivable_pt_lim_exp.
  - intros x.
    assert (Hone : gauss_kernel x * exp (x * x / 2) = 1).
    { unfold gauss_kernel. rewrite <- exp_plus.
      replace (- (x * x / 2) + x * x / 2) with 0 by lra. apply exp_0. }
    rewrite Hone.
    pose proof (exp_pos (x * x / 2)) as He.
    destruct (Rle_dec 0 x) as [Hx | Hx].
    + assert (0 <= gauss_half_mass + gauss_int x).
      { pose proof (gauss_int_le_half_mass (- x)) as H. rewrite gauss_int_odd in H. lra. }
      assert (0 <= (gauss_half_mass + gauss_int x) * (exp (x * x / 2) * x)).
      { apply Rmult_le_pos; [assumption | apply Rmult_le_pos; lra]. }
      lra.
    + assert (Hy : 0 < - x) by lra.
      pose proof (gauss_tail_bound (- x) Hy) as Ht.
      rewrite gauss_int_odd in Ht.
      assert (Hk : gauss_kernel (- x) = gauss_kernel x).
      { unfold gauss_kernel. replace (- x * - x) with (x * x) by ring. reflexivity. }
      rewrite Hk in Ht.
      assert (Hm : (gauss_half_mass + gauss_int x) * (- x) <= gauss_kernel x).
      { apply (Rmult_le_compat_r (- x)) in Ht; [| lra].
        replace (gauss_kernel x / - x * - x) with (gauss_kernel x) in Ht by (field; lra).
        lra. }
      apply (Rmult_le_compat_r (exp (x * x / 2))) in Hm; [| lra].
      rewrite Hone in Hm. lra.
Qed.

(** [norm.pdf]. *)
Definition norm_pdf (x : R) : R := exp (- (x * x / 2)) / sqrt (2 * PI).

End NormalDist.

(** ** Failure and iteration *)

Definition bind {A B : Type} (m : option A) (f : A -> option B) : option B :=
  match m with
  | Some a => f a
  | None => None
  end.

Notation "x <- m ;; k" := (bind m (fun x => k))
  (at level 61, m at next level, right associativity).

(** A [for] loop whose body may raise. *)
Fixpoint foldM {A B : Type} (f : A -> B -> option A) (l : list B) (a : A)
  : option A :=
  match l with
  | [] => Some a
  | x :: rest => a' <- f a x ;; foldM f rest a'
  end.

(** [enumerate(l)], counting from [start]. *)
Fixpoint enumerate_from {A : Type} (start : nat) (l : list A) : list (nat * A) :=
  match l with
  | [] => []
  | x :: rest => (start, x) :: enumerate_from (S start) rest
  end.

Definition enumerate {A : Type} (l : list A) : list (nat * A) :=
  enumerate_from 0 l.

(** [l[-1]]. *)
Definition last_opt {A : Type} (l : list A) : option A :=
  match rev l with
  | [] => None
  | x :: _ => Some x
  end.

(** ** Market data and volatility surface ([data.py]) *)

Module Data.

(** A float that may be NaN. *)
Inductive pyfloat : Type :=
| Fin (x : R)
| NaN.

(** What a call of the fitted interpolant does. *)
Inductive outcome : Type :=
| Returns (v : pyfloat)
| Raises.

(** [np.clip(v, lo, hi)] is [minimum(maximum(v, lo), hi)]; NaN propagates. *)
Definition np_clip (v : pyfloat) (lo hi : R) : pyfloat :=
  match v with
  | Fin x => Fin (Rmin (Rmax x lo) hi)
  | NaN => NaN
  end.

(** The [expiry] argument of [iv]: a timestamp or a number of days. *)
Inductive expiry_arg : Type :=
| AtDate (d : Z)
| InDays (n : Z).

(** One row of [vol_data]. *)
Record VolRow : Type := mkVolRow {
  row_strike : R;
  row_days_to_expiry : Z;
  row_implied_vol : R
}.

(** [VolSurface]; the interpolant is the object scipy fitted in
    [_build_interpolator]. *)
Record VolSurface : Type := mkVolSurface {
  surface_date : Z;
  vol_data : list VolRow;
  interpolator : R -> Z -> outcome
}.

(** [Series.idxmin()]: position of the first smallest entry; raises on an
    empty series. *)
Fixpoint idxmin (ds : list R) : option nat :=
  match ds with
  | [] => None
  | d :: rest =>
      match idxmin rest with
      | None => Some 0%nat
      | Some j => if Rle_dec d (nth j rest 0) then Some 0%nat else Some (S j)
      end
  end.

(** The [distances] series of the fallback path of [iv]. *)
Definition distances (rows : list VolRow) (strike : R) (days_to_expiry : Z)
  : list R :=
  map (fun row =>
         sqrt ((row_strike row - strike) ^ 2
               + (IZR (row_days_to_expiry row) - IZR days_to_expiry) ^ 2))
      rows.

(** [VolSurface.iv]. *)
Definition iv (s : VolSurface) (strike : R) (expiry : expiry_arg) (spot : R)
  : option pyfloat :=
  let days_to_expiry :=
    match expiry with
    | AtDate e => (e - surface_date s)%Z
    | InDays n => n
    end in
  if (days_to_expiry <=? 0)%Z then Some (Fin 0)
  else
    match interpolator s strike days_to_expiry with
    | Returns iv_value => Some (np_clip iv_value (1 / 100) 5)
    | Raises =>
        nearest_idx <- idxmin (distances (vol_data s) strike days_to_expiry) ;;
        row <- nth_error (vol_data s) nearest_idx ;;
        Some (Fin (row_implied_vol row))
    end.

(** A date-indexed series or a dict keyed by date. *)
Definition series (V : Type) : Type := list (Z * V).

Definition index_of {V : Type} (s : series V) : list Z := map fst s.

(** [date in s.index]. *)
Definition has_date {V : Type} (s : series V) (date : Z) : bool :=
  existsb (fun d => (d =? date)%Z) (index_of s).

(** [s.loc[date]] and [d[date]]. *)
Definition loc {V : Type} (s : series V) (date : Z) : option V :=
  option_map snd (find (fun p => (fst p =? date)%Z) s).

(** [s.loc[date]] when the date is present, otherwise
    [s.index[s.index <= date][-1]] is looked up; raises when no date of the
    index is at or before [date]. *)
Definition loc_asof {V : Type} (s : series V) (date : Z) : option V :=
  if has_date s date then loc s date
  else
    nearest_date <- last_opt (filter (fun d => (d <=? date)%Z) (index_of s)) ;;
    loc s nearest_date.

(** [MarketData] after construction: the spot frame is sorted by date, the
    rate and dividend series are aligned on the spot index. *)
Record MarketData : Type := mkMarketData {
  spot_data : series R;
  vol_surfaces : series VolSurface;
  risk_free_rates : series R;
  dividend_yields : series R
}.

Definition time_index (md : MarketData) : list Z := index_of (spot_data md).

Definition get_spot (md : MarketData) (date : Z) : option R :=
  loc_asof (spot_data md) date.

Definition get_rate (md : MarketData) (date : Z) : option R :=
  loc_asof (risk_free_rates md) date.

Definition get_dividend_yield (md : MarketData) (date : Z) : option R :=
  loc_asof (dividend_yields md) date.

(** [sorted(keys)], by insertion. *)
Fixpoint insert_sorted (k : Z) (l : list Z) : list Z :=
  match l with
  | [] => [k]
  | x :: rest => if (k <=? x)%Z then k :: l else x :: insert_sorted k rest
  end.

Definition sorted (l : list Z) : list Z := fold_right insert_sorted [] l.

(** [min(l, key=key)]: the first element with the smallest key. *)
Fixpoint min_by (key : Z -> Z) (l : list Z) : option Z :=
  match l with
  | [] => None
  | x :: rest =>
      match min_by key rest with
      | None => Some x
      | Some y => if (key x <=? key y)%Z then Some x else Some y
      end
  end.

(** The key of the surface [get_implied_vol] consults for [date], if any:
    [date] itself when it is a key, otherwise the key closest in days. *)
Definition surface_date_used (md : MarketData) (date : Z) : option Z :=
  if has_date (vol_surfaces md) date then Some date
  else min_by (fun d => Z.abs (d - date)) (sorted (index_of (vol_surfaces md))).

(** [MarketData.get_implied_vol]. *)
Definition get_implied_vol (md : MarketData) (date : Z) (strike : R)
  (expiry : Z) (spot : R) : option pyfloat :=
  if has_date (vol_surfaces md) date then
    surface <- loc (vol_surfaces md) date ;;
    spot' <- (if Req_dec_T spot 0 then get_spot md date else Some spot) ;;
    iv surface strike (AtDate expiry) spot'
  else
    let surface_dates := sorted (index_of (vol_surfaces md)) in
    match surface_dates with
    | [] => Some (Fin (20 / 100))
    | _ =>
        nearest_date <- min_by (fun d => Z.abs (d - date)) surface_dates ;;
        surface <- loc (vol_surfaces md) nearest_date ;;
        spot' <- (if Req_dec_T spot 0 then get_spot md date else Some spot) ;;
        iv surface strike (AtDate expiry) spot'
    end.


End Data.

(** ** Contracts, legs, strategies, portfolio ([instruments.py]) *)

Module Instruments.
Import Data.

Inductive OptionType : Type := Call | Put.

Inductive Style : Type := European | American.

Record OptionContract : Type := mkOptionContract {
  underlying : string;
  option_type : OptionType;
  style : Style;
  strike : R;
  expiry : Z;
  contract_size : R
}.

Definition is_call (c : OptionContract) : bool :=
  match option_type c with Call => true | Put => false end.

(** [OptionContract.intrinsic_value]. *)
Definition intrinsic_value (c : OptionContract) (spot : R) : R :=
  if is_call c then Rmax (spot - strike c) 0 else Rmax (strike c - spot) 0.

(** [OptionContract.payoff]. *)
Definition payoff (c : OptionContract) (spot : R) : R := intrinsic_value c spot.

Record OptionLeg : Type := mkOptionLeg {
  contract : OptionContract;
  quantity : R;
  entry_price : option R
}.

(** [OptionLeg.payoff]. *)
Definition leg_payoff (leg : OptionLeg) (spot : R) : R :=
  payoff (contract leg) spot * quantity leg * contract_size (contract leg).

Record OptionStrategy : Type := mkOptionStrategy {
  name : string;
  legs : list OptionLeg
}.

(** One entry of [Portfolio.trade_history]. *)
Record Trade : Type := mkTrade {
  trade_date : Z;
  description : string;
  cash_flow : R;
  strategy_index : option nat;
  cash_balance : R
}.

Record Portfolio : Type := mkPortfolio {
  initial_cash : R;
  cash : R;
  strategies : list OptionStrategy;
  trade_history : list Trade
}.

(** [Portfolio.__init__]. *)
Definition new_portfolio (initial : R) : Portfolio :=
  mkPortfolio initial initial [] [].

(** The assignment [portfolio.cash = c]. *)
Definition set_cash (p : Portfolio) (c : R) : Portfolio :=
  mkPortfolio (initial_cash p) c (strategies p) (trade_history p).

(** [Portfolio.add_strategy]. *)
Definition add_strategy (p : Portfolio) (s : OptionStrategy) : Portfolio :=
  mkPortfolio (initial_cash p) (cash p) (strategies p ++ [s]) (trade_history p).

(** [list.pop(index)] for an index in range. *)
Definition pop {A : Type} (l : list A) (index : nat) : list A :=
  firstn index l ++ skipn (S index) l.

(** [Portfolio.remove_strategy]: out-of-range indices are ignored. *)
Definition remove_strategy (p : Portfolio) (index : nat) : Portfolio :=
  if (index <? List.length (strategies p))%nat then
    mkPortfolio (initial_cash p) (cash p) (pop (strategies p) index)
                (trade_history p)
  else p.

(** [Portfolio.record_trade]. *)
Definition record_trade (p : Portfolio) (date : Z) (descr : string)
  (flow : R) (index : option nat) : Portfolio :=
  let cash' := cash p + flow in
  mkPortfolio (initial_cash p) cash' (strategies p)
              (trade_history p ++ [mkTrade date descr flow index cash']).

End Instruments.

(** ** Pricing models ([models.py]) *)

Module Models.
Import Data Instruments NormalDist.

(** The dictionary returned by [greeks]. *)
Record Greeks : Type := mkGreeks {
  delta : R;
  gamma : R;
  vega : R;
  theta : R;
  rho : R
}.

Definition zero_greeks : Greeks := mkGreeks 0 0 0 0 0.

Definition scale_greeks (g : Greeks) (k : R) : Greeks :=
  mkGreeks (delta g * k) (gamma g * k) (vega g * k) (theta g * k) (rho g * k).

Definition add_greeks (a b : Greeks) : Greeks :=
  mkGreeks (delta a + delta b) (gamma a + gamma b) (vega a + vega b)
           (theta a + theta b) (rho a + rho b).

(** The abstract class [PricingModel]. *)
Record PricingModel : Type := mkPricingModel {
  price : OptionContract -> Z -> MarketData -> option R;
  greeks : OptionContract -> Z -> MarketData -> option Greeks
}.

(** A vol read off the surface is usable when it is a number. *)
Definition as_real (v : pyfloat) : option R :=
  match v with
  | Fin x => Some x
  | NaN => None
  end.

(** The volatility both Black-Scholes methods use. *)
Definition bs_sigma (use_market_iv : bool) (md : MarketData) (date : Z)
  (K : R) (expiry : Z) (S : R) : option R :=
  if use_market_iv then
    v <- get_implied_vol md date K expiry S ;; as_real v
  else Some (20 / 100).

Definition bs_d1 (S K r q sigma T : R) : R :=
  (ln (S / K) + (r - q + 0.5 * sigma ^ 2) * T) / (sigma * sqrt T).

Definition bs_d2 (S K r q sigma T : R) : R :=
  bs_d1 S K r q sigma T - sigma * sqrt T.

(** The closed form before the floor at zero. *)
Definition bs_formula (call : bool) (S K r q sigma T : R) : R :=
  let d1 := bs_d1 S K r q sigma T in
  let d2 := bs_d2 S K r q sigma T in
  if call then
    S * exp (- q * T) * norm_cdf d1 - K * exp (- r * T) * norm_cdf d2
  else
    K * exp (- r * T) * norm_cdf (- d2) - S * exp (- q * T) * norm_cdf (- d1).

(** [np.log(S / K)] and the division by [sigma * sqrt(T)] stay within the
    reals. *)
Definition bs_inputs_regular (S K sigma T : R) : bool :=
  if Rlt_dec 0 (S / K) then
    if Req_dec_T (sigma * sqrt T) 0 then false else true
  else false.

(** [BlackScholesModel.price]. *)
Definition bs_price (use_market_iv : bool) (opt : OptionContract)
  (date : Z) (md : MarketData) : option R :=
  S <- get_spot md date ;;
  let K := strike opt in
  r <- get_rate md date ;;
  q <- get_dividend_yield md date ;;
  let T := IZR (expiry opt - date) / 365 in
  if Rle_dec T 0 then Some (intrinsic_value opt S)
  else
    sigma <- bs_sigma use_market_iv md date K (expiry opt) S ;;
    if bs_inputs_regular S K sigma T then
      Some (Rmax (bs_formula (is_call opt) S K r q sigma T) 0)
    else None.

(** [BlackScholesModel.greeks]. *)
Definition bs_greeks (use_market_iv : bool) (opt : OptionContract)
  (date : Z) (md : MarketData) : option Greeks :=
  S <- get_spot md date ;;
  let K := strike opt in
  r <- get_rate md date ;;
  q <- get_dividend_yield md date ;;
  let T := IZR (expiry opt - date) / 365 in
  if Rle_dec T 0 then
    let delta := if Rlt_dec 0 (intrinsic_value opt S) then 1 else 0 in
    Some (mkGreeks delta 0 0 0 0)
  else
    sigma <- bs_sigma use_market_iv md date K (expiry opt) S ;;
    if bs_inputs_regular S K sigma T then
      let sqrt_T := sqrt T in
      let d1 := bs_d1 S K r q sigma T in
      let d2 := d1 - sigma * sqrt_T in
      let nd1 := norm_pdf d1 in
      let Nd1 := norm_cdf d1 in
      let Nd2 := norm_cdf d2 in
      let delta :=
        if is_call opt then exp (- q * T) * Nd1
        else - exp (- q * T) * norm_cdf (- d1) in
      let gamma := exp (- q * T) * nd1 / (S * sigma * sqrt_T) in
      let vega := S * exp (- q * T) * nd1 * sqrt_T / 100 in
      let theta :=
        if is_call opt then
          (- S * exp (- q * T) * nd1 * sigma / (2 * sqrt_T)
           - r * K * exp (- r * T) * Nd2
           + q * S * exp (- q * T) * Nd1) / 365
        else
          (- S * exp (- q * T) * nd1 * sigma / (2 * sqrt_T)
           + r * K * exp (- r * T) * norm_cdf (- d2)
           - q * S * exp (- q * T) * norm_cdf (- d1)) / 365 in
      let rho :=
        if is_call opt then K * T * exp (- r * T) * Nd2 / 100
        else - K * T * exp (- r * T) * norm_cdf (- d2) / 100 in
      Some (mkGreeks delta gamma vega theta rho)
    else None.

Definition BlackScholesModel (use_market_iv : bool) : PricingModel :=
  mkPricingModel (bs_price use_market_iv) (bs_greeks use_market_iv).

(** [SurfaceGreeksModel._bump_spot]: a deep copy of the market data; the
    spot read from the original is not used. *)
Definition _bump_spot (md : MarketData) (date : Z) (bump : R)
  : option MarketData :=
  current_spot <- get_spot md date ;;
  let bumped_data := md in
  Some bumped_data.

(** [SurfaceGreeksModel._bump_vol]. *)
Definition _bump_vol (md : MarketData) (date : Z) (opt : OptionContract)
  (bump : R) : option MarketData :=
  let bumped_data := md in
  Some bumped_data.

(** [SurfaceGreeksModel._bump_rate]. *)
Definition _bump_rate (md : MarketData) (date : Z) (bump : R)
  : option MarketData :=
  let bumped_data := md in
  Some bumped_data.

(** [SurfaceGreeksModel.price]. *)
Definition sg_price (base_model : PricingModel) (opt : OptionContract)
  (date : Z) (md : MarketData) : option R :=
  price base_model opt date md.

(** [SurfaceGreeksModel.greeks]. *)
Definition sg_greeks (base_model : PricingModel) (bump_size : R)
  (opt : OptionContract) (date : Z) (md : MarketData) : option Greeks :=
  S <- get_spot md date ;;
  P0 <- sg_price base_model opt date md ;;
  let bump_S := S * bump_size in
  market_data_up <- _bump_spot md date bump_S ;;
  market_data_down <- _bump_spot md date (- bump_S) ;;
  P_up <- price base_model opt date market_data_up ;;
  P_down <- price base_model opt date market_data_down ;;
  if Req_dec_T bump_S 0 then None
  else
    let delta := (P_up - P_down) / (2 * bump_S) in
    let gamma := (P_up - 2 * P0 + P_down) / (bump_S ^ 2) in
    let bump_vol := 1 / 100 in
    market_data_vol_up <- _bump_vol md date opt bump_vol ;;
    P_vol_up <- price base_model opt date market_data_vol_up ;;
    let vega := (P_vol_up - P0) / 1 in
    let date_next := (date + 1)%Z in
    let theta :=
      match price base_model opt date_next md with
      | Some P_next => P_next - P0
      | None => 0
      end in
    let bump_r := 1 / 100 in
    market_data_r_up <- _bump_rate md date bump_r ;;
    P_r_up <- price base_model opt date market_data_r_up ;;
    let rho := (P_r_up - P0) / 1 in
    Some (mkGreeks delta gamma vega theta rho).

Definition SurfaceGreeksModel (base_model : PricingModel) (bump_size : R)
  : PricingModel :=
  mkPricingModel (sg_price base_model) (sg_greeks base_model bump_size).

(** [OptionLeg.price]. *)
Definition leg_price (model : PricingModel) (leg : OptionLeg) (date : Z)
  (md : MarketData) : option R :=
  option_price <- price model (contract leg) date md ;;
  Some (option_price * quantity leg * contract_size (contract leg)).

(** [OptionLeg.greeks]. *)
Definition leg_greeks (model : PricingModel) (leg : OptionLeg) (date : Z)
  (md : MarketData) : option Greeks :=
  g <- greeks model (contract leg) date md ;;
  Some (mkGreeks (delta g * quantity leg * contract_size (contract leg))
                 (gamma g * quantity leg * contract_size (contract leg))
                 (vega g * quantity leg * contract_size (contract leg))
                 (theta g * quantity leg * contract_size (contract leg))
                 (rho g * quantity leg * contract_size (contract leg))).

(** [OptionStrategy.value]. *)
Definition strategy_value (model : PricingModel) (s : OptionStrategy)
  (date : Z) (md : MarketData) : option R :=
  foldM (fun acc leg => p <- leg_price model leg date md ;; Some (acc + p))
        (legs s) 0.

(** [OptionStrategy.greeks]. *)
Definition strategy_greeks (model : PricingModel) (s : OptionStrategy)
  (date : Z) (md : MarketData) : option Greeks :=
  match legs s with
  | [] => Some zero_greeks
  | _ =>
      foldM (fun aggregated leg =>
               leg_g <- leg_greeks model leg date md ;;
               Some (add_greeks aggregated leg_g))
            (legs s) zero_greeks
  end.

(** [Portfolio.value]. *)
Definition portfolio_value (model : PricingModel) (p : Portfolio) (date : Z)
  (md : MarketData) : option R :=
  strategies_value <-
    foldM (fun acc s => v <- strategy_value model s date md ;; Some (acc + v))
          (strategies p) 0 ;;
  Some (cash p + strategies_value).

(** [Portfolio.greeks]. *)
Definition portfolio_greeks (model : PricingModel) (p : Portfolio) (date : Z)
  (md : MarketData) : option Greeks :=
  foldM (fun aggregated s =>
           strategy_g <- strategy_greeks model s date md ;;
           Some (add_greeks aggregated strategy_g))
        (strategies p) zero_greeks.

End Models.

(** ** The backtest engine ([backtest.py]) *)

Module Backtest.
Import Data Instruments Models.

Record BacktestConfig : Type := mkBacktestConfig {
  start_date : Z;
  end_date : Z;
  initial_capital : R;
  transaction_cost_per_contract : R;
  transaction_cost_pct : R;
  slippage_bps : R;
  model : PricingModel
}.

(** The dictionary returned by [_calculate_pnl_attribution]. *)
Record Attribution : Type := mkAttribution {
  pnl_delta : R;
  pnl_gamma : R;
  pnl_vega : R;
  pnl_theta : R;
  pnl_rho : R;
  pnl_residual : R
}.

Definition zero_attribution : Attribution := mkAttribution 0 0 0 0 0 0.

(** One row of [daily_results]. *)
Record DailyResult : Type := mkDailyResult {
  r_date : Z;
  r_spot : R;
  r_portfolio_value : R;
  r_cash : R;
  r_daily_pnl : R;
  r_total_return : R;
  r_greeks : Greeks;
  r_attribution : Attribution;
  r_num_strategies : nat
}.

Record BacktestEngine : Type := mkBacktestEngine {
  market_data : MarketData;
  config : BacktestConfig;
  portfolio : Portfolio;
  daily_results : list DailyResult;
  current_date : option Z;
  prev_portfolio_value : R;
  prev_greeks : Greeks
}.

(** [BacktestEngine.__init__]. *)
Definition new_engine (md : MarketData) (cfg : BacktestConfig) : BacktestEngine :=
  mkBacktestEngine md cfg (new_portfolio (initial_capital cfg)) [] None
                   (initial_capital cfg) zero_greeks.

Definition with_portfolio (eng : BacktestEngine) (p : Portfolio)
  : BacktestEngine :=
  mkBacktestEngine (market_data eng) (config eng) p (daily_results eng)
                   (current_date eng) (prev_portfolio_value eng)
                   (prev_greeks eng).

Definition with_current_date (eng : BacktestEngine) (date : Z)
  : BacktestEngine :=
  mkBacktestEngine (market_data eng) (config eng) (portfolio eng)
                   (daily_results eng) (Some date) (prev_portfolio_value eng)
                   (prev_greeks eng).

(** [BacktestEngine.add_strategy]. *)
Definition engine_add_strategy (eng : BacktestEngine) (s : OptionStrategy)
  (entry_date : Z) : option BacktestEngine :=
  let p := add_strategy (portfolio eng) s in
  entry_cost <- strategy_value (model (config eng)) s entry_date
                               (market_data eng) ;;
  let num_contracts :=
    fold_left (fun acc leg => acc + Rabs (quantity leg)) (legs s) 0 in
  let txn_cost :=
    num_contracts * transaction_cost_per_contract (config eng)
    + Rabs entry_cost * transaction_cost_pct (config eng) in
  let total_cost := entry_cost + txn_cost in
  Some (with_portfolio eng
          (record_trade p entry_date ("Enter " ++ name s)%string
                        (- total_cost)
                        (Some (List.length (strategies p) - 1)%nat))).

(** [BacktestEngine._calculate_pnl_attribution]. *)
Definition _calculate_pnl_attribution (eng : BacktestEngine) (date : Z)
  (current_spot : R) (current_greeks : Greeks) : option Attribution :=
  today <- current_date eng ;;
  let prev_date := (today - 1)%Z in
  match get_spot (market_data eng) prev_date with
  | None => Some zero_attribution
  | Some prev_spot =>
      let dS := current_spot - prev_spot in
      let prev_delta := delta (prev_greeks eng) in
      let prev_gamma := gamma (prev_greeks eng) in
      let prev_theta := theta (prev_greeks eng) in
      let pnl_delta := prev_delta * dS in
      let pnl_gamma := 0.5 * prev_gamma * dS ^ 2 in
      let pnl_theta := prev_theta * 1 in
      let pnl_vega := 0 in
      let pnl_rho := 0 in
      let pnl_explained :=
        pnl_delta + pnl_gamma + pnl_theta + pnl_vega + pnl_rho in
      let actual_pnl :=
        match last_opt (daily_results eng) with
        | Some row => r_daily_pnl row
        | None => 0
        end in
      let pnl_residual := actual_pnl - pnl_explained in
      Some (mkAttribution pnl_delta pnl_gamma pnl_vega pnl_theta pnl_rho
                          pnl_residual)
  end.

(** The body of the inner loop of [_handle_expirations] for one leg of the
    strategy at index [i]. *)
Definition settle_leg (md : MarketData) (date : Z) (i : nat)
  (strategy : OptionStrategy) (acc : Portfolio * list nat) (leg : OptionLeg)
  : option (Portfolio * list nat) :=
  let (p, strategies_to_remove) := acc in
  if (expiry (contract leg) <=? date)%Z then
    spot <- get_spot md date ;;
    let final_payoff := leg_payoff leg spot in
    let p1 := set_cash p (cash p + final_payoff) in
    let strategies_to_remove' :=
      if existsb (Nat.eqb i) strategies_to_remove then strategies_to_remove
      else strategies_to_remove ++ [i] in
    Some (record_trade p1 date ("Expiration: " ++ name strategy)%string
                       final_payoff (Some i),
          strategies_to_remove')
  else Some acc.

(** The outer loop of [_handle_expirations]. *)
Definition settle_expired (md : MarketData) (date : Z) (p : Portfolio)
  : option (Portfolio * list nat) :=
  foldM (fun acc entry =>
           foldM (settle_leg md date (fst entry) (snd entry))
                 (legs (snd entry)) acc)
        (enumerate (strategies p)) (p, []).

(** [sorted(l, reverse=True)], by insertion. *)
Fixpoint insert_desc (k : nat) (l : list nat) : list nat :=
  match l with
  | [] => [k]
  | x :: rest => if (x <=? k)%nat then k :: l else x :: insert_desc k rest
  end.

Definition sorted_reverse (l : list nat) : list nat :=
  fold_right insert_desc [] l.

(** The removal loop of [_handle_expirations]. *)
Definition remove_marked (p : Portfolio) (strategies_to_remove : list nat)
  : Portfolio :=
  fold_left remove_strategy (sorted_reverse strategies_to_remove) p.

(** [BacktestEngine._handle_expirations]. *)
Definition _handle_expirations (eng : BacktestEngine) (date : Z)
  : option BacktestEngine :=
  settled <- settle_expired (market_data eng) date (portfolio eng) ;;
  Some (with_portfolio eng (remove_marked (fst settled) (snd settled))).

(** [BacktestEngine._process_day]. *)
Definition _process_day (eng : BacktestEngine) (date : Z)
  : option BacktestEngine :=
  let md := market_data eng in
  let cfg := config eng in
  spot <- get_spot md date ;;
  portfolio_value <- portfolio_value (model cfg) (portfolio eng) date md ;;
  portfolio_greeks <- portfolio_greeks (model cfg) (portfolio eng) date md ;;
  let daily_pnl := portfolio_value - prev_portfolio_value eng in
  if Req_dec_T (initial_capital cfg) 0 then None
  else
    let total_return :=
      (portfolio_value - initial_capital cfg) / initial_capital cfg in
    pnl_attribution <-
      (if Req_dec_T (prev_portfolio_value eng) (initial_capital cfg)
       then Some zero_attribution
       else _calculate_pnl_attribution eng date spot portfolio_greeks) ;;
    eng1 <- _handle_expirations eng date ;;
    let result :=
      mkDailyResult date spot portfolio_value (cash (portfolio eng1))
                    daily_pnl total_return portfolio_greeks pnl_attribution
                    (List.length (strategies (portfolio eng1))) in
    Some (mkBacktestEngine md cfg (portfolio eng1)
                           (daily_results eng1 ++ [result])
                           (current_date eng1) portfolio_value
                           portfolio_greeks).

(** The dates [run] iterates over. *)
Definition trading_dates (eng : BacktestEngine) : list Z :=
  filter (fun d => (start_date (config eng) <=? d)%Z
                   && (d <=? end_date (config eng))%Z)
         (time_index (market_data eng)).

(** The loop of [run]. *)
Definition run_days (eng : BacktestEngine) (dates : list Z)
  : option BacktestEngine :=
  foldM (fun e date => _process_day (with_current_date e date) date) dates eng.

(** [BacktestEngine.run]; the closing report reads the last row and raises
    when there is none. *)
Definition run (eng : BacktestEngine) : option BacktestEngine :=
  eng' <- run_days eng (trading_dates eng) ;;
  match daily_results eng' with
  | [] => None
  | _ => Some eng'
  end.

End Backtest.

(** * Properties *)

(** ** Deciding comparisons of reals *)

Lemma Rle_dec_true (A : Type) (a b : R) (x y : A) :
  a <= b -> (if Rle_dec a b then x else y) = x.
Proof. intros H. destruct (Rle_dec a b); [reflexivity | contradiction]. Qed.

Lemma Rle_dec_false (A : Type) (a b : R) (x y : A) :
  b < a -> (if Rle_dec a b then x else y) = y.
Proof. intros H. destruct (Rle_dec a b); [lra | reflexivity]. Qed.

Lemma Rlt_dec_true (A : Type) (a b : R) (x y : A) :
  a < b -> (if Rlt_dec a b then x else y) = x.
Proof. intros H. destruct (Rlt_dec a b); [reflexivity | contradiction]. Qed.

Lemma Rlt_dec_false (A : Type) (a b : R) (x y : A) :
  b <= a -> (if Rlt_dec a b then x else y) = y.
Proof. intros H. destruct (Rlt_dec a b); [lra | reflexivity]. Qed.

Lemma Req_dec_T_true (A : Type) (a b : R) (x y : A) :
  a = b -> (if Req_dec_T a b then x else y) = x.
Proof. intros H. destruct (Req_dec_T a b); [reflexivity | contradiction]. Qed.

Lemma Req_dec_T_false (A : Type) (a b : R) (x y : A) :
  a <> b -> (if Req_dec_T a b then x else y) = y.
Proof. intros H. destruct (Req_dec_T a b); [contradiction | reflexivity]. Qed.

Lemma Rmax_left (a b : R) : b <= a -> Rmax a b = a.
Proof. intros H. unfold Rmax. destruct (Rle_dec a b); lra. Qed.

Lemma Rmax_right (a b : R) : a <= b -> Rmax a b = b.
Proof. intros H. unfold Rmax. destruct (Rle_dec a b); lra. Qed.

(** Splits the comparisons inside [max] and [abs] and closes the goal by
    linear arithmetic. *)
Ltac numeric :=
  cbv beta iota zeta
      delta [Instruments.intrinsic_value Instruments.leg_payoff
             Instruments.payoff Instruments.is_call Models.add_greeks
             Models.zero_greeks Backtest.zero_attribution Rmax Rabs];
  cbn;
  repeat match goal with
         | |- context [Rle_dec ?a ?b] => destruct (Rle_dec a b)
         | |- context [Rcase_abs ?a] => destruct (Rcase_abs a)
         | |- context [Rlt_dec ?a ?b] => destruct (Rlt_dec a b)
         end;
  repeat f_equal; try reflexivity; try lra.

(** ** The volatility surface *)

Section VolSurfaceFacts.
Import Data.

(** The day count [iv] works with. *)
Definition days_until (s : VolSurface) (expiry : expiry_arg) : Z :=
  match expiry with
  | AtDate e => (e - surface_date s)%Z
  | InDays n => n
  end.

Lemma iv_expired (s : VolSurface) (K : R) (e : expiry_arg) (spot : R) :
  (days_until s e <= 0)%Z -> iv s K e spot = Some (Fin 0).
Proof.
  intros H. unfold iv. fold (days_until s e).
  destruct (Z.leb_spec (days_until s e) 0); [reflexivity | lia].
Qed.

Lemma clamp_within (x : R) : 1 / 100 <= Rmin (Rmax x (1 / 100)) 5 <= 5.
Proof.
  unfold Rmin, Rmax.
  destruct (Rle_dec x (1 / 100)); destruct (Rle_dec _ 5); lra.
Qed.

Lemma iv_primary_clamped (s : VolSurface) (K : R) (e : expiry_arg)
  (spot x : R) :
  (0 < days_until s e)%Z ->
  interpolator s K (days_until s e) = Returns (Fin x) ->
  iv s K e spot = Some (Fin (Rmin (Rmax x (1 / 100)) 5))
  /\ 1 / 100 <= Rmin (Rmax x (1 / 100)) 5 <= 5.
Proof.
  intros Hd Hi. split; [| apply clamp_within].
  unfold iv. fold (days_until s e).
  destruct (Z.leb_spec (days_until s e) 0); [lia |].
  rewrite Hi. reflexivity.
Qed.

Lemma iv_primary_nan (s : VolSurface) (K : R) (e : expiry_arg) (spot : R) :
  (0 < days_until s e)%Z ->
  interpolator s K (days_until s e) = Returns NaN ->
  iv s K e spot = Some NaN.
Proof.
  intros Hd Hi. unfold iv. fold (days_until s e).
  destruct (Z.leb_spec (days_until s e) 0); [lia |].
  rewrite Hi. reflexivity.
Qed.

Lemma idxmin_some (ds : list R) : ds <> [] -> exists i, idxmin ds = Some i.
Proof.
  destruct ds as [| d rest]; [congruence | intros _].
  simpl. destruct (idxmin rest) as [j |]; [| eauto].
  destruct (Rle_dec d (nth j rest 0)); eauto.
Qed.

(** [idxmin] returns the first position that holds the smallest entry. *)
Lemma idxmin_spec (ds : list R) (i : nat) :
  idxmin ds = Some i ->
  (i < List.length ds)%nat
  /\ (forall j, (j < List.length ds)%nat -> nth i ds 0 <= nth j ds 0)
  /\ (forall j, (j < i)%nat -> nth i ds 0 < nth j ds 0).
Proof.
  revert i. induction ds as [| d rest IH]; intros i H; [discriminate |].
  simpl in H. destruct (idxmin rest) as [j |] eqn:Hj.
  - destruct (IH j eq_refl) as (Hlen & Hmin & Hfirst).
    destruct (Rle_dec d (nth j rest 0)) as [Hle | Hgt]; inversion H; subst; clear H.
    + split; [simpl; lia |]. split.
      * intros [| k] Hk; simpl; [lra |].
        simpl in Hk. specialize (Hmin k ltac:(lia)). lra.
      * intros k Hk. lia.
    + split; [simpl; lia |]. split.
      * intros [| k] Hk; simpl; [lra |].
        simpl in Hk. apply Hmin. lia.
      * intros [| k] Hk; simpl; [lra |]. apply Hfirst. lia.
  - inversion H; subst; clear H.
    destruct rest as [| d' rest'].
    + split; [simpl; lia |]. split.
      * intros [| k] Hk; simpl in *; [lra | lia].
      * intros k Hk. lia.
    + exfalso. destruct (idxmin_some (d' :: rest') ltac:(congruence)) as [k Hk].
      congruence.
Qed.

Lemma iv_fallback_raw (s : VolSurface) (K : R) (e : expiry_arg) (spot : R) :
  (0 < days_until s e)%Z ->
  interpolator s K (days_until s e) = Raises ->
  vol_data s <> [] ->
  exists i row,
    idxmin (distances (vol_data s) K (days_until s e)) = Some i
    /\ nth_error (vol_data s) i = Some row
    /\ iv s K e spot = Some (Fin (row_implied_vol row)).
Proof.
  intros Hd Hi Hne.
  destruct (idxmin_some (distances (vol_data s) K (days_until s e))) as [i Hidx].
  { unfold distances. destruct (vol_data s); [congruence | discriminate]. }
  destruct (idxmin_spec _ _ Hidx) as (Hlen & _).
  unfold distances in Hlen. rewrite length_map in Hlen.
  destruct (nth_error (vol_data s) i) as [row |] eqn:Hrow.
  - exists i, row. repeat split; try assumption.
    unfold iv. fold (days_until s e).
    destruct (Z.leb_spec (days_until s e) 0); [lia |].
    rewrite Hi, Hidx. simpl. rewrite Hrow. reflexivity.
  - apply nth_error_None in Hrow. lia.
Qed.

End VolSurfaceFacts.

Section VolSurfaceExamples.
Import Data.

(** A piecewise-linear fit ([interpolation_method='linear']) of three samples
    of a flat 20% surface: the value inside the triangle spanned by the
    samples, the NaN fill value outside of it. *)
Definition flat_linear_interpolant (K : R) (d : Z) : outcome :=
  if ((30 <=? d) && (d <=? 60))%Z then
    if Rle_dec (90 + (IZR d - 30) / 3) K then
      if Rle_dec K (110 - (IZR d - 30) / 3) then Returns (Fin (20 / 100))
      else Returns NaN
    else Returns NaN
  else Returns NaN.

Definition flat_linear_surface : VolSurface :=
  mkVolSurface 0
    [mkVolRow 90 30 (20 / 100); mkVolRow 110 30 (20 / 100);
     mkVolRow 100 60 (20 / 100)]
    flat_linear_interpolant.

(** A surface whose interpolant raises on every query. *)
Definition raising_surface : VolSurface :=
  mkVolSurface 0 [mkVolRow 90 30 (1 / 1000); mkVolRow 110 30 (75 / 10)]
               (fun _ _ => Raises).

Example iv_fallback_below_clamp :
  iv raising_surface 90 (InDays 30) 100 = Some (Fin (1 / 1000)).
Proof.
  destruct (iv_fallback_raw raising_surface 90 (InDays 30) 100)
    as (i & row & Hidx & Hrow & Hiv); simpl; try lia; try congruence.
  rewrite Hiv. clear Hiv.
  destruct (idxmin_spec _ _ Hidx) as (Hlen & Hmin & _).
  simpl in Hlen.
  destruct i as [| [| i]]; simpl in Hrow.
  - inversion Hrow. reflexivity.
  - exfalso. specialize (Hmin 0%nat ltac:(simpl; lia)). simpl in Hmin.
    match type of Hmin with sqrt ?a <= sqrt ?b =>
      replace b with 0 in Hmin by ring;
      assert (Hpos : 0 < sqrt a) by (apply sqrt_lt_R0; lra)
    end.
    rewrite sqrt_0 in Hmin. lra.
  - simpl in Hlen. lia.
Qed.

Example iv_fallback_above_clamp :
  iv raising_surface 110 (InDays 30) 100 = Some (Fin (75 / 10)).
Proof.
  destruct (iv_fallback_raw raising_surface 110 (InDays 30) 100)
    as (i & row & Hidx & Hrow & Hiv); simpl; try lia; try congruence.
  rewrite Hiv. clear Hiv.
  destruct (idxmin_spec _ _ Hidx) as (Hlen & Hmin & _).
  simpl in Hlen.
  destruct i as [| [| i]]; simpl in Hrow.
  - exfalso. specialize (Hmin 1%nat ltac:(simpl; lia)). simpl in Hmin.
    match type of Hmin with sqrt ?a <= sqrt ?b =>
      replace b with 0 in Hmin by ring;
      assert (Hpos : 0 < sqrt a) by (apply sqrt_lt_R0; lra)
    end.
    rewrite sqrt_0 in Hmin. lra.
  - inversion Hrow. reflexivity.
  - simpl in Hlen. lia.
Qed.

(** C6, at a query outside the sampled strikes of a linear surface: the
    interpolant evaluates without error, the day count is positive, and [iv]
    returns the NaN fill value unclamped, a result that is not a number of
    the interval from 0.01 to 5.0. *)
Theorem iv_linear_outside_hull_is_nan :
  interpolator flat_linear_surface 150 30 = Returns NaN
  /\ iv flat_linear_surface 150 (InDays 30) 100 = Some NaN
  /\ forall y : R, iv flat_linear_surface 150 (InDays 30) 100 <> Some (Fin y).
Proof.
  assert (Hi : interpolator flat_linear_surface 150 30 = Returns NaN).
  { simpl. unfold flat_linear_interpolant. simpl.
    rewrite Rle_dec_true by lra. rewrite Rle_dec_false by lra. reflexivity. }
  assert (Hv : iv flat_linear_surface 150 (InDays 30) 100 = Some NaN).
  { apply iv_primary_nan; [simpl; lia | exact Hi]. }
  repeat split; try assumption.
  intros y. rewrite Hv. discriminate.
Qed.

End VolSurfaceExamples.

(** ** Market data lookups *)

Section MarketDataFacts.
Import Data.


Lemma In_insert_sorted (k : Z) (l : list Z) (x : Z) :
  In x (insert_sorted k l) <-> x = k \/ In x l.
Proof.
  induction l as [| y l IH]; simpl.
  - intuition.
  - destruct (k <=? y)%Z; simpl; rewrite ?IH; intuition.
Qed.

Lemma In_sorted (l : list Z) (x : Z) : In x (sorted l) <-> In x l.
Proof.
  induction l as [| y l IH]; simpl; [tauto |].
  rewrite In_insert_sorted, IH. intuition.
Qed.

Lemma insert_sorted_ascending (k : Z) (l : list Z) :
  StronglySorted Z.le l -> StronglySorted Z.le (insert_sorted k l).
Proof.
  induction 1 as [| y l Hs IH Hall]; simpl.
  - constructor; constructor.
  - destruct (Z.leb_spec k y).
    + constructor.
      * constructor; assumption.
      * constructor; [assumption |].
        eapply Forall_impl; [| exact Hall]. intros; simpl in *; lia.
    + constructor; [assumption |].
      apply Forall_forall. intros x Hx. apply In_insert_sorted in Hx.
      destruct Hx as [-> | Hx]; [lia |].
      rewrite Forall_forall in Hall. apply Hall. exact Hx.
Qed.

Lemma ascending_after (l1 l2 : list Z) (x : Z) :
  StronglySorted Z.le (l1 ++ x :: l2) -> Forall (Z.le x) l2.
Proof.
  induction l1 as [| y l1 IH]; simpl; intros H.
  - apply StronglySorted_inv in H. apply H.
  - apply StronglySorted_inv in H. apply IH, H.
Qed.

Lemma sorted_ascending (l : list Z) : StronglySorted Z.le (sorted l).
Proof.
  induction l as [| y l IH]; simpl; [constructor |].
  apply insert_sorted_ascending. exact IH.
Qed.

Lemma min_by_none (key : Z -> Z) (l : list Z) :
  min_by key l = None -> l = [].
Proof.
  destruct l as [| x rest]; [reflexivity |]. simpl.
  destruct (min_by key rest); [destruct (key x <=? key z)%Z |]; discriminate.
Qed.

(** [min_by] returns the first element whose key is smallest. *)
Lemma min_by_first (key : Z -> Z) (l : list Z) (m : Z) :
  min_by key l = Some m ->
  exists l1 l2,
    l = l1 ++ m :: l2
    /\ (forall x, In x l1 -> (key m < key x)%Z)
    /\ (forall x, In x l2 -> (key m <= key x)%Z).
Proof.
  revert m. induction l as [| x rest IH]; intros m H; [discriminate |].
  simpl in H. destruct (min_by key rest) as [y |] eqn:Hy.
  - destruct (IH y eq_refl) as (l1 & l2 & E & H1 & H2).
    destruct (Z.leb_spec (key x) (key y)); inversion H; subst m; clear H.
    + exists [], rest. split; [reflexivity |]. split; [intros ? [] |].
      intros z Hz. rewrite E in Hz. apply in_app_or in Hz.
      destruct Hz as [Hz | [<- | Hz]].
      * specialize (H1 z Hz). lia.
      * lia.
      * specialize (H2 z Hz). lia.
    + exists (x :: l1), l2. split; [rewrite E; reflexivity |]. split.
      * intros z [<- | Hz]; [lia | apply H1; exact Hz].
      * exact H2.
  - inversion H; subst m; clear H. apply min_by_none in Hy. subst rest.
    exists [], []. split; [reflexivity |]. split; intros ? [].
Qed.

Lemma min_by_some (key : Z -> Z) (l : list Z) :
  l <> [] -> exists m, min_by key l = Some m.
Proof.
  destruct l as [| x rest]; [congruence | intros _]. simpl.
  destruct (min_by key rest); [destruct (key x <=? key z)%Z |]; eauto.
Qed.

Lemma sorted_nonempty (l : list Z) : l <> [] -> sorted l <> [].
Proof.
  destruct l as [| x rest]; [congruence | intros _ E].
  assert (H : In x (sorted (x :: rest))) by (apply In_sorted; left; reflexivity).
  rewrite E in H. destruct H.
Qed.

(** The surface [get_implied_vol] evaluates is the one [surface_date_used]
    names. *)
Lemma get_implied_vol_uses (md : MarketData) (date : Z) (K : R) (e : Z)
  (S : R) :
  vol_surfaces md <> [] ->
  get_implied_vol md date K e S =
    (d <- surface_date_used md date ;;
     surface <- loc (vol_surfaces md) d ;;
     spot' <- (if Req_dec_T S 0 then get_spot md date else Some S) ;;
     iv surface K (AtDate e) spot').
Proof.
  intros Hne. unfold get_implied_vol, surface_date_used.
  destruct (has_date (vol_surfaces md) date); [reflexivity |].
  assert (Hs : sorted (index_of (vol_surfaces md)) <> []).
  { apply sorted_nonempty. unfold index_of.
    destruct (vol_surfaces md); [congruence | discriminate]. }
  destruct (sorted (index_of (vol_surfaces md))) as [| x rest] eqn:E;
    [congruence | reflexivity].
Qed.

(** C5, as the code has it: for a date without a surface of its own, the
    surface used is the one whose as-of date is closest to the query date in
    absolute day difference, the earliest such date on a tie; nothing keeps
    that date from lying after the query date. *)
Theorem nearest_surface_is_used (md : MarketData) (date : Z) (K : R) (e : Z)
  (S : R) :
  has_date (vol_surfaces md) date = false ->
  vol_surfaces md <> [] ->
  exists d,
    surface_date_used md date = Some d
    /\ In d (index_of (vol_surfaces md))
    /\ (forall d', In d' (index_of (vol_surfaces md)) ->
                   (Z.abs (d - date) <= Z.abs (d' - date))%Z)
    /\ (forall d', In d' (index_of (vol_surfaces md)) ->
                   Z.abs (d' - date) = Z.abs (d - date) -> (d <= d')%Z)
    /\ get_implied_vol md date K e S =
         (surface <- loc (vol_surfaces md) d ;;
          spot' <- (if Req_dec_T S 0 then get_spot md date else Some S) ;;
          iv surface K (AtDate e) spot').
Proof.
  intros Hnot Hne.
  assert (Hs : sorted (index_of (vol_surfaces md)) <> []).
  { apply sorted_nonempty. unfold index_of.
    destruct (vol_surfaces md); [congruence | discriminate]. }
  destruct (min_by_some (fun d => Z.abs (d - date)) _ Hs) as [d Hd].
  assert (Hused : surface_date_used md date = Some d).
  { unfold surface_date_used. rewrite Hnot. exact Hd. }
  destruct (min_by_first _ _ _ Hd) as (l1 & l2 & E & H1 & H2).
  exists d. split; [exact Hused |].
  assert (Hin : forall x, In x (index_of (vol_surfaces md)) <->
                          In x (l1 ++ d :: l2)).
  { intros x. rewrite <- E. symmetry. apply In_sorted. }
  split; [apply Hin, in_or_app; right; left; reflexivity |].
  split; [| split].
  - intros d' Hd'. apply Hin in Hd'. apply in_app_or in Hd'.
    destruct Hd' as [Hd' | [<- | Hd']].
    + specialize (H1 d' Hd'). simpl in H1. lia.
    + lia.
    + apply (H2 d' Hd').
  - intros d' Hd' Htie. apply Hin in Hd'. apply in_app_or in Hd'.
    destruct Hd' as [Hd' | [<- | Hd']].
    + specialize (H1 d' Hd'). simpl in H1. lia.
    + lia.
    + pose proof (sorted_ascending (index_of (vol_surfaces md))) as Hasc.
      rewrite E in Hasc. apply ascending_after in Hasc.
      rewrite Forall_forall in Hasc. apply Hasc. exact Hd'.
  - rewrite get_implied_vol_uses by exact Hne. rewrite Hused. reflexivity.
Qed.

(** Two flat surfaces, quoted 30% as of day 0 and 25% as of day 11. *)
Definition flat_surface (asof : Z) (vol : R) : VolSurface :=
  mkVolSurface asof
    [mkVolRow 90 30 vol; mkVolRow 110 30 vol; mkVolRow 100 60 vol]
    (fun _ _ => Returns (Fin vol)).

Definition two_surface_market : MarketData :=
  mkMarketData [(0%Z, 100); (10%Z, 100); (11%Z, 100)]
               [(0%Z, flat_surface 0 (30 / 100));
                (11%Z, flat_surface 11 (25 / 100))]
               [(0%Z, 5 / 100); (10%Z, 5 / 100); (11%Z, 5 / 100)]
               [(0%Z, 0); (10%Z, 0); (11%Z, 0)].

(** The nearest-surface rule at a market with surfaces as of days 0 and 11,
    queried on day 10. *)
Lemma nearest_surface_is_used_witness :
  (has_date (vol_surfaces two_surface_market) 10 = false
   /\ vol_surfaces two_surface_market <> [])
  /\ exists d,
    surface_date_used two_surface_market 10 = Some d
    /\ In d (index_of (vol_surfaces two_surface_market))
    /\ (forall d', In d' (index_of (vol_surfaces two_surface_market)) ->
                   (Z.abs (d - 10) <= Z.abs (d' - 10))%Z)
    /\ (forall d', In d' (index_of (vol_surfaces two_surface_market)) ->
                   Z.abs (d' - 10) = Z.abs (d - 10) -> (d <= d')%Z)
    /\ get_implied_vol two_surface_market 10 100 40 100 =
         (surface <- loc (vol_surfaces two_surface_market) d ;;
          spot' <- (if Req_dec_T 100 0
                    then get_spot two_surface_market 10 else Some 100) ;;
          iv surface 100 (AtDate 40) spot').
Proof.
  split; [split; [reflexivity | simpl; discriminate] |].
  apply (nearest_surface_is_used two_surface_market 10 100 40 100).
  - reflexivity.
  - simpl. discriminate.
Defined.

(** C5 fails as stated: day 10 has no surface, a surface as of day 0 exists,
    and the query is answered from the surface as of day 11. *)
Lemma future_surface_is_used :
  has_date (vol_surfaces two_surface_market) 10 = false
  /\ In 0%Z (index_of (vol_surfaces two_surface_market))
  /\ (0 < 10)%Z
  /\ surface_date_used two_surface_market 10 = Some 11%Z
  /\ ~ (11 <= 10)%Z
  /\ get_implied_vol two_surface_market 10 100 40 100 = Some (Fin (25 / 100)).
Proof.
  split; [reflexivity |]. split; [left; reflexivity |]. split; [lia |].
  split; [reflexivity |]. split; [lia |].
  unfold get_implied_vol. simpl.
  rewrite Req_dec_T_false by lra. simpl.
  unfold iv. simpl. unfold np_clip. f_equal. f_equal.
  rewrite Rmax_left by lra. unfold Rmin.
  destruct (Rle_dec (25 / 100) 5); lra.
Qed.

End MarketDataFacts.

(** ** The Black-Scholes model *)

Section BlackScholesFacts.
Import Data Instruments Models NormalDist.

(** The cdf grows no faster than the Gaussian density decays. *)
Lemma norm_cdf_ratio (x y : R) :
  x <= y -> norm_cdf x <= exp (y * y / 2 - x * x / 2) * norm_cdf y.
Proof.
  intros Hxy. pose proof (mills_increasing x y Hxy) as Hm.
  unfold mills in Hm. unfold norm_cdf.
  pose proof gauss_half_mass_pos as HL.
  pose proof (exp_pos (- (x * x / 2))) as Hex.
  apply (Rmult_le_compat_r (exp (- (x * x / 2)))) in Hm; [| lra].
  rewrite !Rmult_assoc, <- !exp_plus in Hm.
  replace (x * x / 2 + - (x * x / 2)) with 0 in Hm by lra.
  rewrite exp_0, Rmult_1_r in Hm.
  replace (y * y / 2 + - (x * x / 2)) with (y * y / 2 - x * x / 2) in Hm by lra.
  apply Rmult_le_reg_r with (2 * gauss_half_mass); [lra |].
  replace ((gauss_half_mass + gauss_int x) / (2 * gauss_half_mass)
           * (2 * gauss_half_mass))
    with (gauss_half_mass + gauss_int x) by (field; lra).
  replace (exp (y * y / 2 - x * x / 2)
           * ((gauss_half_mass + gauss_int y) / (2 * gauss_half_mass))
           * (2 * gauss_half_mass))
    with ((gauss_half_mass + gauss_int y) * exp (y * y / 2 - x * x / 2))
    by (field; lra).
  exact Hm.
Qed.

Lemma norm_cdf_reflect (x : R) : norm_cdf x + norm_cdf (- x) = 1.
Proof. rewrite norm_cdf_symmetry. ring. Qed.

(** [norm_cdf] is a distribution function centred at zero. *)
Lemma norm_cdf_zero : norm_cdf 0 = 1 / 2.
Proof.
  unfold norm_cdf. rewrite gauss_int_0.
  pose proof gauss_half_mass_pos. field. lra.
Qed.

Lemma norm_cdf_range (x : R) : 0 <= norm_cdf x <= 1.
Proof.
  pose proof gauss_half_mass_pos as HL.
  pose proof (gauss_int_le_half_mass x) as Hup.
  pose proof (gauss_int_le_half_mass (- x)) as Hlo.
  rewrite gauss_int_odd in Hlo. unfold norm_cdf. split.
  - apply Rmult_le_pos; [lra |]. left. apply Rinv_0_lt_compat. lra.
  - apply Rmult_le_reg_r with (2 * gauss_half_mass); [lra |].
    replace ((gauss_half_mass + gauss_int x) / (2 * gauss_half_mass)
             * (2 * gauss_half_mass))
      with (gauss_half_mass + gauss_int x) by (field; lra).
    lra.
Qed.

Lemma norm_cdf_increasing (x y : R) : x <= y -> norm_cdf x <= norm_cdf y.
Proof.
  intros Hxy. pose proof gauss_half_mass_pos as HL.
  pose proof (gauss_int_increasing x y Hxy) as Hinc. unfold norm_cdf.
  apply Rmult_le_compat_r; [| lra].
  left. apply Rinv_0_lt_compat. lra.
Qed.

Section Formula.
Variables S K r q sigma T : R.
Hypothesis S_pos : 0 < S.
Hypothesis K_pos : 0 < K.
Hypothesis sigma_pos : 0 < sigma.
Hypothesis T_pos : 0 < T.

Let d1 := bs_d1 S K r q sigma T.
Let d2 := bs_d2 S K r q sigma T.

Lemma bs_vol_pos : 0 < sigma * sqrt T.
Proof. apply Rmult_lt_0_compat; [exact sigma_pos | apply sqrt_lt_R0, T_pos]. Qed.

Lemma bs_d2_le_d1 : d2 <= d1.
Proof. unfold d1, d2, bs_d2. pose proof bs_vol_pos. clear d1 d2. lra. Qed.

(** [d1^2/2 - d2^2/2] is the log of the forward moneyness. *)
Lemma bs_d_squares : d1 * d1 / 2 - d2 * d2 / 2 = ln (S / K) + (r - q) * T.
Proof.
  pose proof bs_vol_pos as Hv.
  assert (Hsq : sqrt T * sqrt T = T) by (apply sqrt_sqrt; lra).
  assert (Hd1 : d1 * (sigma * sqrt T) =
                ln (S / K) + (r - q + 0.5 * sigma ^ 2) * T).
  { assert (0 < sqrt T) by (apply sqrt_lt_R0, T_pos).
    unfold d1, bs_d1. field. lra. }
  unfold d2, bs_d2. fold d1.
  replace (d1 * d1 / 2 - (d1 - sigma * sqrt T) * (d1 - sigma * sqrt T) / 2)
    with (d1 * (sigma * sqrt T) - sigma * sigma * (sqrt T * sqrt T) / 2) by field.
  rewrite Hd1, Hsq. replace 0.5 with (/ 2) by lra. field.
Qed.

Lemma bs_forward_identity :
  S * exp (- q * T) = K * exp (- r * T) * exp (d1 * d1 / 2 - d2 * d2 / 2).
Proof.
  rewrite bs_d_squares, exp_plus, exp_ln by (apply Rdiv_lt_0_compat; lra).
  replace (K * exp (- r * T) * (S / K * exp ((r - q) * T)))
    with (S * (exp (- r * T) * exp ((r - q) * T))) by (field; lra).
  rewrite <- exp_plus. f_equal. f_equal. ring.
Qed.

Lemma bs_call_nonneg : 0 <= bs_formula true S K r q sigma T.
Proof.
  unfold bs_formula. fold d1 d2. rewrite bs_forward_identity.
  pose proof (norm_cdf_ratio d2 d1 bs_d2_le_d1) as Hr.
  pose proof (exp_pos (- r * T)) as He.
  assert (HA : 0 < K * exp (- r * T)) by (apply Rmult_lt_0_compat; lra).
  replace (K * exp (- r * T) * exp (d1 * d1 / 2 - d2 * d2 / 2) * norm_cdf d1
           - K * exp (- r * T) * norm_cdf d2)
    with (K * exp (- r * T)
          * (exp (d1 * d1 / 2 - d2 * d2 / 2) * norm_cdf d1 - norm_cdf d2)) by ring.
  apply Rmult_le_pos; lra.
Qed.

Lemma bs_put_nonneg : 0 <= bs_formula false S K r q sigma T.
Proof.
  unfold bs_formula. fold d1 d2. rewrite bs_forward_identity.
  assert (Hle : - d1 <= - d2) by (pose proof bs_d2_le_d1; lra).
  pose proof (norm_cdf_ratio (- d1) (- d2) Hle) as Hr.
  replace (- d2 * - d2 / 2 - - d1 * - d1 / 2)
    with (- (d1 * d1 / 2 - d2 * d2 / 2)) in Hr by field.
  pose proof (exp_pos (d1 * d1 / 2 - d2 * d2 / 2)) as HE.
  apply (Rmult_le_compat_l (exp (d1 * d1 / 2 - d2 * d2 / 2))) in Hr; [| lra].
  rewrite <- Rmult_assoc, <- exp_plus, Rplus_opp_r, exp_0, Rmult_1_l in Hr.
  pose proof (exp_pos (- r * T)) as He.
  assert (HA : 0 < K * exp (- r * T)) by (apply Rmult_lt_0_compat; lra).
  replace (K * exp (- r * T) * norm_cdf (- d2)
           - K * exp (- r * T) * exp (d1 * d1 / 2 - d2 * d2 / 2) * norm_cdf (- d1))
    with (K * exp (- r * T)
          * (norm_cdf (- d2)
             - exp (d1 * d1 / 2 - d2 * d2 / 2) * norm_cdf (- d1))) by ring.
  apply Rmult_le_pos; lra.
Qed.

Lemma bs_formula_parity :
  bs_formula true S K r q sigma T - bs_formula false S K r q sigma T
  = S * exp (- q * T) - K * exp (- r * T).
Proof.
  unfold bs_formula. fold d1 d2.
  pose proof (norm_cdf_reflect d1) as H1.
  pose proof (norm_cdf_reflect d2) as H2.
  replace (norm_cdf (- d1)) with (1 - norm_cdf d1) by lra.
  replace (norm_cdf (- d2)) with (1 - norm_cdf d2) by lra.
  ring.
Qed.

Lemma bs_inputs_regular_true : bs_inputs_regular S K sigma T = true.
Proof.
  unfold bs_inputs_regular.
  rewrite Rlt_dec_true by (apply Rdiv_lt_0_compat; lra).
  rewrite Req_dec_T_false; [reflexivity |].
  pose proof bs_vol_pos. lra.
Qed.

End Formula.

Lemma year_fraction_sign (expiry date : Z) :
  IZR (expiry - date) / 365 <= 0 <-> (expiry <= date)%Z.
Proof.
  split; intros H.
  - assert (H0 : IZR (expiry - date) <= 0) by lra.
    apply le_IZR in H0. lia.
  - assert (H0 : IZR (expiry - date) <= 0) by (apply IZR_le; lia). lra.
Qed.

Lemma bs_price_at_expiry (b : bool) (c : OptionContract) (date : Z)
  (md : MarketData) (S r q : R) :
  get_spot md date = Some S ->
  get_rate md date = Some r ->
  get_dividend_yield md date = Some q ->
  (expiry c <= date)%Z ->
  bs_price b c date md = Some (intrinsic_value c S).
Proof.
  intros HS Hr Hq He. unfold bs_price. rewrite HS, Hr, Hq. simpl.
  rewrite Rle_dec_true by (apply year_fraction_sign; exact He). reflexivity.
Qed.

Lemma bs_greeks_at_expiry (b : bool) (c : OptionContract) (date : Z)
  (md : MarketData) (S r q : R) :
  get_spot md date = Some S ->
  get_rate md date = Some r ->
  get_dividend_yield md date = Some q ->
  (expiry c <= date)%Z ->
  bs_greeks b c date md =
    Some (mkGreeks (if Rlt_dec 0 (intrinsic_value c S) then 1 else 0) 0 0 0 0).
Proof.
  intros HS Hr Hq He. unfold bs_greeks. rewrite HS, Hr, Hq. simpl.
  rewrite Rle_dec_true by (apply year_fraction_sign; exact He). reflexivity.
Qed.

Lemma bs_price_before_expiry (b : bool) (c : OptionContract) (date : Z)
  (md : MarketData) (S r q sigma : R) :
  get_spot md date = Some S ->
  get_rate md date = Some r ->
  get_dividend_yield md date = Some q ->
  bs_sigma b md date (strike c) (expiry c) S = Some sigma ->
  0 < S -> 0 < strike c -> 0 < sigma -> (date < expiry c)%Z ->
  bs_price b c date md =
    Some (Rmax (bs_formula (is_call c) S (strike c) r q sigma
                           (IZR (expiry c - date) / 365)) 0).
Proof.
  intros HS Hr Hq Hsig HSpos HKpos Hspos He.
  assert (HT : 0 < IZR (expiry c - date) / 365).
  { assert (0 < IZR (expiry c - date)) by (apply IZR_lt; lia). lra. }
  unfold bs_price. rewrite HS, Hr, Hq. simpl.
  rewrite Rle_dec_false by exact HT. rewrite Hsig. simpl.
  rewrite bs_inputs_regular_true by assumption. reflexivity.
Qed.

(** C9: with the same spot, rate, dividend yield and volatility lookups, a
    positive spot, strike and volatility and a valuation date before expiry,
    both prices are produced and the call price minus the put price is
    S e^(-qT) - K e^(-rT). *)
Theorem bs_put_call_parity (b : bool) (call put : OptionContract) (date : Z)
  (md : MarketData) (S r q sigma : R) :
  option_type call = Call ->
  option_type put = Put ->
  strike put = strike call ->
  expiry put = expiry call ->
  get_spot md date = Some S ->
  get_rate md date = Some r ->
  get_dividend_yield md date = Some q ->
  bs_sigma b md date (strike call) (expiry call) S = Some sigma ->
  0 < S -> 0 < strike call -> 0 < sigma -> (date < expiry call)%Z ->
  exists C P,
    bs_price b call date md = Some C
    /\ bs_price b put date md = Some P
    /\ C - P = S * exp (- q * (IZR (expiry call - date) / 365))
               - strike call * exp (- r * (IZR (expiry call - date) / 365)).
Proof.
  intros Hc Hp HK He HS Hr Hq Hsig HSpos HKpos Hspos Hd.
  set (T := IZR (expiry call - date) / 365).
  assert (HT : 0 < T).
  { unfold T. assert (0 < IZR (expiry call - date)) by (apply IZR_lt; lia). lra. }
  exists (Rmax (bs_formula true S (strike call) r q sigma T) 0),
         (Rmax (bs_formula false S (strike call) r q sigma T) 0).
  split; [| split].
  - rewrite (bs_price_before_expiry b call date md S r q sigma) by assumption.
    unfold is_call. rewrite Hc. reflexivity.
  - rewrite (bs_price_before_expiry b put date md S r q sigma);
      rewrite ?HK, ?He; try assumption.
    unfold is_call. rewrite Hp. reflexivity.
  - rewrite !Rmax_left.
    + rewrite bs_formula_parity by assumption.
      replace (- q * T) with (- (q * T)) by ring.
      replace (- r * T) with (- (r * T)) by ring.
      replace (- q * T) with (- (q * T)) by ring. reflexivity.
    + apply bs_put_nonneg; assumption.
    + apply bs_call_nonneg; assumption.
Qed.

End BlackScholesFacts.

(** ** Expiration handling *)

Section ExpirationFacts.
Import Data Instruments Models Backtest.

(** The test [leg.contract.expiry <= date]. *)
Definition leg_expired (date : Z) (leg : OptionLeg) : bool :=
  (expiry (contract leg) <=? date)%Z.

Definition has_expired_leg (date : Z) (s : OptionStrategy) : bool :=
  existsb (leg_expired date) (legs s).

(** What a trade record says about the settlement it logs. *)
Definition trade_key (t : Trade) : option nat * R :=
  (strategy_index t, cash_flow t).

(** The settlements of the strategy at index [i]: one per expired leg. *)
Definition leg_settlements (spot : R) (date : Z) (i : nat)
  (s : OptionStrategy) : list (option nat * R) :=
  map (fun leg => (Some i, leg_payoff leg spot))
      (filter (leg_expired date) (legs s)).

Fixpoint settlements_from (k : nat) (spot : R) (date : Z)
  (l : list OptionStrategy) : list (option nat * R) :=
  match l with
  | [] => []
  | s :: rest =>
      leg_settlements spot date k s ++ settlements_from (S k) spot date rest
  end.

Definition sum_flows (l : list (option nat * R)) : R :=
  fold_right (fun kf acc => snd kf + acc) 0 l.

(** Positions, counted from [k], of the strategies with an expired leg. *)
Fixpoint expired_indices_from (k : nat) (date : Z) (l : list OptionStrategy)
  : list nat :=
  match l with
  | [] => []
  | s :: rest =>
      (if has_expired_leg date s then [k] else [])
      ++ expired_indices_from (S k) date rest
  end.

Lemma sum_flows_app (a b : list (option nat * R)) :
  sum_flows (a ++ b) = sum_flows a + sum_flows b.
Proof.
  induction a as [| x a IH]; simpl; [ring |]. rewrite IH. ring.
Qed.

Lemma existsb_eqb_In (i : nat) (l : list nat) :
  existsb (Nat.eqb i) l = true <-> In i l.
Proof.
  rewrite existsb_exists. split.
  - intros (x & Hx & E). apply Nat.eqb_eq in E. subst. exact Hx.
  - intros H. exists i. split; [exact H | apply Nat.eqb_refl].
Qed.

Lemma settle_leg_expired (md : MarketData) (date : Z) (spot : R) (i : nat)
  (s : OptionStrategy) (p : Portfolio) (marked : list nat) (leg : OptionLeg) :
  get_spot md date = Some spot ->
  leg_expired date leg = true ->
  settle_leg md date i s (p, marked) leg
  = Some (record_trade (set_cash p (cash p + leg_payoff leg spot)) date
                       ("Expiration: " ++ name s)%string
                       (leg_payoff leg spot) (Some i),
          if existsb (Nat.eqb i) marked then marked else marked ++ [i]).
Proof.
  intros Hspot Hexp. unfold settle_leg. fold (leg_expired date leg).
  rewrite Hexp, Hspot. reflexivity.
Qed.

Lemma settle_leg_live (md : MarketData) (date : Z) (i : nat)
  (s : OptionStrategy) (acc : Portfolio * list nat) (leg : OptionLeg) :
  leg_expired date leg = false ->
  settle_leg md date i s acc leg = Some acc.
Proof.
  intros Hexp. unfold settle_leg. destruct acc as [p marked].
  fold (leg_expired date leg). rewrite Hexp. reflexivity.
Qed.

(** The inner loop, over the legs of the strategy at index [i]. *)
Lemma settle_legs_spec (md : MarketData) (date : Z) (spot : R) (i : nat)
  (s : OptionStrategy) :
  get_spot md date = Some spot ->
  forall (ls : list OptionLeg) (p : Portfolio) (marked : list nat),
  exists p',
    foldM (settle_leg md date i s) ls (p, marked)
    = Some (p', if existsb (leg_expired date) ls
                then (if existsb (Nat.eqb i) marked then marked
                      else marked ++ [i])
                else marked)
    /\ strategies p' = strategies p
    /\ initial_cash p' = initial_cash p
    /\ map trade_key (trade_history p')
       = map trade_key (trade_history p)
         ++ map (fun leg => (Some i, leg_payoff leg spot))
                (filter (leg_expired date) ls)
    /\ cash p' = cash p
                 + 2 * sum_flows (map (fun leg => (Some i, leg_payoff leg spot))
                                      (filter (leg_expired date) ls)).
Proof.
  intros Hspot ls. induction ls as [| leg ls IH]; intros p marked.
  - exists p. simpl. rewrite app_nil_r. repeat split; try reflexivity. ring.
  - cbn [foldM existsb filter].
    destruct (leg_expired date leg) eqn:Hexp.
    + rewrite (settle_leg_expired md date spot) by assumption. cbn [bind].
      set (p1 := record_trade (set_cash p (cash p + leg_payoff leg spot)) date
                   ("Expiration: " ++ name s)%string (leg_payoff leg spot)
                   (Some i)).
      set (marked1 := if existsb (Nat.eqb i) marked then marked
                      else marked ++ [i]).
      destruct (IH p1 marked1) as (p' & Hrun & Hs & Hi & Ht & Hc).
      assert (Hin : existsb (Nat.eqb i) marked1 = true).
      { unfold marked1. destruct (existsb (Nat.eqb i) marked) eqn:E; [exact E |].
        apply existsb_eqb_In, in_or_app. right. left. reflexivity. }
      exists p'. split; [| split; [| split; [| split]]].
      * rewrite Hrun, Hin. cbn [orb].
        destruct (existsb (leg_expired date) ls); reflexivity.
      * rewrite Hs. reflexivity.
      * rewrite Hi. reflexivity.
      * rewrite Ht. unfold p1. simpl. rewrite map_app. simpl.
        rewrite <- app_assoc. reflexivity.
      * rewrite Hc. unfold p1. simpl. ring.
    + rewrite settle_leg_live by assumption. cbn [bind orb].
      destruct (IH p marked) as (p' & Hrun & Hs & Hi & Ht & Hc).
      exists p'. repeat split; assumption.
Qed.

(** The outer loop, over the strategies from index [k] on. *)
Lemma settle_strategies_spec (md : MarketData) (date : Z) (spot : R) :
  get_spot md date = Some spot ->
  forall (l : list OptionStrategy) (k : nat) (p : Portfolio)
         (marked : list nat),
  Forall (fun j => (j < k)%nat) marked ->
  exists p',
    foldM (fun acc entry =>
             foldM (settle_leg md date (fst entry) (snd entry))
                   (legs (snd entry)) acc)
          (enumerate_from k l) (p, marked)
    = Some (p', marked ++ expired_indices_from k date l)
    /\ strategies p' = strategies p
    /\ initial_cash p' = initial_cash p
    /\ map trade_key (trade_history p')
       = map trade_key (trade_history p) ++ settlements_from k spot date l
    /\ cash p' = cash p + 2 * sum_flows (settlements_from k spot date l).
Proof.
  intros Hspot l. induction l as [| s l IH]; intros k p marked Hlt.
  - exists p. simpl. rewrite !app_nil_r. repeat split; try reflexivity. ring.
  - simpl enumerate_from. simpl foldM.
    destruct (settle_legs_spec md date spot k s Hspot (legs s) p marked)
      as (p1 & Hrun1 & Hs1 & Hi1 & Ht1 & Hc1).
    simpl fst. simpl snd. rewrite Hrun1. simpl bind.
    assert (Hfresh : existsb (Nat.eqb k) marked = false).
    { destruct (existsb (Nat.eqb k) marked) eqn:E; [| reflexivity].
      apply existsb_eqb_In in E. rewrite Forall_forall in Hlt.
      specialize (Hlt k E). lia. }
    rewrite Hfresh. fold (has_expired_leg date s).
    set (marked1 := if has_expired_leg date s then marked ++ [k] else marked).
    assert (Hlt1 : Forall (fun j => (j < S k)%nat) marked1).
    { unfold marked1. destruct (has_expired_leg date s).
      - apply Forall_app. split.
        + eapply Forall_impl; [| exact Hlt]. intros; simpl in *; lia.
        + constructor; [lia | constructor].
      - eapply Forall_impl; [| exact Hlt]. intros; simpl in *; lia. }
    destruct (IH (S k) p1 marked1 Hlt1) as (p' & Hrun & Hs & Hi & Ht & Hc).
    exists p'. split; [| split; [| split; [| split]]].
    + rewrite Hrun. f_equal. f_equal. unfold marked1. simpl.
      destruct (has_expired_leg date s); simpl; [| reflexivity].
      rewrite <- app_assoc. reflexivity.
    + rewrite Hs, Hs1. reflexivity.
    + rewrite Hi, Hi1. reflexivity.
    + rewrite Ht, Ht1. simpl. unfold leg_settlements.
      rewrite <- app_assoc. reflexivity.
    + rewrite Hc, Hc1. simpl. unfold leg_settlements.
      rewrite sum_flows_app. ring.
Qed.

Lemma settle_expired_spec (md : MarketData) (date : Z) (spot : R)
  (p : Portfolio) :
  get_spot md date = Some spot ->
  exists p',
    settle_expired md date p
    = Some (p', expired_indices_from 0 date (strategies p))
    /\ strategies p' = strategies p
    /\ initial_cash p' = initial_cash p
    /\ map trade_key (trade_history p')
       = map trade_key (trade_history p)
         ++ settlements_from 0 spot date (strategies p)
    /\ cash p' = cash p
                 + 2 * sum_flows (settlements_from 0 spot date (strategies p)).
Proof.
  intros Hspot.
  destruct (settle_strategies_spec md date spot Hspot (strategies p) 0%nat p []
              (Forall_nil _)) as (p' & Hrun & H).
  exists p'. split; [exact Hrun | exact H].
Qed.

(** When no leg has expired, the loop finishes without reading the spot. *)
Lemma settle_legs_none (md : MarketData) (date : Z) (i : nat)
  (s : OptionStrategy) (ls : list OptionLeg) (acc : Portfolio * list nat) :
  existsb (leg_expired date) ls = false ->
  foldM (settle_leg md date i s) ls acc = Some acc.
Proof.
  induction ls as [| leg ls IH]; intros H; [reflexivity |].
  simpl in H. apply orb_false_iff in H. destruct H as [H1 H2].
  cbn [foldM]. rewrite settle_leg_live by assumption. cbn [bind].
  apply IH. exact H2.
Qed.

(** *** Removal by descending index *)

(** [remove_strategy] on the list of strategies. *)
Definition remove_at {A : Type} (l : list A) (i : nat) : list A :=
  if (i <? List.length l)%nat then pop l i else l.

Lemma remove_at_app (A : Type) (l t : list A) (i : nat) :
  (i < List.length l)%nat -> remove_at (l ++ t) i = remove_at l i ++ t.
Proof.
  intros H. unfold remove_at, pop.
  rewrite length_app.
  destruct (Nat.ltb_spec i (List.length l + List.length t)); [| lia].
  destruct (Nat.ltb_spec i (List.length l)); [| lia].
  rewrite firstn_app, skipn_app.
  replace (i - List.length l)%nat with 0%nat by lia.
  replace (S i - List.length l)%nat with 0%nat by lia.
  simpl. rewrite app_nil_r, <- app_assoc. reflexivity.
Qed.

Lemma remove_at_last (A : Type) (l : list A) (x : A) :
  remove_at (l ++ [x]) (List.length l) = l.
Proof.
  unfold remove_at, pop. rewrite length_app.
  change (List.length [x]) with 1%nat.
  destruct (Nat.ltb_spec (List.length l) (List.length l + 1)); [| lia].
  rewrite firstn_app, skipn_app, firstn_all, Nat.sub_diag.
  rewrite skipn_all2 by lia.
  replace (S (List.length l) - List.length l)%nat with 1%nat by lia.
  simpl. rewrite !app_nil_r. reflexivity.
Qed.

Lemma remove_at_length (A : Type) (l : list A) (i : nat) :
  (i < List.length l)%nat ->
  List.length (remove_at l i) = (List.length l - 1)%nat.
Proof.
  intros H. unfold remove_at, pop.
  destruct (Nat.ltb_spec i (List.length l)); [| lia].
  rewrite length_app, length_firstn, length_skipn. lia.
Qed.

Lemma fold_remove_at_app (A : Type) (idxs : list nat) :
  forall (l t : list A),
  StronglySorted gt idxs ->
  Forall (fun i => (i < List.length l)%nat) idxs ->
  fold_left remove_at idxs (l ++ t) = fold_left remove_at idxs l ++ t.
Proof.
  induction idxs as [| i idxs IH]; intros l t Hs Hlt; [reflexivity |].
  simpl. apply StronglySorted_inv in Hs. destruct Hs as [Hs Hall].
  inversion Hlt as [| ? ? Hi Hrest]; subst.
  rewrite remove_at_app by exact Hi.
  apply IH; [exact Hs |].
  rewrite Forall_forall in *. intros j Hj.
  rewrite remove_at_length by exact Hi.
  specialize (Hall j Hj). lia.
Qed.

Lemma In_insert_desc (k : nat) (l : list nat) (x : nat) :
  In x (insert_desc k l) <-> x = k \/ In x l.
Proof.
  induction l as [| y l IH]; simpl.
  - intuition.
  - destruct (y <=? k)%nat; simpl; rewrite ?IH; intuition.
Qed.

Lemma In_sorted_reverse (l : list nat) (x : nat) :
  In x (sorted_reverse l) <-> In x l.
Proof.
  induction l as [| y l IH]; simpl; [tauto |].
  rewrite In_insert_desc, IH. intuition.
Qed.

Lemma sorted_reverse_snoc (l : list nat) (n : nat) :
  Forall (fun i => (i < n)%nat) l ->
  sorted_reverse (l ++ [n]) = n :: sorted_reverse l.
Proof.
  induction l as [| x l IH]; intros H; [reflexivity |].
  inversion H; subst. simpl. rewrite IH by assumption. simpl.
  destruct (Nat.leb_spec n x); [lia | reflexivity].
Qed.

Lemma expired_indices_app (k : nat) (date : Z) (l1 l2 : list OptionStrategy) :
  expired_indices_from k date (l1 ++ l2)
  = expired_indices_from k date l1
    ++ expired_indices_from (k + List.length l1) date l2.
Proof.
  revert k. induction l1 as [| s l1 IH]; intros k; simpl.
  - rewrite Nat.add_0_r. reflexivity.
  - rewrite IH, <- app_assoc.
    replace (k + S (List.length l1))%nat with (S k + List.length l1)%nat by lia.
    reflexivity.
Qed.

Lemma expired_indices_range (k : nat) (date : Z) (l : list OptionStrategy) :
  Forall (fun i => (k <= i < k + List.length l)%nat)
         (expired_indices_from k date l).
Proof.
  revert k. induction l as [| s l IH]; intros k; simpl; [constructor |].
  apply Forall_app. split.
  - destruct (has_expired_leg date s); constructor; [lia | constructor].
  - eapply Forall_impl; [| apply IH]. intros; simpl in *; lia.
Qed.

(** An index is marked exactly when the strategy it names has an expired
    leg. *)
Lemma expired_indices_spec (date : Z) (l : list OptionStrategy) (k i : nat) :
  In i (expired_indices_from k date l) <->
  exists s, (k <= i)%nat /\ nth_error l (i - k) = Some s
            /\ has_expired_leg date s = true.
Proof.
  revert k. induction l as [| s l IH]; intros k; simpl.
  - split; [intros [] | intros (s & _ & H & _)].
    destruct (i - k)%nat; discriminate.
  - rewrite in_app_iff, IH. split.
    + intros [H | (s' & Hk & Hn & He)].
      * destruct (has_expired_leg date s) eqn:E; [| destruct H].
        destruct H as [<- | []]. exists s. rewrite Nat.sub_diag. auto.
      * exists s'. split; [lia |]. split; [| exact He].
        replace (i - k)%nat with (S (i - S k)) by lia. exact Hn.
    + intros (s' & Hk & Hn & He).
      destruct (Nat.eq_dec i k) as [-> | Hne].
      * rewrite Nat.sub_diag in Hn. simpl in Hn. inversion Hn; subst.
        left. rewrite He. left. reflexivity.
      * right. exists s'. split; [lia |]. split; [| exact He].
        replace (i - k)%nat with (S (i - S k)) in Hn by lia. exact Hn.
Qed.

(** The removal loop visits the marked indices in strictly descending order
    and leaves exactly the strategies without an expired leg. *)
Lemma remove_expired_indices (date : Z) (l : list OptionStrategy) :
  let marked := expired_indices_from 0 date l in
  StronglySorted gt (sorted_reverse marked)
  /\ Forall (fun i => (i < List.length l)%nat) (sorted_reverse marked)
  /\ fold_left remove_at (sorted_reverse marked) l
     = filter (fun s => negb (has_expired_leg date s)) l.
Proof.
  induction l as [| s l IH] using rev_ind; simpl.
  - repeat split; constructor.
  - destruct IH as (Hsorted & Hlt & Hfold).
    rewrite expired_indices_app. simpl. rewrite app_nil_r.
    rewrite filter_app. simpl.
    assert (Hrange : Forall (fun i => (i < List.length l)%nat)
                            (expired_indices_from 0 date l)).
    { eapply Forall_impl; [| apply expired_indices_range].
      intros; simpl in *; lia. }
    destruct (has_expired_leg date s) eqn:E; simpl.
    + rewrite sorted_reverse_snoc by exact Hrange.
      split; [| split].
      * constructor; [exact Hsorted |].
        eapply Forall_impl; [| exact Hlt]. intros; simpl in *; lia.
      * constructor; [rewrite length_app; simpl; lia |].
        eapply Forall_impl; [| exact Hlt].
        intros; simpl in *. rewrite length_app. lia.
      * simpl. rewrite remove_at_last, Hfold, app_nil_r. reflexivity.
    + rewrite app_nil_r. split; [exact Hsorted | split].
      * eapply Forall_impl; [| exact Hlt].
        intros; simpl in *. rewrite length_app. lia.
      * rewrite fold_remove_at_app by assumption. rewrite Hfold. reflexivity.
Qed.

Lemma remove_strategy_fields (p : Portfolio) (i : nat) :
  strategies (remove_strategy p i) = remove_at (strategies p) i
  /\ cash (remove_strategy p i) = cash p
  /\ initial_cash (remove_strategy p i) = initial_cash p
  /\ trade_history (remove_strategy p i) = trade_history p.
Proof.
  unfold remove_strategy, remove_at.
  destruct (i <? List.length (strategies p))%nat; simpl; auto.
Qed.

Lemma fold_remove_strategy_fields (idxs : list nat) (p : Portfolio) :
  strategies (fold_left remove_strategy idxs p)
  = fold_left remove_at idxs (strategies p)
  /\ cash (fold_left remove_strategy idxs p) = cash p
  /\ initial_cash (fold_left remove_strategy idxs p) = initial_cash p
  /\ trade_history (fold_left remove_strategy idxs p) = trade_history p.
Proof.
  revert p. induction idxs as [| i idxs IH]; intros p; simpl; [auto |].
  destruct (IH (remove_strategy p i)) as (H1 & H2 & H3 & H4).
  destruct (remove_strategy_fields p i) as (F1 & F2 & F3 & F4).
  rewrite H1, H2, H3, H4, F1, F2, F3, F4. auto.
Qed.

(** [_handle_expirations] in closed form. *)
Lemma handle_expirations_spec (eng : BacktestEngine) (date : Z) (spot : R) :
  get_spot (market_data eng) date = Some spot ->
  exists eng',
    _handle_expirations eng date = Some eng'
    /\ market_data eng' = market_data eng
    /\ config eng' = config eng
    /\ daily_results eng' = daily_results eng
    /\ current_date eng' = current_date eng
    /\ prev_portfolio_value eng' = prev_portfolio_value eng
    /\ prev_greeks eng' = prev_greeks eng
    /\ strategies (portfolio eng')
       = filter (fun s => negb (has_expired_leg date s))
                (strategies (portfolio eng))
    /\ initial_cash (portfolio eng') = initial_cash (portfolio eng)
    /\ map trade_key (trade_history (portfolio eng'))
       = map trade_key (trade_history (portfolio eng))
         ++ settlements_from 0 spot date (strategies (portfolio eng))
    /\ cash (portfolio eng')
       = cash (portfolio eng)
         + 2 * sum_flows (settlements_from 0 spot date
                                           (strategies (portfolio eng))).
Proof.
  intros Hspot.
  destruct (settle_expired_spec (market_data eng) date spot (portfolio eng) Hspot)
    as (p' & Hrun & Hs & Hi & Ht & Hc).
  unfold _handle_expirations. rewrite Hrun. simpl.
  eexists. split; [reflexivity |]. simpl.
  unfold remove_marked.
  destruct (fold_remove_strategy_fields
              (sorted_reverse (expired_indices_from 0 date
                                 (strategies (portfolio eng)))) p')
    as (F1 & F2 & F3 & F4).
  destruct (remove_expired_indices date (strategies (portfolio eng)))
    as (_ & _ & Hfold).
  rewrite F1, F2, F3, F4, Hs, Hfold, Hi, Ht, Hc.
  repeat split; reflexivity.
Qed.

End ExpirationFacts.

Section ExpirationTheorems.
Import Data Instruments Models Backtest.

Lemma bind_some (A B : Type) (m : option A) (f : A -> option B) (b : B) :
  bind m f = Some b -> exists a, m = Some a /\ f a = Some b.
Proof. destruct m as [a |]; simpl; intros H; [eauto | discriminate]. Qed.

(** The settlements, strategy by strategy: one entry per expired leg. *)
Definition expired_legs (date : Z) (s : OptionStrategy) : list OptionLeg :=
  filter (leg_expired date) (legs s).

Definition settlements (spot : R) (date : Z) (l : list OptionStrategy)
  : list (option nat * R) :=
  flat_map (fun entry =>
              map (fun leg => (Some (fst entry), leg_payoff leg spot))
                  (expired_legs date (snd entry)))
           (enumerate l).

Lemma settlements_from_flat_map (k : nat) (spot : R) (date : Z)
  (l : list OptionStrategy) :
  settlements_from k spot date l
  = flat_map (fun entry =>
                map (fun leg => (Some (fst entry), leg_payoff leg spot))
                    (expired_legs date (snd entry)))
             (enumerate_from k l).
Proof.
  revert k. induction l as [| s l IH]; intros k; simpl; [reflexivity |].
  rewrite IH. reflexivity.
Qed.

(** What a processed day does to the list of strategies. *)
Lemma process_day_strategies (eng eng1 : BacktestEngine) (date : Z) :
  _process_day eng date = Some eng1 ->
  strategies (portfolio eng1)
  = filter (fun s => negb (has_expired_leg date s))
           (strategies (portfolio eng))
  /\ market_data eng1 = market_data eng
  /\ config eng1 = config eng.
Proof.
  unfold _process_day. intros H.
  apply bind_some in H. destruct H as (spot & Hspot & H).
  apply bind_some in H. destruct H as (pv & _ & H).
  apply bind_some in H. destruct H as (pg & _ & H).
  destruct (Req_dec_T (initial_capital (config eng)) 0); [discriminate |].
  apply bind_some in H. destruct H as (attr & _ & H).
  apply bind_some in H. destruct H as (eng' & Hexp & H).
  inversion H; subst eng1; clear H. simpl.
  destruct (handle_expirations_spec eng date spot Hspot)
    as (eng'' & Hrun & _ & _ & _ & _ & _ & _ & Hs & _).
  rewrite Hrun in Hexp. inversion Hexp; subst eng''.
  rewrite Hs. auto.
Qed.

Lemma run_days_strategies (dates : list Z) :
  forall (eng eng2 : BacktestEngine),
  run_days eng dates = Some eng2 ->
  incl (strategies (portfolio eng2)) (strategies (portfolio eng)).
Proof.
  unfold run_days. induction dates as [| d dates IH]; intros eng eng2 H.
  - inversion H. apply incl_refl.
  - cbn [foldM] in H. apply bind_some in H. destruct H as (eng1 & Hday & H).
    apply process_day_strategies in Hday. destruct Hday as (Hs & _).
    simpl in Hs. intros s Hin. apply (IH _ _ H) in Hin.
    rewrite Hs in Hin. apply filter_In in Hin. apply Hin.
Qed.

(** C8: on a processed day the handler marks the index of every strategy
    that has a leg with expiry at or before the date, each index once;
    it pops the marked indices in strictly descending order, which leaves
    exactly the strategies without such a leg; and no state reached by
    processing further days holds a strategy with such a leg, so none is
    valued again. *)
Theorem expired_strategy_removed_once (eng eng1 : BacktestEngine) (date : Z) :
  _process_day eng date = Some eng1 ->
  (exists p marked,
      settle_expired (market_data eng) date (portfolio eng) = Some (p, marked)
      /\ (forall i, In i marked <->
                    exists s, nth_error (strategies (portfolio eng)) i = Some s
                              /\ has_expired_leg date s = true)
      /\ StronglySorted gt (sorted_reverse marked)
      /\ portfolio eng1 = remove_marked p marked)
  /\ strategies (portfolio eng1)
     = filter (fun s => negb (has_expired_leg date s))
              (strategies (portfolio eng))
  /\ forall later eng2,
       run_days eng1 later = Some eng2 ->
       forall s, In s (strategies (portfolio eng2)) ->
                 has_expired_leg date s = false.
Proof.
  intros Hday.
  destruct (process_day_strategies _ _ _ Hday) as (Hs & _).
  split; [| split; [exact Hs |]].
  - unfold _process_day in Hday.
    apply bind_some in Hday. destruct Hday as (spot & Hspot & H).
    apply bind_some in H. destruct H as (pv & _ & H).
    apply bind_some in H. destruct H as (pg & _ & H).
    destruct (Req_dec_T (initial_capital (config eng)) 0); [discriminate |].
    apply bind_some in H. destruct H as (attr & _ & H).
    apply bind_some in H. destruct H as (eng' & Hexp & H).
    inversion H; subst eng1; clear H. simpl.
    destruct (settle_expired_spec (market_data eng) date spot (portfolio eng)
                Hspot) as (p & Hrun & _).
    exists p, (expired_indices_from 0 date (strategies (portfolio eng))).
    split; [exact Hrun |]. split; [| split].
    + intros i. rewrite expired_indices_spec. rewrite Nat.sub_0_r.
      split; intros (s & H); exists s; intuition. lia.
    + apply remove_expired_indices.
    + unfold _handle_expirations in Hexp. rewrite Hrun in Hexp.
      simpl in Hexp. inversion Hexp. reflexivity.
  - intros later eng2 Hrun s Hin.
    apply (run_days_strategies _ _ _ Hrun) in Hin.
    rewrite Hs in Hin. apply filter_In in Hin. destruct Hin as [_ Hn].
    apply negb_true_iff in Hn. exact Hn.
Qed.

(** C10: the handler settles and logs the expired legs only.  A strategy
    with an expired leg leaves the portfolio with all of its legs; the trade
    records appended and the change of the cash balance are those of the
    expired legs, so a leg of that strategy that expires after the date is
    dropped without a cash flow and without a record. *)
Theorem live_legs_dropped_unsettled (eng : BacktestEngine) (date : Z)
  (spot : R) :
  get_spot (market_data eng) date = Some spot ->
  exists eng',
    _handle_expirations eng date = Some eng'
    /\ (forall s leg,
          In s (strategies (portfolio eng)) ->
          has_expired_leg date s = true ->
          In leg (legs s) -> (date < expiry (contract leg))%Z ->
          ~ In s (strategies (portfolio eng'))
          /\ ~ In leg (expired_legs date s))
    /\ strategies (portfolio eng')
       = filter (fun s => negb (has_expired_leg date s))
                (strategies (portfolio eng))
    /\ map trade_key (trade_history (portfolio eng'))
       = map trade_key (trade_history (portfolio eng))
         ++ settlements spot date (strategies (portfolio eng))
    /\ cash (portfolio eng')
       = cash (portfolio eng)
         + 2 * sum_flows (settlements spot date (strategies (portfolio eng))).
Proof.
  intros Hspot.
  destruct (handle_expirations_spec eng date spot Hspot)
    as (eng' & Hrun & _ & _ & _ & _ & _ & _ & Hs & _ & Ht & Hc).
  exists eng'. split; [exact Hrun |].
  unfold settlements, enumerate. rewrite <- settlements_from_flat_map.
  split; [| auto].
  intros s leg Hin Hexp Hleg Hlive. split.
  - rewrite Hs. intros Hin'. apply filter_In in Hin'.
    destruct Hin' as [_ Hn]. rewrite Hexp in Hn. discriminate.
  - unfold expired_legs. intros Hin'. apply filter_In in Hin'.
    destruct Hin' as [_ Hl]. unfold leg_expired in Hl.
    apply Z.leb_le in Hl. lia.
Qed.

End ExpirationTheorems.

(** ** The daily step *)

Section DailyStepFacts.
Import Data Instruments Models Backtest.

(** The attribution recorded on a day: the gate of [_process_day]. *)
Definition attribution_of_day (eng : BacktestEngine) (date : Z) (spot : R)
  (g : Greeks) : option Attribution :=
  if Req_dec_T (prev_portfolio_value eng) (initial_capital (config eng))
  then Some zero_attribution
  else _calculate_pnl_attribution eng date spot g.

(** The sum of the six components. *)
Definition attribution_total (a : Attribution) : R :=
  pnl_delta a + pnl_gamma a + pnl_vega a + pnl_theta a + pnl_rho a
  + pnl_residual a.

(** The row appended by a processed day and the state it leaves. *)
Lemma process_day_steps (eng eng1 : BacktestEngine) (date : Z) (spot pv : R)
  (pg : Greeks) (attr : Attribution) :
  get_spot (market_data eng) date = Some spot ->
  portfolio_value (model (config eng)) (portfolio eng) date (market_data eng)
  = Some pv ->
  portfolio_greeks (model (config eng)) (portfolio eng) date (market_data eng)
  = Some pg ->
  initial_capital (config eng) <> 0 ->
  attribution_of_day eng date spot pg = Some attr ->
  _handle_expirations eng date = Some eng1 ->
  _process_day eng date
  = Some (mkBacktestEngine (market_data eng) (config eng) (portfolio eng1)
            (daily_results eng1
             ++ [mkDailyResult date spot pv (cash (portfolio eng1))
                   (pv - prev_portfolio_value eng)
                   ((pv - initial_capital (config eng))
                    / initial_capital (config eng))
                   pg attr
                   (List.length (strategies (portfolio eng1)))])
            (current_date eng1) pv pg).
Proof.
  intros Hspot Hpv Hpg Hic Hattr Hexp. unfold _process_day.
  rewrite Hspot. cbn [bind]. rewrite Hpv. cbn [bind]. rewrite Hpg. cbn [bind].
  rewrite Req_dec_T_false by exact Hic.
  unfold attribution_of_day in Hattr. rewrite Hattr. cbn [bind].
  rewrite Hexp. reflexivity.
Qed.

(** When the attribution is computed and yesterday's spot is found, the six
    components add up to the [daily_pnl] of the last row already in
    [daily_results], the row of the previous processed day. *)
Lemma attribution_closes_on_last_row (eng : BacktestEngine) (date today : Z)
  (spot prev_spot : R) (g : Greeks) :
  current_date eng = Some today ->
  get_spot (market_data eng) (today - 1) = Some prev_spot ->
  exists a,
    _calculate_pnl_attribution eng date spot g = Some a
    /\ attribution_total a
       = match last_opt (daily_results eng) with
         | Some row => r_daily_pnl row
         | None => 0
         end.
Proof.
  intros Hd Hs. unfold _calculate_pnl_attribution. rewrite Hd. cbn [bind].
  rewrite Hs. eexists. split; [reflexivity |].
  unfold attribution_total. simpl. ring.
Qed.

Lemma strategy_value_single (m : PricingModel) (n : string) (leg : OptionLeg)
  (date : Z) (md : MarketData) (p : R) :
  price m (contract leg) date md = Some p ->
  strategy_value m (mkOptionStrategy n [leg]) date md
  = Some (0 + p * quantity leg * contract_size (contract leg)).
Proof.
  intros H. unfold strategy_value, leg_price. cbn [legs foldM].
  rewrite H. reflexivity.
Qed.

Lemma strategy_greeks_single (m : PricingModel) (n : string) (leg : OptionLeg)
  (date : Z) (md : MarketData) (g : Greeks) :
  greeks m (contract leg) date md = Some g ->
  strategy_greeks m (mkOptionStrategy n [leg]) date md
  = Some (add_greeks zero_greeks
            (mkGreeks (delta g * quantity leg * contract_size (contract leg))
                      (gamma g * quantity leg * contract_size (contract leg))
                      (vega g * quantity leg * contract_size (contract leg))
                      (theta g * quantity leg * contract_size (contract leg))
                      (rho g * quantity leg * contract_size (contract leg)))).
Proof.
  intros H. unfold strategy_greeks, leg_greeks. cbn [legs foldM].
  rewrite H. reflexivity.
Qed.

Lemma portfolio_value_single (m : PricingModel) (p : Portfolio)
  (s : OptionStrategy) (date : Z) (md : MarketData) (v : R) :
  strategies p = [s] ->
  strategy_value m s date md = Some v ->
  portfolio_value m p date md = Some (cash p + (0 + v)).
Proof.
  intros Hs Hv. unfold portfolio_value. rewrite Hs. cbn [foldM].
  rewrite Hv. reflexivity.
Qed.

Lemma portfolio_greeks_single (m : PricingModel) (p : Portfolio)
  (s : OptionStrategy) (date : Z) (md : MarketData) (g : Greeks) :
  strategies p = [s] ->
  strategy_greeks m s date md = Some g ->
  portfolio_greeks m p date md = Some (add_greeks zero_greeks g).
Proof.
  intros Hs Hg. unfold portfolio_greeks. rewrite Hs. cbn [foldM].
  rewrite Hg. reflexivity.
Qed.

Lemma portfolio_value_empty (m : PricingModel) (p : Portfolio) (date : Z)
  (md : MarketData) :
  strategies p = [] -> portfolio_value m p date md = Some (cash p + 0).
Proof. intros Hs. unfold portfolio_value. rewrite Hs. reflexivity. Qed.

Lemma portfolio_greeks_empty (m : PricingModel) (p : Portfolio) (date : Z)
  (md : MarketData) :
  strategies p = [] -> portfolio_greeks m p date md = Some zero_greeks.
Proof. intros Hs. unfold portfolio_greeks. rewrite Hs. reflexivity. Qed.

(** [Portfolio.record_trade] keeps the cash balance equal to the initial
    cash plus the recorded cash flows. *)
Definition recorded_flows (p : Portfolio) : R :=
  fold_right (fun t acc => cash_flow t + acc) 0 (trade_history p).

Lemma recorded_flows_snoc (l : list Trade) (t : Trade) :
  fold_right (fun t acc => cash_flow t + acc) 0 (l ++ [t])
  = fold_right (fun t acc => cash_flow t + acc) 0 l + cash_flow t.
Proof. induction l as [| x l IH]; simpl; [ring |]. rewrite IH. ring. Qed.

Lemma record_trade_conserves_cash (p : Portfolio) (date : Z) (d : string)
  (flow : R) (i : option nat) :
  cash p = initial_cash p + recorded_flows p ->
  cash (record_trade p date d flow i)
  = initial_cash (record_trade p date d flow i)
    + recorded_flows (record_trade p date d flow i).
Proof.
  intros H. unfold recorded_flows, record_trade. simpl.
  rewrite recorded_flows_snoc. simpl. unfold recorded_flows in H. lra.
Qed.

(** Any sequence of [record_trade] calls on a fresh portfolio leaves the
    cash balance at the initial cash plus the recorded cash flows. *)
Definition record_trades (p : Portfolio)
  (calls : list (Z * string * R * option nat)) : Portfolio :=
  fold_left (fun acc c =>
               record_trade acc (fst (fst (fst c))) (snd (fst (fst c)))
                            (snd (fst c)) (snd c))
            calls p.

Lemma record_trades_conserve_cash
  (calls : list (Z * string * R * option nat)) (p : Portfolio) :
  cash p = initial_cash p + recorded_flows p ->
  cash (record_trades p calls)
  = initial_cash (record_trades p calls)
    + recorded_flows (record_trades p calls).
Proof.
  revert p. induction calls as [| c calls IH]; intros p H; [exact H |].
  unfold record_trades. cbn [fold_left]. apply IH.
  apply record_trade_conserves_cash. exact H.
Qed.

Lemma new_portfolio_conserves_cash (initial : R) :
  cash (new_portfolio initial)
  = initial_cash (new_portfolio initial)
    + recorded_flows (new_portfolio initial).
Proof. unfold recorded_flows. simpl. ring. Qed.

(** The attribution of a processed day is all zero whenever the previous
    portfolio value equals the initial capital, which holds on the first
    processed day of a fresh engine. *)
Lemma process_day_gate (eng eng' : BacktestEngine) (date : Z) :
  _process_day eng date = Some eng' ->
  exists row spot,
    last_opt (daily_results eng') = Some row
    /\ r_date row = date
    /\ attribution_of_day eng date spot (r_greeks row)
       = Some (r_attribution row)
    /\ (prev_portfolio_value eng = initial_capital (config eng) ->
        r_attribution row = zero_attribution).
Proof.
  unfold _process_day. intros H.
  apply bind_some in H. destruct H as (spot & Hspot & H).
  apply bind_some in H. destruct H as (pv & _ & H).
  apply bind_some in H. destruct H as (pg & _ & H).
  destruct (Req_dec_T (initial_capital (config eng)) 0); [discriminate |].
  apply bind_some in H. destruct H as (attr & Hattr & H).
  apply bind_some in H. destruct H as (eng1 & _ & H).
  inversion H; subst eng'; clear H. cbn [daily_results].
  eexists. exists spot. unfold last_opt. rewrite rev_unit.
  split; [reflexivity |]. cbn [r_date r_greeks r_attribution].
  split; [reflexivity |]. split; [exact Hattr |].
  intros Hprev. rewrite Req_dec_T_true in Hattr by exact Hprev.
  inversion Hattr. reflexivity.
Qed.

(** On a processed day whose attribution is computed with yesterday's spot
    at hand, the components recorded in the new row add up to the
    [daily_pnl] of the row before it (to zero when there is none). *)
Lemma process_day_attribution_total (eng eng' : BacktestEngine)
  (date today : Z) (prev_spot : R) :
  _process_day eng date = Some eng' ->
  prev_portfolio_value eng <> initial_capital (config eng) ->
  current_date eng = Some today ->
  get_spot (market_data eng) (today - 1) = Some prev_spot ->
  exists row,
    last_opt (daily_results eng') = Some row
    /\ attribution_total (r_attribution row)
       = match last_opt (daily_results eng) with
         | Some previous => r_daily_pnl previous
         | None => 0
         end.
Proof.
  intros Hday Hgate Htoday Hprev.
  destruct (process_day_gate _ _ _ Hday) as (row & spot & Hlast & _ & Hattr & _).
  exists row. split; [exact Hlast |].
  unfold attribution_of_day in Hattr.
  rewrite Req_dec_T_false in Hattr by exact Hgate.
  destruct (attribution_closes_on_last_row eng date today spot prev_spot
              (r_greeks row) Htoday Hprev) as (a & Ha & Hsum).
  rewrite Ha in Hattr. inversion Hattr; subst a. exact Hsum.
Qed.

Lemma add_strategy_keeps_previous_value (eng eng' : BacktestEngine)
  (s : OptionStrategy) (entry_date : Z) :
  engine_add_strategy eng s entry_date = Some eng' ->
  prev_portfolio_value eng' = prev_portfolio_value eng
  /\ config eng' = config eng.
Proof.
  unfold engine_add_strategy. intros H.
  apply bind_some in H. destruct H as (v & _ & H).
  inversion H. split; reflexivity.
Qed.

End DailyStepFacts.

(** ** A two-day run with a call that expires on the first day *)

Section ExpiryRun.
Import Data Instruments Models Backtest.

(** Spot 110 on day 10 and 120 on day 11, a flat 5% rate, no dividends. *)
Definition expiry_market : MarketData :=
  mkMarketData [(10%Z, 110); (11%Z, 120)] []
               [(10%Z, 5 / 100); (11%Z, 5 / 100)] [(10%Z, 0); (11%Z, 0)].

(** One long call, strike 100, expiring on day 10. *)
Definition expiring_call : OptionContract :=
  mkOptionContract "SPY" Call European 100 10 100.

Definition long_call : OptionStrategy :=
  mkOptionStrategy "Long Call" [mkOptionLeg expiring_call 1 None].

(** The default costs of [BacktestConfig], and a configuration without
    transaction costs. *)
Definition default_config : BacktestConfig :=
  mkBacktestConfig 10 11 100000 0.65 0.0001 1 (BlackScholesModel true).

Definition costless_config : BacktestConfig :=
  mkBacktestConfig 10 11 100000 0 0 1 (BlackScholesModel true).

Lemma expiring_call_price (date : Z) (S : R) :
  get_spot expiry_market date = Some S ->
  (10 <= date <= 11)%Z ->
  price (BlackScholesModel true) expiring_call date expiry_market
  = Some (intrinsic_value expiring_call S).
Proof.
  intros HS Hd. simpl price.
  assert (Hr : get_rate expiry_market date = Some (5 / 100)).
  { assert (date = 10 \/ date = 11)%Z as [-> | ->] by lia; reflexivity. }
  assert (Hq : get_dividend_yield expiry_market date = Some 0).
  { assert (date = 10 \/ date = 11)%Z as [-> | ->] by lia; reflexivity. }
  eapply bs_price_at_expiry; eauto. simpl. lia.
Qed.

Lemma expiring_call_greeks (date : Z) (S : R) :
  get_spot expiry_market date = Some S ->
  (10 <= date <= 11)%Z ->
  greeks (BlackScholesModel true) expiring_call date expiry_market
  = Some (mkGreeks (if Rlt_dec 0 (intrinsic_value expiring_call S)
                    then 1 else 0) 0 0 0 0).
Proof.
  intros HS Hd. simpl greeks.
  assert (Hr : get_rate expiry_market date = Some (5 / 100)).
  { assert (date = 10 \/ date = 11)%Z as [-> | ->] by lia; reflexivity. }
  assert (Hq : get_dividend_yield expiry_market date = Some 0).
  { assert (date = 10 \/ date = 11)%Z as [-> | ->] by lia; reflexivity. }
  eapply bs_greeks_at_expiry; eauto. simpl. lia.
Qed.

(** *** With the default transaction costs *)

Definition entry_trade : Trade :=
  mkTrade 10 "Enter Long Call" (- 1000.75) (Some 0%nat) 98999.25.

Definition expiration_trade : Trade :=
  mkTrade 10 "Expiration: Long Call" 1000 (Some 0%nat) 100999.25.

Definition engine_entered : BacktestEngine :=
  mkBacktestEngine expiry_market default_config
    (mkPortfolio 100000 98999.25 [long_call] [entry_trade])
    [] None 100000 zero_greeks.

Definition row_day10 : DailyResult :=
  mkDailyResult 10 110 99999.25 100999.25 (- 0.75) (- 0.0000075)
                (mkGreeks 100 0 0 0 0) zero_attribution 0.

Definition engine_day10 : BacktestEngine :=
  mkBacktestEngine expiry_market default_config
    (mkPortfolio 100000 100999.25 [] [entry_trade; expiration_trade])
    [row_day10] (Some 10%Z) 99999.25 (mkGreeks 100 0 0 0 0).

Definition row_day11 : DailyResult :=
  mkDailyResult 11 120 100999.25 100999.25 1000 0.0099925
                zero_greeks (mkAttribution 1000 0 0 0 0 (- 1000.75)) 0.

Definition engine_day11 : BacktestEngine :=
  mkBacktestEngine expiry_market default_config
    (mkPortfolio 100000 100999.25 [] [entry_trade; expiration_trade])
    [row_day10; row_day11] (Some 11%Z) 100999.25 zero_greeks.

Lemma enter_long_call :
  engine_add_strategy (new_engine expiry_market default_config) long_call 10
  = Some engine_entered.
Proof.
  unfold engine_add_strategy.
  cbn [new_engine config market_data model default_config].
  unfold long_call at 1.
  rewrite (strategy_value_single _ _ _ _ _ (intrinsic_value expiring_call 110))
    by (apply expiring_call_price; [reflexivity | lia]).
  cbn [bind]. unfold engine_entered, entry_trade.
  unfold with_portfolio, record_trade, add_strategy, new_engine, new_portfolio.
  cbn -[Rabs intrinsic_value].
  repeat f_equal; numeric.
Qed.

Lemma long_call_value (date : Z) (S : R) :
  get_spot expiry_market date = Some S ->
  (10 <= date <= 11)%Z ->
  strategy_value (BlackScholesModel true) long_call date expiry_market
  = Some (0 + intrinsic_value expiring_call S * 1 * 100).
Proof.
  intros HS Hd. unfold long_call.
  rewrite (strategy_value_single _ _ _ _ _ (intrinsic_value expiring_call S))
    by (apply expiring_call_price; assumption).
  reflexivity.
Qed.

Lemma long_call_greeks (date : Z) (S : R) :
  get_spot expiry_market date = Some S ->
  (10 <= date <= 11)%Z ->
  0 < intrinsic_value expiring_call S ->
  strategy_greeks (BlackScholesModel true) long_call date expiry_market
  = Some (add_greeks zero_greeks
            (mkGreeks (1 * 1 * 100) (0 * 1 * 100) (0 * 1 * 100) (0 * 1 * 100)
                      (0 * 1 * 100))).
Proof.
  intros HS Hd Hitm. unfold long_call.
  erewrite strategy_greeks_single
    by (apply expiring_call_greeks; eassumption).
  rewrite Rlt_dec_true by exact Hitm. reflexivity.
Qed.

(** Settling a portfolio that holds the long call alone. *)
Lemma settle_long_call (eng : BacktestEngine) (date : Z) (S : R) :
  market_data eng = expiry_market ->
  strategies (portfolio eng) = [long_call] ->
  get_spot expiry_market date = Some S ->
  (10 <= date)%Z ->
  _handle_expirations eng date
  = Some (with_portfolio eng
            (mkPortfolio (initial_cash (portfolio eng))
               (cash (portfolio eng) + leg_payoff (mkOptionLeg expiring_call 1 None) S
                + leg_payoff (mkOptionLeg expiring_call 1 None) S)
               []
               (trade_history (portfolio eng)
                ++ [mkTrade date "Expiration: Long Call"
                      (leg_payoff (mkOptionLeg expiring_call 1 None) S)
                      (Some 0%nat)
                      (cash (portfolio eng)
                       + leg_payoff (mkOptionLeg expiring_call 1 None) S
                       + leg_payoff (mkOptionLeg expiring_call 1 None) S)]))).
Proof.
  intros Hmd Hs HS Hd. unfold _handle_expirations, settle_expired.
  rewrite Hmd, Hs. cbn [enumerate enumerate_from foldM fst snd legs long_call].
  rewrite (settle_leg_expired expiry_market date S)
    by (try assumption; unfold leg_expired; simpl; apply Z.leb_le; lia).
  cbn [bind existsb fst snd app]. unfold remove_marked.
  cbn [sorted_reverse fold_right insert_desc fold_left].
  unfold remove_strategy, record_trade, set_cash.
  cbn [strategies cash initial_cash trade_history]. rewrite Hs.
  reflexivity.
Qed.

Lemma settle_nothing (eng : BacktestEngine) (date : Z) :
  strategies (portfolio eng) = [] ->
  _handle_expirations eng date = Some (with_portfolio eng (portfolio eng)).
Proof.
  intros Hs. unfold _handle_expirations, settle_expired. rewrite Hs.
  reflexivity.
Qed.

Lemma first_day_default :
  _process_day (with_current_date engine_entered 10) 10 = Some engine_day10.
Proof.
  eapply eq_trans.
  { eapply process_day_steps.
    - reflexivity.
    - eapply portfolio_value_single; [reflexivity |].
      apply (long_call_value 10 110); [reflexivity | lia].
    - eapply portfolio_greeks_single; [reflexivity |].
      apply (long_call_greeks 10 110); [reflexivity | lia | numeric].
    - cbn. lra.
    - unfold attribution_of_day. cbn [prev_portfolio_value with_current_date
        engine_entered config default_config initial_capital].
      rewrite Req_dec_T_true by reflexivity. reflexivity.
    - apply (settle_long_call _ 10 110);
        [reflexivity | reflexivity | reflexivity | lia]. }
  unfold engine_day10, row_day10, entry_trade, expiration_trade.
  cbn -[Rabs intrinsic_value leg_payoff]. repeat f_equal; numeric.
Qed.

Lemma second_day_default :
  _process_day (with_current_date engine_day10 11) 11 = Some engine_day11.
Proof.
  eapply eq_trans.
  { eapply process_day_steps.
    - reflexivity.
    - apply portfolio_value_empty. reflexivity.
    - apply portfolio_greeks_empty. reflexivity.
    - cbn. lra.
    - unfold attribution_of_day. cbn [prev_portfolio_value with_current_date
        engine_day10 config default_config initial_capital].
      rewrite Req_dec_T_false by lra.
      unfold _calculate_pnl_attribution.
      cbn [current_date with_current_date bind market_data engine_day10].
      replace (get_spot expiry_market (11 - 1)) with (Some 110) by reflexivity.
      reflexivity.
    - apply settle_nothing. reflexivity. }
  unfold engine_day11, row_day10, row_day11, entry_trade, expiration_trade.
  cbn. repeat f_equal; numeric.
Qed.

Lemma run_default : run engine_entered = Some engine_day11.
Proof.
  unfold run, run_days.
  replace (trading_dates engine_entered) with [10%Z; 11%Z] by reflexivity.
  cbn [foldM]. rewrite first_day_default. cbn [bind].
  rewrite second_day_default. reflexivity.
Qed.

End ExpiryRun.

Section ExpiryRunCostless.
Import Data Instruments Models Backtest.

(** C1: in the run with the default costs, the attribution of day 11 is
    computed (the previous portfolio value differs from the initial capital
    and the spot of day 10 is found); its six components add up to -0.75,
    the [daily_pnl] of the row of day 10, while the [daily_pnl] recorded in
    the row of day 11 is 1000. *)
Theorem attribution_closes_on_stale_pnl :
  engine_add_strategy (new_engine expiry_market default_config) long_call 10
  = Some engine_entered
  /\ run engine_entered = Some engine_day11
  /\ daily_results engine_day11 = [row_day10; row_day11]
  /\ prev_portfolio_value engine_day10 <> initial_capital default_config
  /\ _calculate_pnl_attribution (with_current_date engine_day10 11) 11 120
                                zero_greeks
     = Some (r_attribution row_day11)
  /\ attribution_total (r_attribution row_day11) = - 0.75
  /\ r_daily_pnl row_day10 = - 0.75
  /\ r_daily_pnl row_day11 = 1000.
Proof.
  split; [exact enter_long_call |]. split; [exact run_default |].
  split; [reflexivity |]. split; [cbn; lra |]. split.
  - unfold _calculate_pnl_attribution.
    cbn [current_date with_current_date bind market_data engine_day10].
    replace (get_spot expiry_market (11 - 1)) with (Some 110) by reflexivity.
    cbn. repeat f_equal; lra.
  - unfold attribution_total. cbn. repeat split; lra.
Qed.

(** C3: in the same run two trades are recorded, with cash flows -1000.75
    (entry) and 1000 (expiration).  After the first the cash balance is the
    initial cash plus the recorded flow; after the second it is 100999.25,
    while the initial cash plus the two recorded flows is 99999.25: the
    handler credits the payoff once directly and once through
    [record_trade]. *)
Theorem expiration_credits_payoff_twice :
  run engine_entered = Some engine_day11
  /\ map cash_flow (trade_history (portfolio engine_entered)) = [- 1000.75]
  /\ cash (portfolio engine_entered) = 100000 + - 1000.75
  /\ map cash_flow (trade_history (portfolio engine_day11))
     = [- 1000.75; 1000]
  /\ cash (portfolio engine_day11) = 100999.25
  /\ initial_cash (portfolio engine_day11)
     + recorded_flows (portfolio engine_day11) = 99999.25.
Proof.
  split; [exact run_default |]. split; [reflexivity |].
  split; [cbn; lra |]. split; [reflexivity |]. split; [reflexivity |].
  unfold recorded_flows. cbn. lra.
Qed.

(** *** Without transaction costs *)

Definition costless_entry_trade : Trade :=
  mkTrade 10 "Enter Long Call" (- 1000) (Some 0%nat) 99000.

Definition costless_expiration_trade : Trade :=
  mkTrade 10 "Expiration: Long Call" 1000 (Some 0%nat) 101000.

Definition costless_entered : BacktestEngine :=
  mkBacktestEngine expiry_market costless_config
    (mkPortfolio 100000 99000 [long_call] [costless_entry_trade])
    [] None 100000 zero_greeks.

Definition costless_row_day10 : DailyResult :=
  mkDailyResult 10 110 100000 101000 0 0
                (mkGreeks 100 0 0 0 0) zero_attribution 0.

Definition costless_day10 : BacktestEngine :=
  mkBacktestEngine expiry_market costless_config
    (mkPortfolio 100000 101000 []
                 [costless_entry_trade; costless_expiration_trade])
    [costless_row_day10] (Some 10%Z) 100000 (mkGreeks 100 0 0 0 0).

Definition costless_row_day11 : DailyResult :=
  mkDailyResult 11 120 101000 101000 1000 0.01
                zero_greeks zero_attribution 0.

Definition costless_day11 : BacktestEngine :=
  mkBacktestEngine expiry_market costless_config
    (mkPortfolio 100000 101000 []
                 [costless_entry_trade; costless_expiration_trade])
    [costless_row_day10; costless_row_day11] (Some 11%Z) 101000 zero_greeks.

Lemma enter_long_call_costless :
  engine_add_strategy (new_engine expiry_market costless_config) long_call 10
  = Some costless_entered.
Proof.
  unfold engine_add_strategy.
  cbn [new_engine config market_data model costless_config].
  unfold long_call at 1.
  rewrite (strategy_value_single _ _ _ _ _ (intrinsic_value expiring_call 110))
    by (apply expiring_call_price; [reflexivity | lia]).
  cbn [bind]. unfold costless_entered, costless_entry_trade.
  unfold with_portfolio, record_trade, add_strategy, new_engine, new_portfolio.
  cbn -[Rabs intrinsic_value].
  repeat f_equal; numeric.
Qed.

Lemma first_day_costless :
  _process_day (with_current_date costless_entered 10) 10 = Some costless_day10.
Proof.
  eapply eq_trans.
  { eapply process_day_steps.
    - reflexivity.
    - eapply portfolio_value_single; [reflexivity |].
      apply (long_call_value 10 110); [reflexivity | lia].
    - eapply portfolio_greeks_single; [reflexivity |].
      apply (long_call_greeks 10 110); [reflexivity | lia | numeric].
    - cbn. lra.
    - unfold attribution_of_day. cbn [prev_portfolio_value with_current_date
        costless_entered config costless_config initial_capital].
      rewrite Req_dec_T_true by reflexivity. reflexivity.
    - apply (settle_long_call _ 10 110);
        [reflexivity | reflexivity | reflexivity | lia]. }
  unfold costless_day10, costless_row_day10, costless_entry_trade,
    costless_expiration_trade.
  cbn -[Rabs intrinsic_value leg_payoff]. repeat f_equal; numeric.
Qed.

Lemma second_day_costless :
  _process_day (with_current_date costless_day10 11) 11 = Some costless_day11.
Proof.
  eapply eq_trans.
  { eapply process_day_steps.
    - reflexivity.
    - apply portfolio_value_empty. reflexivity.
    - apply portfolio_greeks_empty. reflexivity.
    - cbn. lra.
    - unfold attribution_of_day. cbn [prev_portfolio_value with_current_date
        costless_day10 config costless_config initial_capital].
      rewrite Req_dec_T_true by reflexivity. reflexivity.
    - apply settle_nothing. reflexivity. }
  unfold costless_day11, costless_row_day10, costless_row_day11,
    costless_entry_trade, costless_expiration_trade.
  cbn. repeat f_equal; numeric.
Qed.

Lemma run_costless : run costless_entered = Some costless_day11.
Proof.
  unfold run, run_days.
  replace (trading_dates costless_entered) with [10%Z; 11%Z] by reflexivity.
  cbn [foldM]. rewrite first_day_costless. cbn [bind].
  rewrite second_day_costless. reflexivity.
Qed.

(** C7: in the run without transaction costs, day 11 is the second processed
    day and its row carries the all-zero attribution: the portfolio value of
    day 10 equals the initial capital, which is what the gate tests.  The
    attribution computation, had it been executed on day 11, finds the spot
    of day 10 and returns a delta component of 1000. *)
Theorem second_day_skips_attribution :
  engine_add_strategy (new_engine expiry_market costless_config) long_call 10
  = Some costless_entered
  /\ run costless_entered = Some costless_day11
  /\ daily_results costless_day11 = [costless_row_day10; costless_row_day11]
  /\ r_date costless_row_day11 = 11%Z
  /\ r_attribution costless_row_day11 = zero_attribution
  /\ prev_portfolio_value costless_day10 = initial_capital costless_config
  /\ get_spot expiry_market (11 - 1) = Some 110
  /\ _calculate_pnl_attribution (with_current_date costless_day10 11) 11 120
                                zero_greeks
     = Some (mkAttribution 1000 0 0 0 0 (- 1000)).
Proof.
  split; [exact enter_long_call_costless |]. split; [exact run_costless |].
  split; [reflexivity |]. split; [reflexivity |]. split; [reflexivity |].
  split; [reflexivity |]. split; [reflexivity |].
  unfold _calculate_pnl_attribution.
  cbn [current_date with_current_date bind market_data costless_day10].
  replace (get_spot expiry_market (11 - 1)) with (Some 110) by reflexivity.
  cbn. repeat f_equal; lra.
Qed.

End ExpiryRunCostless.

Section ModelExamples.
Import Data Instruments Models Backtest.

(** *** Expiry convergence *)

(** At or past expiry the price is the intrinsic value, gamma, vega, theta
    and rho are zero, and delta is 1 when the intrinsic value is positive
    and 0 otherwise, for calls and for puts alike. *)
Lemma bs_expiry_convergence (b : bool) (c : OptionContract) (date : Z)
  (md : MarketData) (S r q : R) :
  get_spot md date = Some S ->
  get_rate md date = Some r ->
  get_dividend_yield md date = Some q ->
  (expiry c <= date)%Z ->
  price (BlackScholesModel b) c date md
  = Some (match option_type c with
          | Call => Rmax (S - strike c) 0
          | Put => Rmax (strike c - S) 0
          end)
  /\ exists g,
       greeks (BlackScholesModel b) c date md = Some g
       /\ gamma g = 0 /\ vega g = 0 /\ theta g = 0 /\ rho g = 0
       /\ (0 < intrinsic_value c S -> delta g = 1)
       /\ (intrinsic_value c S <= 0 -> delta g = 0).
Proof.
  intros HS Hr Hq He. split.
  - simpl price. rewrite (bs_price_at_expiry b c date md S r q) by assumption.
    unfold intrinsic_value, is_call. destruct (option_type c); reflexivity.
  - eexists. split.
    + simpl greeks. apply (bs_greeks_at_expiry b c date md S r q); assumption.
    + simpl. repeat split; try reflexivity.
      * intros H. rewrite Rlt_dec_true by exact H. reflexivity.
      * intros H. rewrite Rlt_dec_false by exact H. reflexivity.
Qed.

(** A put struck at 120 that expires on day 10, with the spot at 110. *)
Definition expiring_put : OptionContract :=
  mkOptionContract "SPY" Put European 120 10 100.

(** C4, at an in-the-money put on its expiry date: the price is the
    intrinsic value 10 and gamma, vega, theta and rho are zero, but the
    delta returned is +1, which is not one of -1 and 0. *)
Theorem expired_put_delta_is_plus_one :
  price (BlackScholesModel true) expiring_put 10 expiry_market = Some 10
  /\ greeks (BlackScholesModel true) expiring_put 10 expiry_market
     = Some (mkGreeks 1 0 0 0 0).
Proof.
  split.
  - simpl price.
    rewrite (bs_price_at_expiry true expiring_put 10 expiry_market 110
                                (5 / 100) 0)
      by (reflexivity || (simpl; lia)).
    f_equal. numeric.
  - simpl greeks.
    rewrite (bs_greeks_at_expiry true expiring_put 10 expiry_market 110
                                 (5 / 100) 0)
      by (reflexivity || (simpl; lia)).
    rewrite Rlt_dec_true by numeric. reflexivity.
Qed.

(** *** Bump and revalue *)

(** The bump helpers hand back the market data they were given. *)
Lemma bump_helpers_return_copy (md : MarketData) (date : Z)
  (c : OptionContract) (bump S : R) :
  get_spot md date = Some S ->
  _bump_spot md date bump = Some md
  /\ _bump_vol md date c bump = Some md
  /\ _bump_rate md date bump = Some md.
Proof.
  intros HS. unfold _bump_spot, _bump_vol, _bump_rate. rewrite HS.
  auto.
Qed.

(** With a non-zero spot bump, the finite differences over the spot, the
    volatility and the rate are taken between equal prices. *)
Lemma sg_greeks_flat (base : PricingModel) (bump_size : R)
  (c : OptionContract) (date : Z) (md : MarketData) (S P0 : R) :
  get_spot md date = Some S ->
  price base c date md = Some P0 ->
  S * bump_size <> 0 ->
  exists th,
    greeks (SurfaceGreeksModel base bump_size) c date md
    = Some (mkGreeks 0 0 0 th 0).
Proof.
  intros HS HP Hb. simpl greeks. unfold sg_greeks, sg_price.
  rewrite HS. cbn [bind]. rewrite HP. cbn [bind].
  unfold _bump_spot, _bump_vol, _bump_rate. rewrite HS. cbn [bind].
  rewrite HP. cbn [bind]. rewrite Req_dec_T_false by exact Hb.
  eexists. f_equal. f_equal; try (unfold Rdiv; ring).
Qed.

(** The market with the spot of [date] moved by [bump]. *)
Definition shift_spot (md : MarketData) (date : Z) (bump : R) : MarketData :=
  mkMarketData
    (map (fun p => if (fst p =? date)%Z then (fst p, snd p + bump) else p)
         (spot_data md))
    (vol_surfaces md) (risk_free_rates md) (dividend_yields md).

(** C2, for the call that expires in the money on day 10 (spot 110, bump
    1.1): every bump helper returns the market data unchanged, so the spot
    read from the "bumped" data is still 110; the model reports delta 0 and
    gamma 0, whereas the base model's price over the spot moved by the bump
    has central difference 1. *)
Theorem bump_helpers_do_not_shock :
  _bump_spot expiry_market 10 1.1 = Some expiry_market
  /\ _bump_spot expiry_market 10 (- 1.1) = Some expiry_market
  /\ _bump_vol expiry_market 10 expiring_call 0.01 = Some expiry_market
  /\ _bump_rate expiry_market 10 0.01 = Some expiry_market
  /\ get_spot expiry_market 10 = Some 110
  /\ greeks (SurfaceGreeksModel (BlackScholesModel true) 0.01)
            expiring_call 10 expiry_market
     = Some (mkGreeks 0 0 0 10 0)
  /\ price (BlackScholesModel true) expiring_call 10
           (shift_spot expiry_market 10 1.1) = Some 11.1
  /\ price (BlackScholesModel true) expiring_call 10
           (shift_spot expiry_market 10 (- 1.1)) = Some 8.9
  /\ (11.1 - 8.9) / (2 * 1.1) = 1.
Proof.
  split; [reflexivity |]. split; [reflexivity |]. split; [reflexivity |].
  split; [reflexivity |]. split; [reflexivity |]. split; [| split; [| split]].
  - simpl greeks. unfold sg_greeks, sg_price.
    replace (get_spot expiry_market 10) with (Some 110) by reflexivity.
    cbn [bind].
    rewrite (expiring_call_price 10 110) by (reflexivity || lia).
    cbn [bind]. unfold _bump_spot, _bump_vol, _bump_rate.
    replace (get_spot expiry_market 10) with (Some 110) by reflexivity.
    cbn [bind].
    rewrite (expiring_call_price 10 110) by (reflexivity || lia).
    cbn [bind]. rewrite Req_dec_T_false by lra.
    rewrite (expiring_call_price (10 + 1) 120) by (reflexivity || lia).
    f_equal. numeric.
  - simpl price.
    rewrite (bs_price_at_expiry true expiring_call 10
               (shift_spot expiry_market 10 1.1) (110 + 1.1) (5 / 100) 0)
      by (reflexivity || (simpl; lia)).
    f_equal. numeric.
  - simpl price.
    rewrite (bs_price_at_expiry true expiring_call 10
               (shift_spot expiry_market 10 (- 1.1)) (110 + - 1.1) (5 / 100) 0)
      by (reflexivity || (simpl; lia)).
    f_equal. numeric.
  - lra.
Qed.

End ModelExamples.

Section Instances.
Import Data Instruments Models Backtest.

(** A call and a put struck at 100 that expire on day 40. *)
Definition parity_call : OptionContract :=
  mkOptionContract "SPY" Call European 100 40 100.

Definition parity_put : OptionContract :=
  mkOptionContract "SPY" Put European 100 40 100.

(** Parity on day 10 of the two-day market: spot 110, rate 5%, no dividends,
    the flat default volatility of 20%. *)
Lemma bs_put_call_parity_witness :
  (0 < 110 /\ 0 < strike parity_call /\ 0 < 20 / 100
   /\ (10 < expiry parity_call)%Z)
  /\ exists C P,
       bs_price true parity_call 10 expiry_market = Some C
       /\ bs_price true parity_put 10 expiry_market = Some P
       /\ C - P = 110 * exp (- 0 * (IZR (expiry parity_call - 10) / 365))
                  - strike parity_call
                    * exp (- (5 / 100) * (IZR (expiry parity_call - 10) / 365)).
Proof.
  split.
  - simpl. repeat split; try lra; lia.
  - apply (bs_put_call_parity true parity_call parity_put 10 expiry_market
             110 (5 / 100) 0 (20 / 100));
      try reflexivity; simpl; try lra; lia.
Defined.

(** The first day of the run with the default costs: the long call expires
    and leaves the portfolio for good. *)
Lemma expired_strategy_removed_once_witness :
  _process_day (with_current_date engine_entered 10) 10 = Some engine_day10
  /\ strategies (portfolio engine_day10)
     = filter (fun s => negb (has_expired_leg 10 s))
              (strategies (portfolio (with_current_date engine_entered 10)))
  /\ forall later eng2,
       run_days engine_day10 later = Some eng2 ->
       forall s, In s (strategies (portfolio eng2)) ->
                 has_expired_leg 10 s = false.
Proof.
  split; [exact first_day_default |].
  destruct (expired_strategy_removed_once
              (with_current_date engine_entered 10) engine_day10 10
              first_day_default) as (_ & Hs & Hlater).
  split; [exact Hs | exact Hlater].
Defined.

(** A calendar spread as [CalendarSpreadStrategy] builds it: short the call
    that expires on day 10, long the call that expires on day 40. *)
Definition far_call : OptionContract :=
  mkOptionContract "SPY" Call European 100 40 100.

Definition calendar_spread : OptionStrategy :=
  mkOptionStrategy "Calendar Spread 100.0"
    [mkOptionLeg expiring_call (- 1) None; mkOptionLeg far_call 1 None].

Definition calendar_engine : BacktestEngine :=
  mkBacktestEngine expiry_market default_config
    (mkPortfolio 100000 100000 [calendar_spread] [])
    [] (Some 10%Z) 100000 zero_greeks.

(** On day 10 the near leg of the spread is settled and logged; the far leg
    goes with the strategy, without a record. *)
Lemma live_legs_dropped_unsettled_witness :
  get_spot (market_data calendar_engine) 10 = Some 110
  /\ exists eng',
       _handle_expirations calendar_engine 10 = Some eng'
       /\ strategies (portfolio eng') = []
       /\ map trade_key (trade_history (portfolio eng'))
          = [(Some 0%nat, leg_payoff (mkOptionLeg expiring_call (- 1) None) 110)]
       /\ cash (portfolio eng')
          = 100000
            + 2 * (leg_payoff (mkOptionLeg expiring_call (- 1) None) 110 + 0).
Proof.
  split; [reflexivity |].
  destruct (live_legs_dropped_unsettled calendar_engine 10 110 eq_refl)
    as (eng' & Hrun & _ & Hs & Ht & Hc).
  exists eng'. split; [exact Hrun |]. split; [exact Hs |].
  split; [exact Ht | exact Hc].
Defined.

End Instances.

(** * Strategy classes, further models and helpers

    The rest of the four modules: the smile and the delta lookup of the vol
    surface, the strategy classes, the Bachelier and SABR models, and the
    helpers of the backtest loop.  As for [BlackScholesModel], a step of a
    pricing formula that has no real value gives [None].  *)

From Stdlib Require Import Ascii.

(** ** More of [data.py] *)
Module DataMore.
Import Data.

(** A list comprehension whose body may raise. *)
Fixpoint mapM {A B : Type} (f : A -> option B) (l : list A) : option (list B) :=
  match l with
  | [] => Some []
  | x :: rest => y <- f x ;; ys <- mapM f rest ;; Some (y :: ys)
  end.

(** [VolSurface.smile]; [iv] is called without a spot, which it never
    reads. *)
Definition smile (s : VolSurface) (expiry : expiry_arg) (strikes : list R)
  : option (list pyfloat) :=
  mapM (fun strike => iv s strike expiry 0) strikes.

(** One row of the [vol_data] of a surface quoted by delta. *)
Record DeltaRow : Type := mkDeltaRow {
  drow_delta : R;
  drow_days_to_expiry : Z;
  drow_implied_vol : R
}.

(** A [VolSurface] whose [vol_data] has a [delta] column. *)
Record DeltaSurface : Type := mkDeltaSurface {
  dsurface_date : Z;
  delta_data : list DeltaRow
}.

(** [VolSurface.iv_by_delta] on a surface quoted by delta.  When no row has
    the requested days to expiry the mask becomes the scalar [True], and
    [vol_data[True]] is a column lookup that raises [KeyError]. *)
Definition iv_by_delta (s : DeltaSurface) (delta : R) (expiry : expiry_arg)
  : option R :=
  let days_to_expiry :=
    match expiry with
    | AtDate e => (e - dsurface_date s)%Z
    | InDays n => n
    end in
  let mask := fun row => (drow_days_to_expiry row =? days_to_expiry)%Z in
  if existsb mask (delta_data s) then
    let filtered := filter mask (delta_data s) in
    let delta_diff := map (fun row => Rabs (drow_delta row - delta)) filtered in
    nearest_idx <- idxmin delta_diff ;;
    row <- nth_error filtered nearest_idx ;;
    Some (drow_implied_vol row)
  else None.

End DataMore.

(** ** More of [instruments.py] *)

Module Strategies.
Import Data Instruments.

(** [str.capitalize()] on ASCII text: the first character in upper case,
    the others in lower case. *)
Definition ascii_upper (c : ascii) : ascii :=
  let n := nat_of_ascii c in
  if ((97 <=? n) && (n <=? 122))%nat then ascii_of_nat (n - 32) else c.

Definition ascii_lower (c : ascii) : ascii :=
  let n := nat_of_ascii c in
  if ((65 <=? n) && (n <=? 90))%nat then ascii_of_nat (n + 32) else c.

Fixpoint string_lower (s : string) : string :=
  match s with
  | EmptyString => EmptyString
  | String c rest => String (ascii_lower c) (string_lower rest)
  end.

Definition capitalize (s : string) : string :=
  match s with
  | EmptyString => EmptyString
  | String c rest => String (ascii_upper c) (string_lower rest)
  end.

(** The value of the [option_type] field, if it is one the contract
    accepts. *)
Definition parse_option_type (s : string) : option OptionType :=
  if (s =? "call")%string then Some Call
  else if (s =? "put")%string then Some Put
  else None.

(** [OptionContract(underlying=..., option_type=..., strike=..., expiry=...)]
    with the default style and contract size, followed by
    [__post_init__]: an unknown option type or a strike that is not
    positive raises [ValueError]. *)
Definition make_contract (underlying option_type : string) (strike : R)
  (expiry : Z) : option OptionContract :=
  ty <- parse_option_type option_type ;;
  if Rle_dec strike 0 then None
  else Some (mkOptionContract underlying ty European strike expiry 100).

(** [OptionStrategy.add_leg]. *)
Definition add_leg (s : OptionStrategy) (leg : OptionLeg) : OptionStrategy :=
  mkOptionStrategy (name s) (legs s ++ [leg]).

(** [OptionStrategy.remove_leg]: out-of-range indices are ignored. *)
Definition remove_leg (s : OptionStrategy) (index : nat) : OptionStrategy :=
  if (index <? List.length (legs s))%nat
  then mkOptionStrategy (name s) (pop (legs s) index)
  else s.

(** [OptionStrategy.payoff]. *)
Definition strategy_payoff (s : OptionStrategy) (spot : R) (at_expiry : bool)
  : option R :=
  if at_expiry
  then Some (fold_left (fun acc leg => acc + leg_payoff leg spot) (legs s) 0)
  else None.

Section Builders.

(** The text an f-string produces for a float. *)
Variable float_str : R -> string.

(** [OptionStrategy.__init__]. *)
Definition new_strategy (n : string) : OptionStrategy := mkOptionStrategy n [].

(** [CalendarSpreadStrategy.__init__]. *)
Definition CalendarSpreadStrategy (underlying : string) (strike : R)
  (near_expiry far_expiry : Z) (option_type : string) (quantity : R)
  : option OptionStrategy :=
  let self := new_strategy ("Calendar Spread " ++ float_str strike) in
  near_contract <- make_contract underlying option_type strike near_expiry ;;
  let self := add_leg self (mkOptionLeg near_contract (- quantity) None) in
  far_contract <- make_contract underlying option_type strike far_expiry ;;
  Some (add_leg self (mkOptionLeg far_contract quantity None)).

(** [VerticalSpreadStrategy.__init__]. *)
Definition VerticalSpreadStrategy (underlying : string)
  (lower_strike upper_strike : R) (expiry : Z) (option_type : string)
  (spread_type : string) (quantity : R) : option OptionStrategy :=
  let self := new_strategy (capitalize spread_type ++ " Vertical Spread") in
  lower_contract <- make_contract underlying option_type lower_strike expiry ;;
  upper_contract <- make_contract underlying option_type upper_strike expiry ;;
  if (spread_type =? "debit")%string then
    if (option_type =? "call")%string then
      Some (add_leg (add_leg self (mkOptionLeg lower_contract quantity None))
                    (mkOptionLeg upper_contract (- quantity) None))
    else
      Some (add_leg (add_leg self (mkOptionLeg upper_contract quantity None))
                    (mkOptionLeg lower_contract (- quantity) None))
  else
    if (option_type =? "call")%string then
      Some (add_leg (add_leg self (mkOptionLeg lower_contract (- quantity) None))
                    (mkOptionLeg upper_contract quantity None))
    else
      Some (add_leg (add_leg self (mkOptionLeg upper_contract (- quantity) None))
                    (mkOptionLeg lower_contract quantity None)).

(** [ButterflyStrategy.__init__]. *)
Definition ButterflyStrategy (underlying : string)
  (lower_strike middle_strike upper_strike : R) (expiry : Z)
  (option_type : string) (quantity : R) : option OptionStrategy :=
  let self := new_strategy ("Butterfly " ++ float_str middle_strike) in
  lower_contract <- make_contract underlying option_type lower_strike expiry ;;
  middle_contract <- make_contract underlying option_type middle_strike expiry ;;
  upper_contract <- make_contract underlying option_type upper_strike expiry ;;
  Some (add_leg
          (add_leg (add_leg self (mkOptionLeg lower_contract quantity None))
                   (mkOptionLeg middle_contract (- 2 * quantity) None))
          (mkOptionLeg upper_contract quantity None)).

(** [IronCondorStrategy.__init__]. *)
Definition IronCondorStrategy (underlying : string)
  (put_lower_strike put_upper_strike call_lower_strike call_upper_strike : R)
  (expiry : Z) (quantity : R) : option OptionStrategy :=
  let self := new_strategy "Iron Condor" in
  long_put <- make_contract underlying "put" put_lower_strike expiry ;;
  short_put <- make_contract underlying "put" put_upper_strike expiry ;;
  short_call <- make_contract underlying "call" call_lower_strike expiry ;;
  long_call <- make_contract underlying "call" call_upper_strike expiry ;;
  Some (add_leg
          (add_leg
             (add_leg (add_leg self (mkOptionLeg long_put quantity None))
                      (mkOptionLeg short_put (- quantity) None))
             (mkOptionLeg short_call (- quantity) None))
          (mkOptionLeg long_call quantity None)).

(** [StraddleStrategy.__init__]. *)
Definition StraddleStrategy (underlying : string) (strike : R) (expiry : Z)
  (direction : string) (quantity : R) : option OptionStrategy :=
  let self :=
    new_strategy (capitalize direction ++ " Straddle " ++ float_str strike) in
  call_contract <- make_contract underlying "call" strike expiry ;;
  put_contract <- make_contract underlying "put" strike expiry ;;
  let sign := if (direction =? "long")%string then 1 else - 1 in
  Some (add_leg (add_leg self (mkOptionLeg call_contract (sign * quantity) None))
                (mkOptionLeg put_contract (sign * quantity) None)).

(** [StrangleStrategy.__init__]. *)
Definition StrangleStrategy (underlying : string) (put_strike call_strike : R)
  (expiry : Z) (direction : string) (quantity : R) : option OptionStrategy :=
  let self := new_strategy (capitalize direction ++ " Strangle") in
  call_contract <- make_contract underlying "call" call_strike expiry ;;
  put_contract <- make_contract underlying "put" put_strike expiry ;;
  let sign := if (direction =? "long")%string then 1 else - 1 in
  Some (add_leg (add_leg self (mkOptionLeg call_contract (sign * quantity) None))
                (mkOptionLeg put_contract (sign * quantity) None)).

End Builders.

End Strategies.

(** ** More of [models.py] *)

Module ModelsMore.
Import Data Instruments Models NormalDist.

(** The division by [sigma * sqrt(T)] stays within the reals. *)
Definition bachelier_inputs_regular (sigma T : R) : bool :=
  if Req_dec_T (sigma * sqrt T) 0 then false else true.

(** The volatility both Bachelier methods use: the surface vol times the
    spot. *)
Definition bachelier_sigma (use_market_iv : bool) (md : MarketData)
  (date : Z) (K : R) (expiry : Z) (S : R) : option R :=
  if use_market_iv then
    v <- get_implied_vol md date K expiry S ;;
    sigma_pct <- as_real v ;;
    Some (sigma_pct * S)
  else Some (0.20 * S).

(** [BachelierModel.price]. *)
Definition bachelier_price (use_market_iv : bool) (opt : OptionContract)
  (date : Z) (md : MarketData) : option R :=
  S <- get_spot md date ;;
  let K := strike opt in
  r <- get_rate md date ;;
  q <- get_dividend_yield md date ;;
  let T := IZR (expiry opt - date) / 365 in
  if Rle_dec T 0 then Some (intrinsic_value opt S)
  else
    let F := S * exp ((r - q) * T) in
    sigma <- bachelier_sigma use_market_iv md date K (expiry opt) S ;;
    if bachelier_inputs_regular sigma T then
      let sqrt_T := sqrt T in
      let d := (F - K) / (sigma * sqrt_T) in
      let price :=
        if is_call opt then
          exp (- r * T) * ((F - K) * norm_cdf d + sigma * sqrt_T * norm_pdf d)
        else
          exp (- r * T) * ((K - F) * norm_cdf (- d) + sigma * sqrt_T * norm_pdf d)
      in
      Some (Rmax price 0)
    else None.

(** [BachelierModel.greeks]. *)
Definition bachelier_greeks (use_market_iv : bool) (opt : OptionContract)
  (date : Z) (md : MarketData) : option Greeks :=
  S <- get_spot md date ;;
  let K := strike opt in
  r <- get_rate md date ;;
  q <- get_dividend_yield md date ;;
  let T := IZR (expiry opt - date) / 365 in
  if Rle_dec T 0 then
    let delta := if Rlt_dec 0 (intrinsic_value opt S) then 1 else 0 in
    Some (mkGreeks delta 0 0 0 0)
  else
    let F := S * exp ((r - q) * T) in
    sigma <- bachelier_sigma use_market_iv md date K (expiry opt) S ;;
    if bachelier_inputs_regular sigma T then
      let sqrt_T := sqrt T in
      let d := (F - K) / (sigma * sqrt_T) in
      let delta :=
        if is_call opt then exp (- r * T) * exp (- q * T) * norm_cdf d
        else - exp (- r * T) * exp (- q * T) * norm_cdf (- d) in
      let gamma :=
        exp (- r * T) * exp (- q * T) * norm_pdf d / (sigma * sqrt_T) in
      let vega := exp (- r * T) * norm_pdf d * sqrt_T * S / 100 in
      let theta := - sigma * exp (- r * T) * norm_pdf d / (2 * sqrt_T) / 365 in
      let rho := 0 in
      Some (mkGreeks delta gamma vega theta rho)
    else None.

Definition BachelierModel (use_market_iv : bool) : PricingModel :=
  mkPricingModel (bachelier_price use_market_iv)
                 (bachelier_greeks use_market_iv).

End ModelsMore.

Module Sabr.
Import Data Instruments Models NormalDist.


(** The function [x(z)] of [sabr_implied_vol].  As in [BlackScholesModel],
    a step without a real value gives [None]: the division by [1 - rho]
    when [rho = 1], the square root of a negative number, the logarithm of
    a number that is not positive, the division by a logarithm that is
    zero. *)
Definition sabr_x_z (rho z : R) : option R :=
  if Rlt_dec (Rabs z) (1 / 1000000) then Some 1
  else if Req_dec_T (1 - rho) 0 then None
  else if Rlt_dec (1 - 2 * rho * z + z ^ 2) 0 then None
  else
    let arg := (sqrt (1 - 2 * rho * z + z ^ 2) + z - rho) / (1 - rho) in
    if Rlt_dec 0 arg then
      if Req_dec_T (ln arg) 0 then None else Some (z / ln arg)
    else None.

(** [SABRModel.sabr_implied_vol], as [price] calls it: with the strike of
    an [OptionContract], which is positive.  The logarithm of [F / K] and
    the powers with a real exponent then have a real value exactly when the
    forward is positive; [nu / alpha] raises for [alpha = 0]. *)
Definition sabr_implied_vol (F K T alpha beta rho nu : R) : option R :=
  if Rle_dec T 0 then Some 0
  else if Rlt_dec 0 F then
    if Rlt_dec 0 K then
      if Req_dec_T alpha 0 then None
      else
        let FK_mid :=
          if Rlt_dec (Rabs (F - K)) (1 / 1000000) then F
          else Rpower (F * K) 0.5 in
        let z := (nu / alpha) * Rpower FK_mid (1 - beta) * ln (F / K) in
        x_z <- sabr_x_z rho z ;;
        let term1 := alpha / Rpower FK_mid (1 - beta) in
        let term2 :=
          1 + ((1 - beta) ^ 2 / 24
               * (alpha ^ 2 / Rpower FK_mid (2 * (1 - beta)))
               + rho * beta * nu * alpha / (4 * Rpower FK_mid (1 - beta))
               + (2 - 3 * rho ^ 2) / 24 * nu ^ 2) * T in
        let iv := term1 * x_z * term2 in
        Some (Rmax iv (1 / 100))
    else None
  else None.




End Sabr.

(** ** More of [backtest.py] *)

Module Helpers.
Import Data Instruments Models Backtest.

(** [RollingStrategy]: the fields [should_exit] reads. *)
Record RollingStrategy : Type := mkRollingStrategy {
  exit_on_expiry : bool;
  days_before_expiry : Z
}.

(** [RollingStrategy.should_exit]. *)
Definition should_exit (self : RollingStrategy) (date : Z)
  (strategy : OptionStrategy) : bool :=
  if negb (exit_on_expiry self) then false
  else
    existsb (fun leg =>
               let days_to_expiry := (expiry (contract leg) - date)%Z in
               (days_to_expiry <=? days_before_expiry self)%Z)
            (legs strategy).





Section Execute.
(** The format [f"{shares:.2f}"]. *)
Variable format_2f : R -> string.

End Execute.

End Helpers.

(** ** Market data lookups and the vol surface *)

Section DataMoreFacts.
Import Data DataMore.

Lemma last_opt_some (A : Type) (l : list A) (x : A) :
  last_opt l = Some x -> exists l', l = l' ++ [x].
Proof.
  unfold last_opt. intros H. destruct (rev l) as [| y r] eqn:E; [discriminate |].
  inversion H; subst y. exists (rev r).
  rewrite <- (rev_involutive l), E. reflexivity.
Qed.



Lemma loc_in (V : Type) (s : series V) (d : Z) (v : V) :
  loc s d = Some v -> In (d, v) s.
Proof.
  unfold loc. induction s as [| [d0 v0] s IH]; simpl; [discriminate |].
  destruct (Z.eqb_spec d0 d) as [-> | Hne]; simpl.
  - intros H. inversion H. auto.
  - intros H. right. apply IH. exact H.
Qed.

(** The last date at or before [date] in an ascending index bounds every
    other such date. *)
Lemma last_of_filter_is_greatest (idx : list Z) (date d : Z) :
  StronglySorted Z.lt idx ->
  last_opt (filter (fun x => (x <=? date)%Z) idx) = Some d ->
  In d idx /\ (d <= date)%Z
  /\ forall d', In d' idx -> (d' <= date)%Z -> (d' <= d)%Z.
Proof.
  intros Hs Hl. apply last_opt_some in Hl. destruct Hl as (l' & E).
  assert (Hin : In d (filter (fun x => (x <=? date)%Z) idx)).
  { rewrite E. apply in_or_app. right. left. reflexivity. }
  apply filter_In in Hin. destruct Hin as [Hin Hle]. apply Z.leb_le in Hle.
  split; [exact Hin |]. split; [exact Hle |].
  intros d' Hd' Hle'.
  assert (Hf : In d' (filter (fun x => (x <=? date)%Z) idx)).
  { apply filter_In. split; [exact Hd' | apply Z.leb_le; exact Hle']. }
  assert (Hsf : StronglySorted Z.lt (filter (fun x => (x <=? date)%Z) idx)).
  { clear -Hs. induction Hs as [| x l Hs IH Hall]; simpl; [constructor |].
    destruct (x <=? date)%Z; [| exact IH].
    constructor; [exact IH |].
    rewrite Forall_forall in *. intros y Hy. apply filter_In in Hy.
    apply Hall, Hy. }
  rewrite E in Hsf, Hf. clear -Hsf Hf.
  induction l' as [| y l' IH]; simpl in *.
  - destruct Hf as [-> | []]. lia.
  - apply StronglySorted_inv in Hsf. destruct Hsf as [Hsf Hall].
    destruct Hf as [-> | Hf].
    + rewrite Forall_forall in Hall.
      specialize (Hall d ltac:(apply in_or_app; right; left; reflexivity)). lia.
    + apply IH; assumption.
Qed.

(** X1.  [get_spot] fills backward only: over a spot frame with ascending
    dates, the value returned is the one stored for the latest date of the
    index that is at or before the query date. *)
Theorem get_spot_is_latest_prior (md : MarketData) (date : Z) (v : R) :
  StronglySorted Z.lt (time_index md) ->
  get_spot md date = Some v ->
  exists d,
    In (d, v) (spot_data md)
    /\ (d <= date)%Z
    /\ forall d', In d' (time_index md) -> (d' <= date)%Z -> (d' <= d)%Z.
Proof.
  unfold get_spot, loc_asof, time_index. intros Hs H.
  destruct (has_date (spot_data md) date) eqn:Hd.
  - exists date. split; [apply loc_in; exact H |]. split; [lia |]. auto.
  - apply bind_some in H. destruct H as (d & Hl & Hv).
    destruct (last_of_filter_is_greatest _ _ _ Hs Hl) as (Hin & Hle & Hmax).
    exists d. split; [apply loc_in; exact Hv |]. auto.
Qed.




Lemma mapM_forall (A B : Type) (f : A -> option B) (P : B -> Prop)
  (l : list A) :
  (forall x, In x l -> exists y, f x = Some y /\ P y) ->
  exists ys, mapM f l = Some ys /\ List.length ys = List.length l
             /\ Forall P ys.
Proof.
  induction l as [| x l IH]; intros H.
  - exists []. repeat split. constructor.
  - destruct (H x (or_introl eq_refl)) as (y & Hy & Py).
    destruct IH as (ys & Hys & Hlen & Hall).
    { intros z Hz. apply H. right. exact Hz. }
    exists (y :: ys). cbn [mapM]. rewrite Hy. cbn [bind]. rewrite Hys.
    cbn [bind]. repeat split; [simpl; lia | constructor; assumption].
Qed.

(** X4.  A smile over strikes at which the interpolant returns numbers
    has one entry per strike, each a number from 0.01 to 5. *)
Theorem smile_is_clamped (s : VolSurface) (e : expiry_arg) (strikes : list R) :
  (0 < days_until s e)%Z ->
  (forall K, In K strikes ->
             exists x, interpolator s K (days_until s e) = Returns (Fin x)) ->
  exists vols,
    smile s e strikes = Some vols
    /\ List.length vols = List.length strikes
    /\ Forall (fun v => exists y, v = Fin y /\ 1 / 100 <= y <= 5) vols.
Proof.
  intros Hd Hnum. unfold smile. apply mapM_forall.
  intros K HK. destruct (Hnum K HK) as (x & Hx).
  destruct (iv_primary_clamped s K e 0 x Hd Hx) as (Hiv & Hrange).
  eexists. split; [exact Hiv |]. eexists. split; [reflexivity | exact Hrange].
Qed.

(** X5.  The smile of an expiry at or before the surface date is zero at
    every strike. *)
Theorem smile_expired_is_zero (s : VolSurface) (e : expiry_arg)
  (strikes : list R) :
  (days_until s e <= 0)%Z ->
  smile s e strikes = Some (map (fun _ => Fin 0) strikes).
Proof.
  intros Hd. unfold smile. induction strikes as [| K l IH]; [reflexivity |].
  cbn [mapM map]. rewrite (iv_expired s K e 0 Hd). cbn [bind].
  rewrite IH. reflexivity.
Qed.

(** The row [idxmin] picks over keys computed from the rows. *)
Lemma idxmin_over_rows (A : Type) (key : A -> R) (l : list A) (i : nat) :
  idxmin (map key l) = Some i ->
  exists x, nth_error l i = Some x /\ In x l
            /\ forall y, In y l -> key x <= key y.
Proof.
  intros H. destruct (idxmin_spec _ _ H) as (Hlen & Hmin & _).
  rewrite length_map in Hlen.
  destruct (nth_error l i) as [x |] eqn:Hx;
    [| apply nth_error_None in Hx; lia].
  exists x. split; [reflexivity |].
  split; [eapply nth_error_In; exact Hx |].
  intros y Hy. apply In_nth_error in Hy. destruct Hy as (j & Hj).
  assert (Hjl : (j < List.length l)%nat).
  { apply nth_error_Some. congruence. }
  specialize (Hmin j ltac:(rewrite length_map; exact Hjl)).
  rewrite (nth_indep _ 0 (key x)) in Hmin by (rewrite length_map; exact Hlen).
  rewrite (nth_indep (map key l) 0 (key x)) in Hmin
    by (rewrite length_map; exact Hjl).
  rewrite !map_nth in Hmin.
  rewrite (nth_error_nth _ _ _ Hx), (nth_error_nth _ _ _ Hj) in Hmin.
  exact Hmin.
Qed.

(** The Euclidean distance the fallback of [iv] minimises. *)
Definition sample_distance (K : R) (days : Z) (row : VolRow) : R :=
  sqrt ((row_strike row - K) ^ 2
        + (IZR (row_days_to_expiry row) - IZR days) ^ 2).

(** X6.  When the interpolant raises, [iv] returns the implied vol stored
    in a sample that no other sample beats in Euclidean distance to the
    query, as it is stored. *)
Theorem iv_fallback_is_nearest_sample (s : VolSurface) (K : R)
  (e : expiry_arg) (spot : R) :
  (0 < days_until s e)%Z ->
  interpolator s K (days_until s e) = Raises ->
  vol_data s <> [] ->
  exists row,
    iv s K e spot = Some (Fin (row_implied_vol row))
    /\ In row (vol_data s)
    /\ forall row', In row' (vol_data s) ->
                    sample_distance K (days_until s e) row
                    <= sample_distance K (days_until s e) row'.
Proof.
  intros Hd Hi Hne.
  destruct (iv_fallback_raw s K e spot Hd Hi Hne) as (i & row & Hidx & Hrow & Hiv).
  unfold distances in Hidx.
  destruct (idxmin_over_rows _ (sample_distance K (days_until s e)) _ _ Hidx)
    as (x & Hx & Hin & Hmin).
  rewrite Hrow in Hx. inversion Hx; subst x.
  exists row. auto.
Qed.

(** X7.  A delta-quoted surface answers only for an expiry it has rows
    for, and then with the vol of a row of that expiry that no other row of
    that expiry beats in distance to the requested delta; for any other
    expiry the lookup raises. *)
Theorem iv_by_delta_is_nearest (s : DeltaSurface) (delta : R)
  (e : expiry_arg) :
  let days := match e with
              | AtDate d => (d - dsurface_date s)%Z
              | InDays n => n
              end in
  ((exists r, In r (delta_data s) /\ drow_days_to_expiry r = days) ->
   exists row,
     iv_by_delta s delta e = Some (drow_implied_vol row)
     /\ In row (delta_data s)
     /\ drow_days_to_expiry row = days
     /\ forall row', In row' (delta_data s) ->
                     drow_days_to_expiry row' = days ->
                     Rabs (drow_delta row - delta)
                     <= Rabs (drow_delta row' - delta))
  /\ ((forall r, In r (delta_data s) -> drow_days_to_expiry r <> days) ->
      iv_by_delta s delta e = None).
Proof.
  intros days. unfold iv_by_delta. fold days.
  set (mask := fun row => (drow_days_to_expiry row =? days)%Z).
  split.
  - intros (r & Hr & Hrd).
    assert (Hany : existsb mask (delta_data s) = true).
    { apply existsb_exists. exists r. split; [exact Hr |].
      apply Z.eqb_eq. exact Hrd. }
    rewrite Hany.
    destruct (idxmin_some (map (fun row => Rabs (drow_delta row - delta))
                               (filter mask (delta_data s)))) as (i & Hi).
    { assert (Hin : In r (filter mask (delta_data s))).
      { apply filter_In. split; [exact Hr | apply Z.eqb_eq; exact Hrd]. }
      destruct (filter mask (delta_data s)); [destruct Hin | discriminate]. }
    destruct (idxmin_over_rows _ _ _ _ Hi) as (row & Hrow & Hin & Hmin).
    exists row. rewrite Hi. cbn [bind]. rewrite Hrow. cbn [bind].
    apply filter_In in Hin. destruct Hin as [Hin Hm].
    apply Z.eqb_eq in Hm.
    split; [reflexivity |]. split; [exact Hin |]. split; [exact Hm |].
    intros row' Hin' Hd'. apply Hmin. apply filter_In. split; [exact Hin' |].
    apply Z.eqb_eq. exact Hd'.
  - intros Hnone.
    destruct (existsb mask (delta_data s)) eqn:Hany; [| reflexivity].
    apply existsb_exists in Hany. destruct Hany as (r & Hr & Hm).
    apply Z.eqb_eq in Hm. destruct (Hnone r Hr Hm).
Qed.

End DataMoreFacts.

Section DataInstances.
Import Data DataMore.

(** The two-day market queried on day 12: the spot of day 11. *)
Lemma get_spot_is_latest_prior_witness :
  (StronglySorted Z.lt (time_index expiry_market)
   /\ get_spot expiry_market 12 = Some 120)
  /\ exists d,
       In (d, 120) (spot_data expiry_market)
       /\ (d <= 12)%Z
       /\ forall d', In d' (time_index expiry_market) ->
                     (d' <= 12)%Z -> (d' <= d)%Z.
Proof.
  assert (Hs : StronglySorted Z.lt (time_index expiry_market)).
  { repeat constructor. }
  split; [split; [exact Hs | reflexivity] |].
  apply (get_spot_is_latest_prior expiry_market 12 120 Hs eq_refl).
Defined.


(** A smile of three strikes on a flat 25% surface, 30 days out. *)
Lemma smile_is_clamped_witness :
  ((0 < days_until (flat_surface 0 (25 / 100)) (InDays 30))%Z
   /\ forall K, In K [90; 100; 110] ->
        exists x, interpolator (flat_surface 0 (25 / 100)) K
                    (days_until (flat_surface 0 (25 / 100)) (InDays 30))
                  = Returns (Fin x))
  /\ exists vols,
       smile (flat_surface 0 (25 / 100)) (InDays 30) [90; 100; 110]
       = Some vols
       /\ List.length vols = List.length [90; 100; 110]
       /\ Forall (fun v => exists y, v = Fin y /\ 1 / 100 <= y <= 5) vols.
Proof.
  assert (Hd : (0 < days_until (flat_surface 0 (25 / 100)) (InDays 30))%Z)
    by (simpl; lia).
  assert (Hx : forall K, In K [90; 100; 110] ->
             exists x, interpolator (flat_surface 0 (25 / 100)) K
                         (days_until (flat_surface 0 (25 / 100)) (InDays 30))
                       = Returns (Fin x))
    by (intros K _; eexists; reflexivity).
  split; [split; [exact Hd | exact Hx] |].
  apply (smile_is_clamped (flat_surface 0 (25 / 100)) (InDays 30)
           [90; 100; 110] Hd Hx).
Defined.

(** The same smile asked for the surface date itself. *)
Lemma smile_expired_is_zero_witness :
  (days_until (flat_surface 0 (25 / 100)) (InDays 0) <= 0)%Z
  /\ smile (flat_surface 0 (25 / 100)) (InDays 0) [90; 100; 110]
     = Some (map (fun _ => Fin 0) [90; 100; 110]).
Proof.
  assert (Hd : (days_until (flat_surface 0 (25 / 100)) (InDays 0) <= 0)%Z)
    by (simpl; lia).
  split; [exact Hd |].
  apply (smile_expired_is_zero (flat_surface 0 (25 / 100)) (InDays 0)
           [90; 100; 110] Hd).
Defined.

(** The surface whose interpolant raises, queried 30 days out. *)
Lemma iv_fallback_is_nearest_sample_witness :
  ((0 < days_until raising_surface (InDays 30))%Z
   /\ interpolator raising_surface 95 (days_until raising_surface (InDays 30))
      = Raises
   /\ vol_data raising_surface <> [])
  /\ exists row,
       iv raising_surface 95 (InDays 30) 100
       = Some (Fin (row_implied_vol row))
       /\ In row (vol_data raising_surface)
       /\ forall row', In row' (vol_data raising_surface) ->
            sample_distance 95 (days_until raising_surface (InDays 30)) row
            <= sample_distance 95 (days_until raising_surface (InDays 30))
                               row'.
Proof.
  assert (Hd : (0 < days_until raising_surface (InDays 30))%Z)
    by (simpl; lia).
  assert (Hne : vol_data raising_surface <> []) by (simpl; discriminate).
  split; [split; [exact Hd | split; [reflexivity | exact Hne]] |].
  apply (iv_fallback_is_nearest_sample raising_surface 95 (InDays 30) 100
           Hd eq_refl Hne).
Defined.

End DataInstances.

(** ** Strategy payoffs *)

Section StrategyFacts.
Import Data Instruments Strategies.

Variable float_str : R -> string.

Example capitalize_debit : capitalize "debit" = "Debit"%string.
Proof. reflexivity. Qed.

Lemma make_contract_call (u : string) (K : R) (e : Z) :
  0 < K ->
  make_contract u "call" K e = Some (mkOptionContract u Call European K e 100).
Proof.
  intros H. unfold make_contract. cbn [parse_option_type String.eqb bind].
  simpl. rewrite Rle_dec_false by exact H. reflexivity.
Qed.

Lemma make_contract_put (u : string) (K : R) (e : Z) :
  0 < K ->
  make_contract u "put" K e = Some (mkOptionContract u Put European K e 100).
Proof.
  intros H. unfold make_contract. simpl. rewrite Rle_dec_false by exact H.
  reflexivity.
Qed.

(** Rewrites differences that the hypotheses force to zero. *)
Ltac collapse_zero :=
  repeat match goal with
         | |- context [(?a - ?b)%R] =>
             let E := fresh "E" in
             assert (E : (a - b)%R = 0) by lra; rewrite !E; clear E
         end.

(** Splits every [max] and closes the goal by arithmetic. *)
Ltac payoff_cases :=
  unfold leg_payoff, payoff, intrinsic_value, is_call; cbn;
  unfold Rmax;
  repeat match goal with
         | |- context [Rle_dec ?a ?b] => destruct (Rle_dec a b)
         end;
  try lra; try ring; try nra; try (collapse_zero; ring).

(** X8.  A straddle pays the absolute move of the spot away from the
    strike, per unit of quantity and contract size, with the sign of its
    direction. *)
Theorem straddle_payoff_is_absolute_move (u : string) (K : R) (e : Z)
  (direction : string) (q spot : R) :
  0 < K ->
  exists s,
    StraddleStrategy float_str u K e direction q = Some s
    /\ strategy_payoff s spot true
       = Some ((if (direction =? "long")%string then 1 else - 1)
               * q * 100 * Rabs (spot - K)).
Proof.
  intros HK. unfold StraddleStrategy.
  rewrite make_contract_call, make_contract_put by exact HK. cbn [bind].
  eexists. split; [reflexivity |].
  unfold strategy_payoff, add_leg, new_strategy. cbn [legs app fold_left].
  f_equal.
  destruct (Rtotal_order spot K) as [H | [H | H]]; [| subst spot |];
    destruct (direction =? "long")%string;
    unfold Rabs; destruct (Rcase_abs _); payoff_cases.
Qed.

Lemma parse_option_type_cases (ot : string) (ty : OptionType) :
  parse_option_type ot = Some ty ->
  (ot = "call"%string /\ ty = Call) \/ (ot = "put"%string /\ ty = Put).
Proof.
  unfold parse_option_type.
  destruct (String.eqb_spec ot "call") as [-> | _].
  - intros H. inversion H. auto.
  - destruct (String.eqb_spec ot "put") as [-> | _]; [| discriminate].
    intros H. inversion H. auto.
Qed.

(** [OptionContract] accepts exactly the option types "call" and "put"
    with a positive strike; every other input raises. *)
Lemma contract_validation (u ot : string) (K : R) (e : Z) :
  make_contract u ot K e = None
  <-> (ot <> "call"%string /\ ot <> "put"%string) \/ K <= 0.
Proof.
  unfold make_contract, parse_option_type.
  destruct (String.eqb_spec ot "call") as [-> | Hc]; cbn [bind].
  - destruct (Rle_dec K 0); split; intros H; auto; try discriminate.
    destruct H as [[H _] | H]; [congruence | contradiction].
  - destruct (String.eqb_spec ot "put") as [-> | Hp]; cbn [bind].
    + destruct (Rle_dec K 0); split; intros H; auto; try discriminate.
      destruct H as [[_ H] | H]; [congruence | contradiction].
    + split; auto.
Qed.

(** X9.  The intrinsic values of a call and a put on the same strike are
    never negative, never both positive, and differ by spot minus strike. *)
Theorem intrinsic_value_parity (u : string) (st : Style) (K : R) (e : Z)
  (size spot : R) :
  let call := mkOptionContract u Call st K e size in
  let put := mkOptionContract u Put st K e size in
  0 <= intrinsic_value call spot
  /\ 0 <= intrinsic_value put spot
  /\ intrinsic_value call spot * intrinsic_value put spot = 0
  /\ intrinsic_value call spot - intrinsic_value put spot = spot - K.
Proof.
  unfold intrinsic_value, is_call; cbn. unfold Rmax.
  destruct (Rle_dec (spot - K) 0); destruct (Rle_dec (K - spot) 0);
    repeat split; try lra; try ring.
Qed.

(** X10.  A strangle with the put strike at or below the call strike pays
    nothing while the spot lies between the strikes and otherwise the
    distance of the spot from the nearer strike, per unit of quantity and
    contract size, with the sign of its direction. *)
Theorem strangle_payoff_outside_strikes (u : string) (Kp Kc : R) (e : Z)
  (direction : string) (q spot : R) :
  0 < Kp -> Kp <= Kc ->
  exists s p,
    StrangleStrategy u Kp Kc e direction q = Some s
    /\ strategy_payoff s spot true = Some p
    /\ (Kp <= spot <= Kc -> p = 0)
    /\ (spot <= Kp ->
        p = (if (direction =? "long")%string then 1 else - 1)
            * q * 100 * (Kp - spot))
    /\ (Kc <= spot ->
        p = (if (direction =? "long")%string then 1 else - 1)
            * q * 100 * (spot - Kc)).
Proof.
  intros HKp Hle. unfold StrangleStrategy.
  rewrite make_contract_call, make_contract_put by lra. cbn [bind].
  eexists. eexists. split; [reflexivity |].
  unfold strategy_payoff, add_leg, new_strategy. cbn [legs app fold_left].
  split; [reflexivity |].
  destruct (direction =? "long")%string; repeat split; intros; payoff_cases.
Qed.

(** X11.  A vertical spread on strikes [L <= U] with a non-negative
    quantity has a bounded payoff: between 0 and the width of the strikes
    for a debit spread, between minus the width and 0 for a credit spread,
    per unit of quantity and contract size, for calls and for puts. *)
Theorem vertical_spread_payoff_bounds (u : string) (L U : R) (e : Z)
  (ot spread_type : string) (ty : OptionType) (q spot : R) :
  parse_option_type ot = Some ty ->
  0 < L -> L <= U -> 0 <= q ->
  exists s p,
    VerticalSpreadStrategy u L U e ot spread_type q = Some s
    /\ strategy_payoff s spot true = Some p
    /\ if (spread_type =? "debit")%string
       then 0 <= p <= q * 100 * (U - L)
       else - (q * 100 * (U - L)) <= p <= 0.
Proof.
  intros Hty HL HLU Hq. unfold VerticalSpreadStrategy, make_contract.
  rewrite Hty. cbn [bind]. rewrite !Rle_dec_false by lra.
  assert (Hw : 0 <= q * 100 * (U - L)) by nra.
  destruct (parse_option_type_cases ot ty Hty) as [[-> ->] | [-> ->]];
    destruct (spread_type =? "debit")%string; cbn [String.eqb];
    simpl; eexists; eexists; (split; [reflexivity |]);
    (split; [reflexivity |]); split; payoff_cases.
Qed.

(** X12.  A butterfly on equally spaced strikes with a non-negative
    quantity pays between 0 and the spacing, per unit of quantity and
    contract size, and pays nothing when the spot is at or outside the
    outer strikes, for calls and for puts. *)
Theorem butterfly_payoff_bounds (u : string) (L M U : R) (e : Z)
  (ot : string) (ty : OptionType) (q spot : R) :
  parse_option_type ot = Some ty ->
  0 < L -> L <= M -> M - L = U - M -> 0 <= q ->
  exists s p,
    ButterflyStrategy float_str u L M U e ot q = Some s
    /\ strategy_payoff s spot true = Some p
    /\ 0 <= p <= q * 100 * (M - L)
    /\ (spot <= L \/ U <= spot -> p = 0).
Proof.
  intros Hty HL HLM Hsym Hq. unfold ButterflyStrategy, make_contract.
  rewrite Hty. cbn [bind]. rewrite !Rle_dec_false by lra.
  assert (Hw : 0 <= q * 100 * (M - L)) by nra.
  destruct ty; eexists; eexists; (split; [reflexivity |]);
    (split; [reflexivity |]); repeat split; try (intros [? | ?]);
    payoff_cases.
Qed.

(** X13.  An iron condor on ordered strikes with a non-negative quantity
    never pays a positive amount at expiry, loses at most the wider of its
    two wings per unit of quantity and contract size, and pays nothing
    while the spot lies between the short strikes. *)
Theorem iron_condor_payoff_bounds (u : string) (pl pu cl cu : R) (e : Z)
  (q spot : R) :
  0 < pl -> pl <= pu -> pu <= cl -> cl <= cu -> 0 <= q ->
  exists s p,
    IronCondorStrategy u pl pu cl cu e q = Some s
    /\ strategy_payoff s spot true = Some p
    /\ - (q * 100 * Rmax (pu - pl) (cu - cl)) <= p <= 0
    /\ (pu <= spot <= cl -> p = 0).
Proof.
  intros H0 H1 H2 H3 Hq. unfold IronCondorStrategy.
  rewrite !make_contract_put, !make_contract_call by lra. cbn [bind].
  eexists. eexists. split; [reflexivity |].
  unfold strategy_payoff, add_leg, new_strategy. cbn [legs app fold_left].
  split; [reflexivity |].
  assert (Hwp : 0 <= q * 100 * (pu - pl)) by nra.
  assert (Hwc : 0 <= q * 100 * (cu - cl)) by nra.
  assert (Hmax : q * 100 * (pu - pl) <= q * 100 * Rmax (pu - pl) (cu - cl)
                 /\ q * 100 * (cu - cl) <= q * 100 * Rmax (pu - pl) (cu - cl)).
  { pose proof (Rmax_l (pu - pl) (cu - cl)).
    pose proof (Rmax_r (pu - pl) (cu - cl)). split; nra. }
  destruct Hmax as [Hm1 Hm2].
  set (W := q * 100 * Rmax (pu - pl) (cu - cl)) in *.
  repeat split; intros;
    unfold leg_payoff, payoff, intrinsic_value, is_call; cbn;
    unfold Rmax;
    repeat match goal with
           | |- context [Rle_dec ?a ?b] => destruct (Rle_dec a b)
           end; try lra; try nra.
Qed.

(** X14.  The expiration payoff of a calendar spread is zero at every spot:
    [payoff] treats both legs as expiring and their quantities cancel. *)
Theorem calendar_spread_payoff_is_zero (u : string) (K : R)
  (near far : Z) (ot : string) (ty : OptionType) (q spot : R) :
  parse_option_type ot = Some ty ->
  0 < K ->
  exists s,
    CalendarSpreadStrategy float_str u K near far ot q = Some s
    /\ strategy_payoff s spot true = Some 0.
Proof.
  intros Hty HK. unfold CalendarSpreadStrategy, make_contract.
  rewrite Hty. cbn [bind]. rewrite !Rle_dec_false by lra.
  eexists. split; [reflexivity |].
  unfold strategy_payoff, add_leg, new_strategy. cbn [legs app fold_left].
  f_equal. destruct ty; payoff_cases.
Qed.

(** Adding a strategy and removing the index it received restores the
    portfolio; removing an index that is out of range changes nothing. *)
Lemma add_then_remove_strategy (p : Portfolio) (s : OptionStrategy)
  (i : nat) :
  remove_strategy (add_strategy p s) (List.length (strategies p))
  = mkPortfolio (initial_cash p) (cash p) (strategies p) (trade_history p)
  /\ ((List.length (strategies p) <= i)%nat -> remove_strategy p i = p).
Proof.
  split.
  - unfold remove_strategy, add_strategy. cbn [strategies initial_cash cash
      trade_history]. rewrite length_app. cbn [List.length].
    destruct (Nat.ltb_spec (List.length (strategies p))
                (List.length (strategies p) + 1)); [| lia].
    f_equal. change (pop (strategies p ++ [s]) (List.length (strategies p)))
      with (firstn (List.length (strategies p)) (strategies p ++ [s])
            ++ skipn (S (List.length (strategies p))) (strategies p ++ [s])).
    rewrite firstn_app, firstn_all, Nat.sub_diag.
    rewrite skipn_all2 by (rewrite length_app; simpl; lia).
    simpl. rewrite !app_nil_r. reflexivity.
  - intros Hi. unfold remove_strategy.
    destruct (Nat.ltb_spec i (List.length (strategies p))); [lia | reflexivity].
Qed.

End StrategyFacts.

Section StrategyInstances.
Import Data Instruments Strategies.

(** A long straddle struck at 100 with the spot at 110. *)
Lemma straddle_payoff_is_absolute_move_witness :
  0 < 100
  /\ exists s,
       StraddleStrategy (fun _ => "100.0"%string) "SPY" 100 40 "long" 1
       = Some s
       /\ strategy_payoff s 110 true
          = Some ((if ("long" =? "long")%string then 1 else - 1)
                  * 1 * 100 * Rabs (110 - 100)).
Proof.
  assert (HK : 0 < 100) by lra.
  split; [exact HK |].
  apply (straddle_payoff_is_absolute_move (fun _ => "100.0"%string) "SPY" 100
           40 "long" 1 110 HK).
Defined.

(** A short strangle on the strikes 90 and 110 with the spot at 120. *)
Lemma strangle_payoff_outside_strikes_witness :
  (0 < 90 /\ 90 <= 110)
  /\ exists s p,
       StrangleStrategy "SPY" 90 110 40 "short" 1 = Some s
       /\ strategy_payoff s 120 true = Some p
       /\ (90 <= 120 <= 110 -> p = 0)
       /\ (120 <= 90 ->
           p = (if ("short" =? "long")%string then 1 else - 1)
               * 1 * 100 * (90 - 120))
       /\ (110 <= 120 ->
           p = (if ("short" =? "long")%string then 1 else - 1)
               * 1 * 100 * (120 - 110)).
Proof.
  assert (H0 : 0 < 90) by lra. assert (H1 : 90 <= 110) by lra.
  split; [split; [exact H0 | exact H1] |].
  apply (strangle_payoff_outside_strikes "SPY" 90 110 40 "short" 1 120 H0 H1).
Defined.

(** A debit call spread on the strikes 90 and 110. *)
Lemma vertical_spread_payoff_bounds_witness :
  (parse_option_type "call" = Some Call /\ 0 < 90 /\ 90 <= 110 /\ 0 <= 1)
  /\ exists s p,
       VerticalSpreadStrategy "SPY" 90 110 40 "call" "debit" 1 = Some s
       /\ strategy_payoff s 100 true = Some p
       /\ if ("debit" =? "debit")%string
          then 0 <= p <= 1 * 100 * (110 - 90)
          else - (1 * 100 * (110 - 90)) <= p <= 0.
Proof.
  assert (H0 : 0 < 90) by lra. assert (H1 : 90 <= 110) by lra.
  assert (H2 : 0 <= 1) by lra.
  split; [repeat split; assumption |].
  apply (vertical_spread_payoff_bounds "SPY" 90 110 40 "call" "debit" Call 1
           100 eq_refl H0 H1 H2).
Defined.

(** A put butterfly on the strikes 90, 100 and 110. *)
Lemma butterfly_payoff_bounds_witness :
  (parse_option_type "put" = Some Put /\ 0 < 90 /\ 90 <= 100
   /\ 100 - 90 = 110 - 100 /\ 0 <= 1)
  /\ exists s p,
       ButterflyStrategy (fun _ => "100.0"%string) "SPY" 90 100 110 40 "put" 1
       = Some s
       /\ strategy_payoff s 95 true = Some p
       /\ 0 <= p <= 1 * 100 * (100 - 90)
       /\ (95 <= 90 \/ 110 <= 95 -> p = 0).
Proof.
  assert (H0 : 0 < 90) by lra. assert (H1 : 90 <= 100) by lra.
  assert (H2 : 100 - 90 = 110 - 100) by lra. assert (H3 : 0 <= 1) by lra.
  split; [repeat split; assumption |].
  apply (butterfly_payoff_bounds (fun _ => "100.0"%string) "SPY" 90 100 110
           40 "put" Put 1 95 eq_refl H0 H1 H2 H3).
Defined.

(** An iron condor on the strikes 80, 90, 110 and 120. *)
Lemma iron_condor_payoff_bounds_witness :
  (0 < 80 /\ 80 <= 90 /\ 90 <= 110 /\ 110 <= 120 /\ 0 <= 1)
  /\ exists s p,
       IronCondorStrategy "SPY" 80 90 110 120 40 1 = Some s
       /\ strategy_payoff s 115 true = Some p
       /\ - (1 * 100 * Rmax (90 - 80) (120 - 110)) <= p <= 0
       /\ (90 <= 115 <= 110 -> p = 0).
Proof.
  assert (H0 : 0 < 80) by lra. assert (H1 : 80 <= 90) by lra.
  assert (H2 : 90 <= 110) by lra. assert (H3 : 110 <= 120) by lra.
  assert (H4 : 0 <= 1) by lra.
  split; [repeat split; assumption |].
  apply (iron_condor_payoff_bounds "SPY" 80 90 110 120 40 1 115
           H0 H1 H2 H3 H4).
Defined.

(** The calendar spread of the two-day market, built by its class. *)
Lemma calendar_spread_payoff_is_zero_witness :
  (parse_option_type "call" = Some Call /\ 0 < 100)
  /\ exists s,
       CalendarSpreadStrategy (fun _ => "100.0"%string) "SPY" 100 10 40
                              "call" 1 = Some s
       /\ strategy_payoff s 110 true = Some 0.
Proof.
  assert (H0 : 0 < 100) by lra.
  split; [split; [reflexivity | exact H0] |].
  apply (calendar_spread_payoff_is_zero (fun _ => "100.0"%string) "SPY" 100
           10 40 "call" Call 1 110 eq_refl H0).
Defined.

End StrategyInstances.

(** ** Black-Scholes Greeks and price bounds *)

Section BlackScholesGreeksFacts.
Import Data Instruments Models NormalDist ModelsMore.

Lemma norm_pdf_pos (x : R) : 0 < norm_pdf x.
Proof.
  unfold norm_pdf. apply Rdiv_lt_0_compat; [apply exp_pos |].
  apply sqrt_lt_R0. pose proof PI_RGT_0. lra.
Qed.

Lemma year_fraction_pos (expiry date : Z) :
  (date < expiry)%Z -> 0 < IZR (expiry - date) / 365.
Proof.
  intros H. assert (0 < IZR (expiry - date)) by (apply IZR_lt; lia). lra.
Qed.

(** The Greeks before expiry, as the closed forms of the source. *)
Lemma bs_greeks_before_expiry (b : bool) (c : OptionContract) (date : Z)
  (md : MarketData) (S r q sigma : R) :
  get_spot md date = Some S ->
  get_rate md date = Some r ->
  get_dividend_yield md date = Some q ->
  bs_sigma b md date (strike c) (expiry c) S = Some sigma ->
  0 < S -> 0 < strike c -> 0 < sigma -> (date < expiry c)%Z ->
  let T := IZR (expiry c - date) / 365 in
  let K := strike c in
  let d1 := bs_d1 S K r q sigma T in
  let d2 := d1 - sigma * sqrt T in
  bs_greeks b c date md =
    Some (mkGreeks
            (if is_call c then exp (- q * T) * norm_cdf d1
             else - exp (- q * T) * norm_cdf (- d1))
            (exp (- q * T) * norm_pdf d1 / (S * sigma * sqrt T))
            (S * exp (- q * T) * norm_pdf d1 * sqrt T / 100)
            (if is_call c then
               (- S * exp (- q * T) * norm_pdf d1 * sigma / (2 * sqrt T)
                - r * K * exp (- r * T) * norm_cdf d2
                + q * S * exp (- q * T) * norm_cdf d1) / 365
             else
               (- S * exp (- q * T) * norm_pdf d1 * sigma / (2 * sqrt T)
                + r * K * exp (- r * T) * norm_cdf (- d2)
                - q * S * exp (- q * T) * norm_cdf (- d1)) / 365)
            (if is_call c then K * T * exp (- r * T) * norm_cdf d2 / 100
             else - K * T * exp (- r * T) * norm_cdf (- d2) / 100)).
Proof.
  intros HS Hr Hq Hsig HSpos HKpos Hspos He T K d1 d2.
  assert (HT : 0 < T) by (apply year_fraction_pos; exact He).
  unfold bs_greeks. rewrite HS, Hr, Hq. cbn [bind]. fold T.
  rewrite Rle_dec_false by exact HT. rewrite Hsig. cbn [bind].
  rewrite bs_inputs_regular_true by assumption. reflexivity.
Qed.

(** X15.  Before expiry, with a positive spot, strike and volatility and a
    dividend yield that is not negative, the Black-Scholes delta of a call
    lies between 0 and 1, the delta of a put between -1 and 0, and gamma and
    vega are not negative. *)
Theorem bs_greeks_bounds (b : bool) (c : OptionContract) (date : Z)
  (md : MarketData) (S r q sigma : R) :
  get_spot md date = Some S ->
  get_rate md date = Some r ->
  get_dividend_yield md date = Some q ->
  bs_sigma b md date (strike c) (expiry c) S = Some sigma ->
  0 < S -> 0 < strike c -> 0 < sigma -> (date < expiry c)%Z -> 0 <= q ->
  exists g,
    greeks (BlackScholesModel b) c date md = Some g
    /\ (option_type c = Call -> 0 <= delta g <= 1)
    /\ (option_type c = Put -> - 1 <= delta g <= 0)
    /\ 0 <= gamma g
    /\ 0 <= vega g.
Proof.
  intros HS Hr Hq Hsig HSpos HKpos Hspos He Hq0.
  set (T := IZR (expiry c - date) / 365).
  assert (HT : 0 < T) by (apply year_fraction_pos; exact He).
  eexists. split.
  { simpl greeks. apply (bs_greeks_before_expiry b c date md S r q sigma);
      assumption. }
  cbn [delta gamma vega]. fold T.
  set (d1 := bs_d1 S (strike c) r q sigma T).
  assert (Hdisc : 0 < exp (- q * T) <= 1).
  { split; [apply exp_pos |]. rewrite <- exp_0.
    assert (Hle : - q * T <= 0) by nra.
    destruct Hle as [Hlt | Heq].
    - left. apply exp_increasing. exact Hlt.
    - rewrite Heq. lra. }
  pose proof (norm_cdf_range d1) as Hc1.
  pose proof (norm_cdf_range (- d1)) as Hc2.
  pose proof (norm_pdf_pos d1) as Hpdf.
  assert (HsT : 0 < sqrt T) by (apply sqrt_lt_R0; exact HT).
  split; [| split; [| split]].
  - intros Hcall. unfold is_call. rewrite Hcall. cbv iota.
    assert (0 <= exp (- q * T) * norm_cdf d1) by (apply Rmult_le_pos; lra).
    assert (exp (- q * T) * norm_cdf d1 <= 1 * 1)
      by (apply Rmult_le_compat; lra).
    lra.
  - intros Hput. unfold is_call. rewrite Hput. cbv iota.
    assert (0 <= exp (- q * T) * norm_cdf (- d1)) by (apply Rmult_le_pos; lra).
    assert (exp (- q * T) * norm_cdf (- d1) <= 1 * 1)
      by (apply Rmult_le_compat; lra).
    lra.
  - left. apply Rdiv_lt_0_compat.
    + apply Rmult_lt_0_compat; [apply Hdisc | exact Hpdf].
    + repeat apply Rmult_lt_0_compat; assumption.
  - left. apply Rdiv_lt_0_compat; [| lra].
    apply Rmult_lt_0_compat; [| exact HsT].
    apply Rmult_lt_0_compat; [| exact Hpdf].
    apply Rmult_lt_0_compat; [exact HSpos | apply Hdisc].
Qed.

(** X16.  For a call and a put on the same strike and expiry, before expiry:
    the deltas differ by the dividend discount factor, gamma and vega
    coincide, and the rhos differ by K T e^(-rT) / 100. *)
Theorem bs_greeks_parity (b : bool) (call put : OptionContract) (date : Z)
  (md : MarketData) (S r q sigma : R) :
  option_type call = Call ->
  option_type put = Put ->
  strike put = strike call ->
  expiry put = expiry call ->
  get_spot md date = Some S ->
  get_rate md date = Some r ->
  get_dividend_yield md date = Some q ->
  bs_sigma b md date (strike call) (expiry call) S = Some sigma ->
  0 < S -> 0 < strike call -> 0 < sigma -> (date < expiry call)%Z ->
  let T := IZR (expiry call - date) / 365 in
  exists gc gp,
    greeks (BlackScholesModel b) call date md = Some gc
    /\ greeks (BlackScholesModel b) put date md = Some gp
    /\ delta gc - delta gp = exp (- q * T)
    /\ gamma gc = gamma gp
    /\ vega gc = vega gp
    /\ rho gc - rho gp = strike call * T * exp (- r * T) / 100.
Proof.
  intros Hc Hp HK He HS Hr Hq Hsig HSpos HKpos Hspos Hd T.
  eexists. eexists. split.
  { simpl greeks. apply (bs_greeks_before_expiry b call date md S r q sigma);
      assumption. }
  split.
  { simpl greeks. apply (bs_greeks_before_expiry b put date md S r q sigma);
      rewrite ?HK, ?He; assumption. }
  cbn [delta gamma vega rho]. unfold is_call. rewrite Hc, Hp, HK, He.
  cbv iota. fold T.
  set (d1 := bs_d1 S (strike call) r q sigma T).
  set (d2 := d1 - sigma * sqrt T).
  pose proof (norm_cdf_reflect d1) as H1.
  pose proof (norm_cdf_reflect d2) as H2.
  replace (norm_cdf (- d1)) with (1 - norm_cdf d1) by lra.
  replace (norm_cdf (- d2)) with (1 - norm_cdf d2) by lra.
  repeat split; try reflexivity; unfold Rdiv; ring.
Qed.

(** X17.  Before expiry the call price lies between the discounted forward
    payoff floored at zero and the dividend-discounted spot, and the put
    price between the mirrored floor and the discounted strike. *)
Theorem bs_price_bounds (b : bool) (c : OptionContract) (date : Z)
  (md : MarketData) (S r q sigma : R) :
  get_spot md date = Some S ->
  get_rate md date = Some r ->
  get_dividend_yield md date = Some q ->
  bs_sigma b md date (strike c) (expiry c) S = Some sigma ->
  0 < S -> 0 < strike c -> 0 < sigma -> (date < expiry c)%Z ->
  let T := IZR (expiry c - date) / 365 in
  let K := strike c in
  exists p,
    price (BlackScholesModel b) c date md = Some p
    /\ (option_type c = Call ->
        Rmax (S * exp (- q * T) - K * exp (- r * T)) 0 <= p
        /\ p <= S * exp (- q * T))
    /\ (option_type c = Put ->
        Rmax (K * exp (- r * T) - S * exp (- q * T)) 0 <= p
        /\ p <= K * exp (- r * T)).
Proof.
  intros HS Hr Hq Hsig HSpos HKpos Hspos He T K.
  assert (HT : 0 < T) by (apply year_fraction_pos; exact He).
  eexists. split.
  { simpl price. apply (bs_price_before_expiry b c date md S r q sigma);
      assumption. }
  fold T. fold K.
  pose proof (bs_call_nonneg S K r q sigma T HSpos HKpos Hspos HT) as Hcn.
  pose proof (bs_put_nonneg S K r q sigma T HSpos HKpos Hspos HT) as Hpn.
  pose proof (bs_formula_parity S K r q sigma T) as Hpar.
  pose proof (exp_pos (- q * T)) as Heq.
  pose proof (exp_pos (- r * T)) as Her.
  assert (HA : 0 < S * exp (- q * T)) by (apply Rmult_lt_0_compat; lra).
  assert (HB : 0 < K * exp (- r * T))
    by (apply Rmult_lt_0_compat; [exact HKpos | exact Her]).
  split; intros Hty; unfold is_call; rewrite Hty; cbv iota.
  - rewrite (Rmax_left (bs_formula true S K r q sigma T) 0) by exact Hcn.
    split.
    + unfold Rmax. destruct (Rle_dec _ 0); lra.
    + unfold bs_formula.
      pose proof (norm_cdf_range (bs_d1 S K r q sigma T)) as H1.
      pose proof (norm_cdf_range (bs_d2 S K r q sigma T)) as H2.
      nra.
  - rewrite (Rmax_left (bs_formula false S K r q sigma T) 0) by exact Hpn.
    split.
    + unfold Rmax. destruct (Rle_dec _ 0); lra.
    + unfold bs_formula.
      pose proof (norm_cdf_range (- bs_d1 S K r q sigma T)) as H1.
      pose proof (norm_cdf_range (- bs_d2 S K r q sigma T)) as H2.
      nra.
Qed.

End BlackScholesGreeksFacts.

(** ** The Bachelier and SABR models *)

Section OtherModelsFacts.
Import Data Instruments Models NormalDist ModelsMore Sabr.

(** X18.  At or past expiry the Bachelier model returns what the
    Black-Scholes model returns: the intrinsic value as the price, a delta
    of 1 or 0 by the sign of the intrinsic value, and zero for the other
    Greeks, whatever the volatility settings. *)
Theorem bachelier_at_expiry_agrees (b b' : bool) (c : OptionContract)
  (date : Z) (md : MarketData) (S r q : R) :
  get_spot md date = Some S ->
  get_rate md date = Some r ->
  get_dividend_yield md date = Some q ->
  (expiry c <= date)%Z ->
  price (BachelierModel b) c date md = Some (intrinsic_value c S)
  /\ price (BachelierModel b) c date md = price (BlackScholesModel b') c date md
  /\ greeks (BachelierModel b) c date md
     = greeks (BlackScholesModel b') c date md
  /\ greeks (BachelierModel b) c date md
     = Some (mkGreeks (if Rlt_dec 0 (intrinsic_value c S) then 1 else 0)
                      0 0 0 0).
Proof.
  intros HS Hr Hq He.
  assert (HT : IZR (expiry c - date) / 365 <= 0)
    by (apply year_fraction_sign; exact He).
  assert (Hp : price (BachelierModel b) c date md = Some (intrinsic_value c S)).
  { simpl price. unfold bachelier_price. rewrite HS, Hr, Hq. cbn [bind].
    rewrite Rle_dec_true by exact HT. reflexivity. }
  assert (Hg : greeks (BachelierModel b) c date md
               = Some (mkGreeks (if Rlt_dec 0 (intrinsic_value c S)
                                 then 1 else 0) 0 0 0 0)).
  { simpl greeks. unfold bachelier_greeks. rewrite HS, Hr, Hq. cbn [bind].
    rewrite Rle_dec_true by exact HT. reflexivity. }
  split; [exact Hp |]. split; [| split; [| exact Hg]].
  - rewrite Hp. simpl price. symmetry.
    apply (bs_price_at_expiry b' c date md S r q); assumption.
  - rewrite Hg. simpl greeks. symmetry.
    apply (bs_greeks_at_expiry b' c date md S r q); assumption.
Qed.





(** X21.  At the money the SABR implied vol is produced for every
    correlation and vol-of-vol, as long as the forward is positive and
    [alpha] is not zero: the log-moneyness term is replaced by 1 instead of
    dividing by a vanishing logarithm. *)
Theorem sabr_vol_at_the_money (F T alpha beta rho nu : R) :
  0 < T -> 0 < F -> alpha <> 0 ->
  sabr_implied_vol F F T alpha beta rho nu
  = Some (Rmax (alpha / Rpower F (1 - beta) * 1
                * (1 + ((1 - beta) ^ 2 / 24
                        * (alpha ^ 2 / Rpower F (2 * (1 - beta)))
                        + rho * beta * nu * alpha / (4 * Rpower F (1 - beta))
                        + (2 - 3 * rho ^ 2) / 24 * nu ^ 2) * T))
               (1 / 100)).
Proof.
  intros HT HF Ha. unfold sabr_implied_vol.
  rewrite Rle_dec_false by exact HT.
  rewrite !Rlt_dec_true by exact HF.
  rewrite Req_dec_T_false by exact Ha.
  replace (F - F) with 0 by ring. rewrite Rabs_R0.
  rewrite Rlt_dec_true by lra.
  replace (F / F) with 1 by (field; lra). rewrite ln_1, Rmult_0_r.
  unfold sabr_x_z. rewrite Rabs_R0. rewrite Rlt_dec_true by lra.
  reflexivity.
Qed.


End OtherModelsFacts.

Section ModelInstances.
Import Data Instruments Models NormalDist ModelsMore Sabr.

(** The call struck at 100 that expires on day 40, valued on day 10 of the
    two-day market with the flat default volatility. *)
Lemma bs_greeks_bounds_witness :
  (get_spot expiry_market 10 = Some 110
   /\ get_rate expiry_market 10 = Some (5 / 100)
   /\ get_dividend_yield expiry_market 10 = Some 0
   /\ bs_sigma false expiry_market 10 (strike parity_call)
               (expiry parity_call) 110 = Some (20 / 100)
   /\ 0 < 110 /\ 0 < strike parity_call /\ 0 < 20 / 100
   /\ (10 < expiry parity_call)%Z /\ 0 <= 0)
  /\ exists g,
       greeks (BlackScholesModel false) parity_call 10 expiry_market = Some g
       /\ (option_type parity_call = Call -> 0 <= delta g <= 1)
       /\ (option_type parity_call = Put -> - 1 <= delta g <= 0)
       /\ 0 <= gamma g
       /\ 0 <= vega g.
Proof.
  assert (H1 : 0 < 110) by lra.
  assert (H2 : 0 < strike parity_call) by (simpl; lra).
  assert (H3 : 0 < 20 / 100) by lra.
  assert (H4 : (10 < expiry parity_call)%Z) by (simpl; lia).
  assert (H5 : 0 <= 0) by lra.
  split; [repeat split; assumption |].
  apply (bs_greeks_bounds false parity_call 10 expiry_market 110 (5 / 100) 0
           (20 / 100) eq_refl eq_refl eq_refl eq_refl H1 H2 H3 H4 H5).
Defined.

(** The call and the put struck at 100 on the same day. *)
Lemma bs_greeks_parity_witness :
  (option_type parity_call = Call
   /\ option_type parity_put = Put
   /\ strike parity_put = strike parity_call
   /\ expiry parity_put = expiry parity_call
   /\ get_spot expiry_market 10 = Some 110
   /\ get_rate expiry_market 10 = Some (5 / 100)
   /\ get_dividend_yield expiry_market 10 = Some 0
   /\ bs_sigma false expiry_market 10 (strike parity_call)
               (expiry parity_call) 110 = Some (20 / 100)
   /\ 0 < 110 /\ 0 < strike parity_call /\ 0 < 20 / 100
   /\ (10 < expiry parity_call)%Z)
  /\ exists gc gp,
       greeks (BlackScholesModel false) parity_call 10 expiry_market = Some gc
       /\ greeks (BlackScholesModel false) parity_put 10 expiry_market
          = Some gp
       /\ delta gc - delta gp
          = exp (- 0 * (IZR (expiry parity_call - 10) / 365))
       /\ gamma gc = gamma gp
       /\ vega gc = vega gp
       /\ rho gc - rho gp
          = strike parity_call * (IZR (expiry parity_call - 10) / 365)
            * exp (- (5 / 100) * (IZR (expiry parity_call - 10) / 365)) / 100.
Proof.
  assert (H1 : 0 < 110) by lra.
  assert (H2 : 0 < strike parity_call) by (simpl; lra).
  assert (H3 : 0 < 20 / 100) by lra.
  assert (H4 : (10 < expiry parity_call)%Z) by (simpl; lia).
  split; [repeat split; assumption |].
  apply (bs_greeks_parity false parity_call parity_put 10 expiry_market 110
           (5 / 100) 0 (20 / 100) eq_refl eq_refl eq_refl eq_refl eq_refl
           eq_refl eq_refl eq_refl H1 H2 H3 H4).
Defined.

(** The bounds of the same call. *)
Lemma bs_price_bounds_witness :
  (get_spot expiry_market 10 = Some 110
   /\ get_rate expiry_market 10 = Some (5 / 100)
   /\ get_dividend_yield expiry_market 10 = Some 0
   /\ bs_sigma false expiry_market 10 (strike parity_call)
               (expiry parity_call) 110 = Some (20 / 100)
   /\ 0 < 110 /\ 0 < strike parity_call /\ 0 < 20 / 100
   /\ (10 < expiry parity_call)%Z)
  /\ exists p,
       price (BlackScholesModel false) parity_call 10 expiry_market = Some p
       /\ (option_type parity_call = Call ->
           Rmax (110 * exp (- 0 * (IZR (expiry parity_call - 10) / 365))
                 - strike parity_call
                   * exp (- (5 / 100) * (IZR (expiry parity_call - 10) / 365)))
                0 <= p
           /\ p <= 110 * exp (- 0 * (IZR (expiry parity_call - 10) / 365)))
       /\ (option_type parity_call = Put ->
           Rmax (strike parity_call
                 * exp (- (5 / 100) * (IZR (expiry parity_call - 10) / 365))
                 - 110 * exp (- 0 * (IZR (expiry parity_call - 10) / 365)))
                0 <= p
           /\ p <= strike parity_call
                   * exp (- (5 / 100)
                          * (IZR (expiry parity_call - 10) / 365))).
Proof.
  assert (H1 : 0 < 110) by lra.
  assert (H2 : 0 < strike parity_call) by (simpl; lra).
  assert (H3 : 0 < 20 / 100) by lra.
  assert (H4 : (10 < expiry parity_call)%Z) by (simpl; lia).
  split; [repeat split; assumption |].
  apply (bs_price_bounds false parity_call 10 expiry_market 110 (5 / 100) 0
           (20 / 100) eq_refl eq_refl eq_refl eq_refl H1 H2 H3 H4).
Defined.

(** The call that expires on day 10, valued on day 10. *)
Lemma bachelier_at_expiry_agrees_witness :
  (get_spot expiry_market 10 = Some 110
   /\ get_rate expiry_market 10 = Some (5 / 100)
   /\ get_dividend_yield expiry_market 10 = Some 0
   /\ (expiry expiring_call <= 10)%Z)
  /\ price (BachelierModel true) expiring_call 10 expiry_market
     = Some (intrinsic_value expiring_call 110)
  /\ price (BachelierModel true) expiring_call 10 expiry_market
     = price (BlackScholesModel true) expiring_call 10 expiry_market
  /\ greeks (BachelierModel true) expiring_call 10 expiry_market
     = greeks (BlackScholesModel true) expiring_call 10 expiry_market
  /\ greeks (BachelierModel true) expiring_call 10 expiry_market
     = Some (mkGreeks (if Rlt_dec 0 (intrinsic_value expiring_call 110)
                       then 1 else 0) 0 0 0 0).
Proof.
  assert (H : (expiry expiring_call <= 10)%Z) by (simpl; lia).
  split; [repeat split; exact H |].
  apply (bachelier_at_expiry_agrees true true expiring_call 10 expiry_market
           110 (5 / 100) 0 eq_refl eq_refl eq_refl H).
Defined.






(** At the money with a forward of 100, one year out. *)
Lemma sabr_vol_at_the_money_witness :
  (0 < 1 /\ 0 < 100 /\ 20 / 100 <> 0)
  /\ sabr_implied_vol 100 100 1 (20 / 100) (1 / 2) 1 (3 / 10)
     = Some (Rmax (20 / 100 / Rpower 100 (1 - 1 / 2) * 1
                   * (1 + ((1 - 1 / 2) ^ 2 / 24
                           * ((20 / 100) ^ 2 / Rpower 100 (2 * (1 - 1 / 2)))
                           + 1 * (1 / 2) * (3 / 10) * (20 / 100)
                             / (4 * Rpower 100 (1 - 1 / 2))
                           + (2 - 3 * 1 ^ 2) / 24 * (3 / 10) ^ 2) * 1))
                  (1 / 100)).
Proof.
  assert (H1 : 0 < 1) by lra. assert (H2 : 0 < 100) by lra.
  assert (H3 : 20 / 100 <> 0) by lra.
  split; [repeat split; assumption |].
  apply (sabr_vol_at_the_money 100 1 (20 / 100) (1 / 2) 1 (3 / 10) H1 H2 H3).
Defined.


End ModelInstances.

(** ** The run, the ledger and the helpers *)

Section EngineFacts.
Import Data Instruments Models Backtest Helpers.

Lemma foldM_app {A B : Type} (f : A -> B -> option A) (l1 l2 : list B)
  (a : A) :
  foldM f (l1 ++ l2) a = (a' <- foldM f l1 a ;; foldM f l2 a').
Proof.
  revert a. induction l1 as [| x l1 IH]; intros a; [reflexivity |].
  cbn [app foldM]. destruct (f a x) as [a1 |]; [| reflexivity].
  cbn [bind]. apply IH.
Qed.

(** The fees charged by [BacktestEngine.add_strategy]. *)
Definition entry_fees (cfg : BacktestConfig) (s : OptionStrategy)
  (entry_cost : R) : R :=
  fold_left (fun acc leg => acc + Rabs (quantity leg)) (legs s) 0
  * transaction_cost_per_contract cfg
  + Rabs entry_cost * transaction_cost_pct cfg.

Lemma fold_abs_nonneg (l : list OptionLeg) (a : R) :
  0 <= a -> 0 <= fold_left (fun acc leg => acc + Rabs (quantity leg)) l a.
Proof.
  revert a. induction l as [| x l IH]; intros a Ha; [exact Ha |].
  cbn [fold_left]. apply IH. pose proof (Rabs_pos (quantity x)). lra.
Qed.

(** X23.  Entering a strategy at its model value moves the portfolio value
    of the entry date down by exactly the transaction fees, which are not
    negative when the two cost rates are not: the price paid is offset by
    the value of the new position. *)
Theorem entry_moves_value_by_fees (eng eng' : BacktestEngine)
  (s : OptionStrategy) (date : Z) (v : R) :
  portfolio_value (model (config eng)) (portfolio eng) date (market_data eng)
  = Some v ->
  engine_add_strategy eng s date = Some eng' ->
  exists entry_cost,
    strategy_value (model (config eng)) s date (market_data eng)
    = Some entry_cost
    /\ cash (portfolio eng')
       = cash (portfolio eng)
         - (entry_cost + entry_fees (config eng) s entry_cost)
    /\ portfolio_value (model (config eng')) (portfolio eng') date
                       (market_data eng')
       = Some (v - entry_fees (config eng) s entry_cost)
    /\ (0 <= transaction_cost_per_contract (config eng) ->
        0 <= transaction_cost_pct (config eng) ->
        0 <= entry_fees (config eng) s entry_cost).
Proof.
  intros Hv Hadd. unfold engine_add_strategy in Hadd.
  apply bind_some in Hadd. destruct Hadd as (entry_cost & Hcost & Hadd).
  inversion Hadd; subst eng'; clear Hadd.
  exists entry_cost. split; [exact Hcost |].
  unfold portfolio_value in Hv.
  apply bind_some in Hv. destruct Hv as (sv & Hsv & Hv). inversion Hv as [Hv'].
  split; [| split].
  - cbn [with_portfolio portfolio record_trade add_strategy cash].
    unfold entry_fees. ring.
  - unfold portfolio_value. cbn [with_portfolio config market_data portfolio].
    cbn [record_trade add_strategy strategies cash].
    rewrite foldM_app, Hsv. cbn [bind foldM]. rewrite Hcost. cbn [bind].
    f_equal. unfold entry_fees. ring.
  - intros Hc Hp. unfold entry_fees.
    apply Rplus_le_le_0_compat.
    + apply Rmult_le_pos; [apply fold_abs_nonneg; lra | exact Hc].
    + apply Rmult_le_pos; [apply Rabs_pos | exact Hp].
Qed.

(** The rows a run appends and what it leaves alone. *)
Definition sum_daily_pnl (rows : list DailyResult) : R :=
  fold_right (fun row acc => r_daily_pnl row + acc) 0 rows.

Lemma handle_expirations_keeps (eng eng1 : BacktestEngine) (date : Z) :
  _handle_expirations eng date = Some eng1 ->
  daily_results eng1 = daily_results eng
  /\ current_date eng1 = current_date eng.
Proof.
  unfold _handle_expirations. intros H.
  apply bind_some in H. destruct H as (st & _ & H).
  inversion H. split; reflexivity.
Qed.

(** One processed day: the row appended and the state left. *)
Lemma process_day_row (eng eng' : BacktestEngine) (date : Z) :
  _process_day eng date = Some eng' ->
  exists row,
    daily_results eng' = daily_results eng ++ [row]
    /\ r_date row = date
    /\ get_spot (market_data eng) date = Some (r_spot row)
    /\ r_daily_pnl row = r_portfolio_value row - prev_portfolio_value eng
    /\ r_total_return row
       = (r_portfolio_value row - initial_capital (config eng))
         / initial_capital (config eng)
    /\ r_cash row = cash (portfolio eng')
    /\ r_num_strategies row = List.length (strategies (portfolio eng'))
    /\ prev_portfolio_value eng' = r_portfolio_value row
    /\ prev_greeks eng' = r_greeks row
    /\ market_data eng' = market_data eng
    /\ config eng' = config eng
    /\ initial_capital (config eng) <> 0.
Proof.
  unfold _process_day. intros H.
  apply bind_some in H. destruct H as (spot & Hspot & H).
  apply bind_some in H. destruct H as (pv & _ & H).
  apply bind_some in H. destruct H as (pg & _ & H).
  destruct (Req_dec_T (initial_capital (config eng)) 0) as [| Hic];
    [discriminate |].
  apply bind_some in H. destruct H as (attr & _ & H).
  apply bind_some in H. destruct H as (eng1 & Hexp & H).
  destruct (handle_expirations_keeps _ _ _ Hexp) as [Hrows _].
  inversion H; subst eng'; clear H. eexists.
  cbn [daily_results portfolio prev_portfolio_value prev_greeks market_data
       config].
  rewrite Hrows. split; [reflexivity |].
  cbn [r_date r_spot r_daily_pnl r_portfolio_value r_total_return r_cash
       r_num_strategies r_greeks].
  repeat split; try reflexivity; assumption.
Qed.

Lemma run_days_rows (dates : list Z) (eng eng' : BacktestEngine) :
  run_days eng dates = Some eng' ->
  exists rows,
    daily_results eng' = daily_results eng ++ rows
    /\ map r_date rows = dates
    /\ sum_daily_pnl rows = prev_portfolio_value eng' - prev_portfolio_value eng
    /\ (forall row, last_opt rows = Some row ->
        r_portfolio_value row = prev_portfolio_value eng'
        /\ r_cash row = cash (portfolio eng'))
    /\ (forall row, In row rows ->
        get_spot (market_data eng) (r_date row) = Some (r_spot row)
        /\ r_total_return row
           = (r_portfolio_value row - initial_capital (config eng))
             / initial_capital (config eng))
    /\ market_data eng' = market_data eng
    /\ config eng' = config eng.
Proof.
  revert eng. induction dates as [| d dates IH]; intros eng H.
  - unfold run_days in H. cbn [foldM] in H. inversion H; subst eng'.
    exists []. rewrite app_nil_r. cbn.
    repeat split; try reflexivity; try ring; try discriminate; contradiction.
  - unfold run_days in H. cbn [foldM] in H.
    apply bind_some in H. destruct H as (eng1 & Hday & H).
    destruct (process_day_row _ _ _ Hday)
      as (row & Hrows & Hdate & Hspot & Hpnl & Hret & Hcash & _ & Hprev & _
          & Hmd & Hcfg & _).
    cbn [with_current_date daily_results prev_portfolio_value market_data
         config] in Hrows, Hspot, Hpnl, Hret, Hmd, Hcfg.
    destruct (IH eng1 H)
      as (rows & Hrows' & Hdates & Hsum & Hlast & Hall & Hmd' & Hcfg').
    exists (row :: rows).
    split; [rewrite Hrows', Hrows, <- app_assoc; reflexivity |].
    split; [cbn [map]; rewrite Hdate, Hdates; reflexivity |].
    split; [| split; [| split; [| split]]].
    + cbn [sum_daily_pnl fold_right]. unfold sum_daily_pnl in Hsum.
      rewrite Hsum, Hpnl, Hprev. ring.
    + intros row' Hl. destruct rows as [| r0 rows].
      * unfold last_opt in Hl. cbn in Hl. inversion Hl; subst row'.
        unfold run_days in H. cbn [foldM] in *.
        destruct dates; [| discriminate].
        cbn [foldM] in H. inversion H; subst eng'.
        split; [symmetry; exact Hprev | exact Hcash].
      * apply Hlast. unfold last_opt in *. cbn [rev] in *.
        destruct (rev rows ++ [r0]) eqn:E.
        { destruct (rev rows); discriminate. }
        cbn [app] in Hl. exact Hl.
    + intros row' [Hin | Hin].
      * subst row'. rewrite Hdate. split; assumption.
      * rewrite <- Hmd, <- Hcfg. apply Hall. exact Hin.
    + rewrite Hmd'. exact Hmd.
    + rewrite Hcfg'. exact Hcfg.
Qed.

(** X24.  A run that completes appends exactly one row per trading date, in
    the order of the time index; every row carries the spot of its date,
    and the market data and the configuration are left as they were. *)
Theorem run_appends_one_row_per_date (eng eng' : BacktestEngine) :
  run eng = Some eng' ->
  map r_date (daily_results eng')
  = map r_date (daily_results eng) ++ trading_dates eng
  /\ (daily_results eng = [] ->
      forall row, In row (daily_results eng') ->
        In (r_date row) (time_index (market_data eng))
        /\ (start_date (config eng) <= r_date row <= end_date (config eng))%Z
        /\ get_spot (market_data eng) (r_date row) = Some (r_spot row))
  /\ market_data eng' = market_data eng
  /\ config eng' = config eng.
Proof.
  unfold run. intros H.
  apply bind_some in H. destruct H as (e & Hrun & H).
  assert (e = eng') by (destruct (daily_results e); [discriminate | congruence]).
  subst e. clear H.
  destruct (run_days_rows _ _ _ Hrun)
    as (rows & Hrows & Hdates & _ & _ & Hall & Hmd & Hcfg).
  split; [rewrite Hrows, map_app, Hdates; reflexivity |].
  split; [| split; assumption].
  intros Hfresh row Hin. rewrite Hrows, Hfresh in Hin. cbn [app] in Hin.
  assert (Hd : In (r_date row) (trading_dates eng)).
  { rewrite <- Hdates. apply in_map. exact Hin. }
  unfold trading_dates in Hd. apply filter_In in Hd. destruct Hd as [Hti Hb].
  apply andb_true_iff in Hb. destruct Hb as [Hlo Hhi].
  apply Z.leb_le in Hlo. apply Z.leb_le in Hhi.
  split; [exact Hti |]. split; [lia |]. apply Hall. exact Hin.
Qed.

(** X25.  The daily P&L column telescopes: over a run of a fresh engine the
    recorded [daily_pnl] values add up to the last recorded portfolio value
    minus the initial capital, and the last [total_return] is that sum over
    the initial capital. *)
Theorem daily_pnl_adds_up (eng eng' : BacktestEngine) (last : DailyResult) :
  daily_results eng = [] ->
  prev_portfolio_value eng = initial_capital (config eng) ->
  run eng = Some eng' ->
  last_opt (daily_results eng') = Some last ->
  sum_daily_pnl (daily_results eng')
  = r_portfolio_value last - initial_capital (config eng)
  /\ r_total_return last
     = sum_daily_pnl (daily_results eng') / initial_capital (config eng).
Proof.
  intros Hfresh Hprev H Hlast. unfold run in H.
  apply bind_some in H. destruct H as (e & Hrun & H).
  assert (e = eng') by (destruct (daily_results e); [discriminate | congruence]).
  subst e. clear H.
  destruct (run_days_rows _ _ _ Hrun)
    as (rows & Hrows & _ & Hsum & Hl & Hall & _ & _).
  rewrite Hfresh in Hrows. cbn [app] in Hrows. rewrite Hrows in *.
  destruct (Hl last Hlast) as [Hpv _].
  assert (Hs : sum_daily_pnl rows
               = r_portfolio_value last - initial_capital (config eng))
    by (rewrite Hsum, Hpv, Hprev; reflexivity).
  split; [exact Hs |].
  assert (Hin : In last rows).
  { unfold last_opt in Hlast. destruct (rev rows) as [| x l] eqn:E;
      [discriminate |].
    inversion Hlast; subst x. apply in_rev. rewrite E. left. reflexivity. }
  destruct (Hall last Hin) as [_ Hret]. rewrite Hret, Hs. reflexivity.
Qed.

(** X26.  A run over a window that holds no date of the time index raises:
    no row is produced and the closing report has nothing to read. *)
Theorem run_without_dates_raises (eng : BacktestEngine) :
  daily_results eng = [] ->
  (forall d, In d (time_index (market_data eng)) ->
     (d < start_date (config eng) \/ end_date (config eng) < d)%Z) ->
  run eng = None.
Proof.
  intros Hfresh Hout.
  assert (Hd : trading_dates eng = []).
  { unfold trading_dates.
    induction (time_index (market_data eng)) as [| d l IH]; [reflexivity |].
    cbn [filter].
    destruct (Hout d (or_introl eq_refl)) as [H | H].
    - replace (start_date (config eng) <=? d)%Z with false
        by (symmetry; apply Z.leb_gt; exact H).
      cbn [andb]. apply IH. intros d' Hd'. apply Hout. right. exact Hd'.
    - replace (d <=? end_date (config eng))%Z with false
        by (symmetry; apply Z.leb_gt; exact H).
      rewrite andb_false_r. apply IH. intros d' Hd'. apply Hout. right.
      exact Hd'. }
  unfold run. rewrite Hd. unfold run_days. cbn [foldM bind].
  rewrite Hfresh. reflexivity.
Qed.

End EngineFacts.

Section HelperFacts.
Import Data Instruments Models Backtest Helpers.
Variable format_2f : R -> string.


(** X28.  Once the rolling helper asks to exit a strategy it keeps asking on
    every later date and for every larger [days_before_expiry]; with
    [exit_on_expiry = False] it never asks. *)
Theorem should_exit_is_monotone (self : RollingStrategy) (date date' : Z)
  (days' : Z) (s : OptionStrategy) :
  should_exit self date s = true ->
  (date <= date')%Z ->
  (days_before_expiry self <= days')%Z ->
  exit_on_expiry self = true
  /\ should_exit (mkRollingStrategy true days') date' s = true.
Proof.
  unfold should_exit. intros H Hd Hn.
  destruct (exit_on_expiry self); [| discriminate].
  split; [reflexivity |]. cbn [negb exit_on_expiry days_before_expiry] in *.
  apply existsb_exists in H. destruct H as (leg & Hin & Hleg).
  apply existsb_exists. exists leg. split; [exact Hin |].
  apply Z.leb_le in Hleg. apply Z.leb_le. lia.
Qed.


(** The balances [record_trade] writes, from the flows. *)
Fixpoint running_balances (start : R) (flows : list R) : list R :=
  match flows with
  | [] => []
  | f :: rest => (start + f) :: running_balances (start + f) rest
  end.

Lemma running_balances_snoc (flows : list R) (start f : R) :
  running_balances start (flows ++ [f])
  = running_balances start flows ++ [fold_left Rplus flows start + f].
Proof.
  revert start. induction flows as [| x l IH]; intros start; [reflexivity |].
  cbn [app running_balances fold_left]. rewrite IH. reflexivity.
Qed.

Definition flow_of_call (c : Z * string * R * option nat) : R := snd (fst c).

Lemma record_trades_ledger (calls : list (Z * string * R * option nat))
  (p : Portfolio) :
  cash p = fold_left Rplus (map cash_flow (trade_history p)) (initial_cash p) ->
  map cash_balance (trade_history p)
  = running_balances (initial_cash p) (map cash_flow (trade_history p)) ->
  let p' := record_trades p calls in
  cash p'
  = fold_left Rplus (map cash_flow (trade_history p')) (initial_cash p')
  /\ map cash_balance (trade_history p')
     = running_balances (initial_cash p') (map cash_flow (trade_history p'))
  /\ map cash_flow (trade_history p')
     = map cash_flow (trade_history p) ++ map flow_of_call calls
  /\ initial_cash p' = initial_cash p
  /\ strategies p' = strategies p.
Proof.
  revert p. induction calls as [| c calls IH]; intros p Hc Hb.
  - cbn. rewrite app_nil_r. repeat split; assumption.
  - cbn zeta. unfold record_trades. cbn [fold_left].
    set (p1 := record_trade p (fst (fst (fst c))) (snd (fst (fst c)))
                            (snd (fst c)) (snd c)).
    assert (H1 : cash p1
                 = fold_left Rplus (map cash_flow (trade_history p1))
                             (initial_cash p1)).
    { unfold p1, record_trade. cbn [cash trade_history initial_cash].
      rewrite map_app, fold_left_app. cbn [map fold_left cash_flow].
      rewrite Hc. reflexivity. }
    assert (H2 : map cash_balance (trade_history p1)
                 = running_balances (initial_cash p1)
                                    (map cash_flow (trade_history p1))).
    { unfold p1, record_trade. cbn [cash trade_history initial_cash].
      rewrite !map_app. cbn [map cash_flow cash_balance].
      rewrite running_balances_snoc, Hb, Hc. reflexivity. }
    destruct (IH p1 H1 H2) as (Ha & Hb' & Hf & Hi & Hs).
    fold (record_trades p1 calls).
    split; [exact Ha |]. split; [exact Hb' |].
    split; [| split].
    + rewrite Hf. unfold p1, record_trade. cbn [trade_history].
      rewrite map_app, <- app_assoc. reflexivity.
    + rewrite Hi. reflexivity.
    + rewrite Hs. reflexivity.
Qed.

(** X30.  The ledger of a portfolio that is only ever changed through
    [record_trade]: the recorded flows are those of the calls, in order;
    every entry's [cash_balance] is the initial cash plus the flows up to
    and including that entry; the cash is the initial cash plus all flows,
    and no strategy is touched. *)
Theorem trade_ledger_is_running_sum (initial : R)
  (calls : list (Z * string * R * option nat)) :
  let p := record_trades (new_portfolio initial) calls in
  map cash_flow (trade_history p) = map flow_of_call calls
  /\ map cash_balance (trade_history p)
     = running_balances initial (map flow_of_call calls)
  /\ cash p = fold_left Rplus (map flow_of_call calls) initial
  /\ strategies p = [].
Proof.
  destruct (record_trades_ledger calls (new_portfolio initial))
    as (Ha & Hb & Hf & Hi & Hs); try reflexivity.
  cbn zeta. cbn [new_portfolio trade_history map app initial_cash strategies]
    in Hf, Hi, Hs.
  rewrite Hi, Hf in Ha, Hb.
  repeat split; assumption.
Qed.

End HelperFacts.

Section EngineInstances.
Import Data Instruments Models Backtest Helpers.

(** Entering the long call on day 10 with the default costs. *)
Lemma entry_moves_value_by_fees_witness :
  (portfolio_value (model (config (new_engine expiry_market default_config)))
                   (portfolio (new_engine expiry_market default_config)) 10
                   (market_data (new_engine expiry_market default_config))
   = Some (100000 + 0)
   /\ engine_add_strategy (new_engine expiry_market default_config)
                          long_call 10 = Some engine_entered)
  /\ exists entry_cost,
       strategy_value (model (config (new_engine expiry_market default_config)))
                      long_call 10
                      (market_data (new_engine expiry_market default_config))
       = Some entry_cost
       /\ cash (portfolio engine_entered)
          = cash (portfolio (new_engine expiry_market default_config))
            - (entry_cost
               + entry_fees (config (new_engine expiry_market default_config))
                            long_call entry_cost)
       /\ portfolio_value (model (config engine_entered))
                          (portfolio engine_entered) 10
                          (market_data engine_entered)
          = Some (100000 + 0
                  - entry_fees (config (new_engine expiry_market
                                                   default_config))
                               long_call entry_cost)
       /\ (0 <= transaction_cost_per_contract
                  (config (new_engine expiry_market default_config)) ->
           0 <= transaction_cost_pct
                  (config (new_engine expiry_market default_config)) ->
           0 <= entry_fees (config (new_engine expiry_market default_config))
                           long_call entry_cost).
Proof.
  split; [split; [reflexivity | exact enter_long_call] |].
  apply (entry_moves_value_by_fees (new_engine expiry_market default_config)
           engine_entered long_call 10 (100000 + 0) eq_refl enter_long_call).
Defined.

(** The two-day run with the default costs. *)
Lemma run_appends_one_row_per_date_witness :
  run engine_entered = Some engine_day11
  /\ map r_date (daily_results engine_day11)
     = map r_date (daily_results engine_entered) ++ trading_dates engine_entered
  /\ (daily_results engine_entered = [] ->
      forall row, In row (daily_results engine_day11) ->
        In (r_date row) (time_index (market_data engine_entered))
        /\ (start_date (config engine_entered) <= r_date row
            <= end_date (config engine_entered))%Z
        /\ get_spot (market_data engine_entered) (r_date row)
           = Some (r_spot row))
  /\ market_data engine_day11 = market_data engine_entered
  /\ config engine_day11 = config engine_entered.
Proof.
  split; [exact run_default |].
  apply (run_appends_one_row_per_date engine_entered engine_day11 run_default).
Defined.

Lemma daily_pnl_adds_up_witness :
  (daily_results engine_entered = []
   /\ prev_portfolio_value engine_entered
      = initial_capital (config engine_entered)
   /\ run engine_entered = Some engine_day11
   /\ last_opt (daily_results engine_day11) = Some row_day11)
  /\ sum_daily_pnl (daily_results engine_day11)
     = r_portfolio_value row_day11 - initial_capital (config engine_entered)
  /\ r_total_return row_day11
     = sum_daily_pnl (daily_results engine_day11)
       / initial_capital (config engine_entered).
Proof.
  split; [repeat split; exact run_default |].
  apply (daily_pnl_adds_up engine_entered engine_day11 row_day11 eq_refl
           eq_refl run_default eq_refl).
Defined.

(** A window that starts after the last date of the two-day market. *)
Definition late_engine : BacktestEngine :=
  new_engine expiry_market
    (mkBacktestConfig 20 30 100000 0.65 0.0001 1 (BlackScholesModel true)).

Lemma run_without_dates_raises_witness :
  (daily_results late_engine = []
   /\ forall d, In d (time_index (market_data late_engine)) ->
        (d < start_date (config late_engine)
         \/ end_date (config late_engine) < d)%Z)
  /\ run late_engine = None.
Proof.
  assert (H : forall d, In d (time_index (market_data late_engine)) ->
                (d < start_date (config late_engine)
                 \/ end_date (config late_engine) < d)%Z).
  { intros d [<- | [<- | []]]; left; simpl; lia. }
  split; [split; [reflexivity | exact H] |].
  apply (run_without_dates_raises late_engine eq_refl H).
Defined.

(** The long call of the two-day market, which expires on day 10. *)
Lemma should_exit_is_monotone_witness :
  (should_exit (mkRollingStrategy true 0) 10 long_call = true
   /\ (10 <= 11)%Z
   /\ (days_before_expiry (mkRollingStrategy true 0) <= 5)%Z)
  /\ exit_on_expiry (mkRollingStrategy true 0) = true
  /\ should_exit (mkRollingStrategy true 5) 11 long_call = true.
Proof.
  assert (H1 : (10 <= 11)%Z) by lia.
  assert (H2 : (days_before_expiry (mkRollingStrategy true 0) <= 5)%Z)
    by (simpl; lia).
  split; [repeat split; assumption |].
  apply (should_exit_is_monotone (mkRollingStrategy true 0) 10 11 5 long_call
           eq_refl H1 H2).
Defined.


End EngineInstances.
